(** * The peer-to-peer lending chaincode (chaincode/lendingChaincode.go)

    A shallow embedding of the loan lifecycle and of the token balance
    ledger, and the properties of the specification stated over it.

    - Go's [float64] is Rocq's primitive [float] (IEEE 754 binary64, the
      same format and the same rounding), so every sum, difference and
      comparison below is the one the Go code computes.
    - The world state is a finite map from keys to JSON documents; loans
      and accounts share its keys.  A transaction reads the committed state
      and collects its writes in a write set (Fabric's [GetState] does not
      see the transaction's own [PutState]); the host applies the write set
      when the invocation returns without error, and drops it otherwise.
    - [encoding/json] refuses to encode NaN and the infinities, and no JSON
      text decodes to them; both are part of the codec below.  Strings are
      taken to be valid UTF-8, which the codec returns as it was given.
    - The host's [GetState] and [PutState] are taken to succeed: the branches
      that only pass on a storage error have no counterpart here. *)

From Stdlib Require Import ZArith Floats Lia.
From stdpp Require Import gmap strings list fin_maps pretty.

Local Open Scope Z_scope.

(** ** Records (lendingChaincode.go, lines 12-33) *)

Record Loan := mkLoan {
  LoanID : string;
  BorrowerID : string;
  LenderID : string;
  Amount : float;
  InterestRate : float;
  Duration : Z;
  Status : string;
  DisbursementDate : string;
  RepaymentDue : float;
  RemainingBalance : float;
  Collateral : string;
  Defaulted : bool;
  AuditHistory : list string;
  CreatedAt : string;
  DueDate : string
}.

Record TokenBalance := mkTokenBalance {
  Account : string;
  Balance : float
}.

(** Go's zero values: what [var loan Loan] and [var balance TokenBalance]
    hold before [json.Unmarshal] fills in the fields it finds. *)
Definition zeroLoan : Loan :=
  mkLoan "" "" "" 0%float 0%float 0 "" "" 0%float 0%float "" false [] "" "".

Definition zeroTokenBalance : TokenBalance := mkTokenBalance "" 0%float.

(** Field assignments [loan.F = v]. *)
Definition set_LenderID (v : string) (l : Loan) : Loan :=
  mkLoan (LoanID l) (BorrowerID l) v (Amount l) (InterestRate l) (Duration l)
    (Status l) (DisbursementDate l) (RepaymentDue l) (RemainingBalance l)
    (Collateral l) (Defaulted l) (AuditHistory l) (CreatedAt l) (DueDate l).

Definition set_Status (v : string) (l : Loan) : Loan :=
  mkLoan (LoanID l) (BorrowerID l) (LenderID l) (Amount l) (InterestRate l)
    (Duration l) v (DisbursementDate l) (RepaymentDue l) (RemainingBalance l)
    (Collateral l) (Defaulted l) (AuditHistory l) (CreatedAt l) (DueDate l).

Definition set_DisbursementDate (v : string) (l : Loan) : Loan :=
  mkLoan (LoanID l) (BorrowerID l) (LenderID l) (Amount l) (InterestRate l)
    (Duration l) (Status l) v (RepaymentDue l) (RemainingBalance l)
    (Collateral l) (Defaulted l) (AuditHistory l) (CreatedAt l) (DueDate l).

Definition set_RemainingBalance (v : float) (l : Loan) : Loan :=
  mkLoan (LoanID l) (BorrowerID l) (LenderID l) (Amount l) (InterestRate l)
    (Duration l) (Status l) (DisbursementDate l) (RepaymentDue l) v
    (Collateral l) (Defaulted l) (AuditHistory l) (CreatedAt l) (DueDate l).

Definition set_Collateral (v : string) (l : Loan) : Loan :=
  mkLoan (LoanID l) (BorrowerID l) (LenderID l) (Amount l) (InterestRate l)
    (Duration l) (Status l) (DisbursementDate l) (RepaymentDue l)
    (RemainingBalance l) v (Defaulted l) (AuditHistory l) (CreatedAt l)
    (DueDate l).

Definition set_Defaulted (v : bool) (l : Loan) : Loan :=
  mkLoan (LoanID l) (BorrowerID l) (LenderID l) (Amount l) (InterestRate l)
    (Duration l) (Status l) (DisbursementDate l) (RepaymentDue l)
    (RemainingBalance l) (Collateral l) v (AuditHistory l) (CreatedAt l)
    (DueDate l).

(** [loan.AuditHistory = append(loan.AuditHistory, entry)]. *)
Definition append_Audit (entry : string) (l : Loan) : Loan :=
  mkLoan (LoanID l) (BorrowerID l) (LenderID l) (Amount l) (InterestRate l)
    (Duration l) (Status l) (DisbursementDate l) (RepaymentDue l)
    (RemainingBalance l) (Collateral l) (Defaulted l)
    (AuditHistory l ++ [entry]) (CreatedAt l) (DueDate l).

(** ** Errors

    The code builds its errors with [fmt.Errorf]; one constructor stands for
    each message format, with the values the message is built from. *)

Inductive error :=
  | ErrLoanExists (loanID : string)
      (* "loan %s already exists" *)
  | ErrLoanMissing (loanID : string)
      (* "loan %s does not exist" *)
  | ErrCannotApprove (loanID status : string)
      (* "loan %s cannot be approved in current status: %s" *)
  | ErrCannotDisburse (loanID status : string)
      (* "loan %s cannot be disbursed in current status: %s" *)
  | ErrCannotRepay (loanID status : string)
      (* "loan %s cannot be repaid in current status: %s" *)
  | ErrCannotDefault (loanID status : string)
      (* "loan %s cannot be defaulted in current status: %s" *)
  | ErrLenderFunds (lenderID : string)
      (* "lender %s has insufficient funds" *)
  | ErrRepayExceeds
      (* "repayment amount exceeds remaining balance" *)
  | ErrAccountMissing (account : string)
      (* "account %s does not exist" *)
  | ErrInsufficientFunds (account : string)
      (* "insufficient funds in account %s" *)
  | ErrJSON
      (* an error of encoding/json *).

#[global] Instance error_eq_dec : EqDecision error.
Proof. solve_decision. Defined.

(** The error taxonomy of the specification (section 7), as a classification
    of the messages above. *)
Inductive ErrorKind :=
  | NotFound
  | AlreadyExists
  | InvalidStateTransition
  | InsufficientFunds
  | InvalidAmount
  | SerializationError
  | StorageError.

Definition kind (e : error) : ErrorKind :=
  match e with
  | ErrLoanExists _ => AlreadyExists
  | ErrLoanMissing _ => NotFound
  | ErrCannotApprove _ _ => InvalidStateTransition
  | ErrCannotDisburse _ _ => InvalidStateTransition
  | ErrCannotRepay _ _ => InvalidStateTransition
  | ErrCannotDefault _ _ => InvalidStateTransition
  | ErrLenderFunds _ => InsufficientFunds
  | ErrRepayExceeds => InvalidAmount
  | ErrAccountMissing _ => NotFound
  | ErrInsufficientFunds _ => InsufficientFunds
  | ErrJSON => SerializationError
  end.

Inductive result (A : Type) :=
  | Ok (a : A)
  | Err (e : error).
Arguments Ok {A} a.
Arguments Err {A} e.

(** ** The JSON codec

    The world state holds the documents this chaincode writes: an encoded
    [Loan] or an encoded [TokenBalance].  The two records share no field
    name, so decoding one as the other finds no field and leaves the zero
    value. *)

Inductive document :=
  | DocLoan (l : Loan)
  | DocBalance (b : TokenBalance).

Definition finiteLoan (l : Loan) : bool :=
  is_finite (Amount l) && is_finite (InterestRate l)
  && is_finite (RepaymentDue l) && is_finite (RemainingBalance l).

Definition MarshalLoan (l : Loan) : result document :=
  if finiteLoan l then Ok (DocLoan l) else Err ErrJSON.

Definition MarshalBalance (b : TokenBalance) : result document :=
  if is_finite (Balance b) then Ok (DocBalance b) else Err ErrJSON.

Definition UnmarshalLoan (d : document) : result Loan :=
  match d with
  | DocLoan l => if finiteLoan l then Ok l else Err ErrJSON
  | DocBalance _ => Ok zeroLoan
  end.

Definition UnmarshalBalance (d : document) : result TokenBalance :=
  match d with
  | DocBalance b => if is_finite (Balance b) then Ok b else Err ErrJSON
  | DocLoan _ => Ok zeroTokenBalance
  end.

(** ** The transaction context

    [state] is the committed world state the transaction reads, [writeSet]
    the writes it has issued so far; [TxID] and [TxTimestamp] (seconds) are
    what [GetTxID] and [GetTxTimestamp] return. *)

Record Stub := mkStub {
  state : gmap string document;
  writeSet : gmap string document;
  TxID : string;
  TxTimestamp : Z
}.

(** A chaincode function: it may issue writes and then fail, so the stub
    is threaded through errors too. *)
Definition Tx (A : Type) : Type := Stub -> result A * Stub.

Definition ret {A} (a : A) : Tx A := fun s => (Ok a, s).

Definition throw {A} (e : error) : Tx A := fun s => (Err e, s).

Definition bind {A B} (m : Tx A) (k : A -> Tx B) : Tx B :=
  fun s =>
    match m s with
    | (Ok a, s') => k a s'
    | (Err e, s') => (Err e, s')
    end.

Notation "x <- m ;; k" := (bind m (fun x => k))
  (at level 100, m at next level, right associativity).

(** [json.Marshal] and [json.Unmarshal] followed by [if err != nil]. *)
Definition lift {A} (r : result A) : Tx A := fun s => (r, s).

Definition GetState (key : string) : Tx (option document) :=
  fun s => (Ok (state s !! key), s).

Definition PutState (key : string) (d : document) : Tx unit :=
  fun s => (Ok tt, mkStub (state s) (<[key := d]> (writeSet s)) (TxID s) (TxTimestamp s)).

Definition GetTxID : Tx string := fun s => (Ok (TxID s), s).

Definition GetTxTimestamp : Tx Z := fun s => (Ok (TxTimestamp s), s).

(** What the host does with an invocation: it runs it on the committed
    state with an empty write set, and commits the write set only when the
    function returns no error. *)
Definition commit (s : Stub) : gmap string document := writeSet s ∪ state s.

Definition invoke (f : Tx unit) (txid : string) (ts : Z)
    (w : gmap string document) : result unit * gmap string document :=
  match f (mkStub w ∅ txid ts) with
  | (Ok tt, s') => (Ok tt, commit s')
  | (Err e, _) => (Err e, w)
  end.

(** ** Formatting done by Go's standard library

    [fmt.Sprintf("%f", x)] and
    [time.Unix(sec, 0).AddDate(0, months, 0).Format(time.RFC3339)] (which
    depends on the peer's time zone) are taken as given. *)
Class GoRuntime := {
  Sprint_f : float -> string;
  FormatDueDate : Z -> Z -> string
}.

(** ** The chaincode (lendingChaincode.go, lines 39-425) *)

Section Chaincode.
Context {runtime : GoRuntime}.

Fixpoint putBalances (balances : list TokenBalance) : Tx unit :=
  match balances with
  | [] => ret tt
  | balance :: rest =>
      balanceJSON <- lift (MarshalBalance balance) ;;
      _ <- PutState (Account balance) balanceJSON ;;
      putBalances rest
  end.

Definition InitLedger : Tx unit :=
  putBalances
    [ mkTokenBalance "RBI" 1000000%float;
      mkTokenBalance "HDFC" 500000%float;
      mkTokenBalance "SBI" 500000%float ].

Definition LoanExists (loanID : string) : Tx bool :=
  loanJSON <- GetState loanID ;;
  ret (match loanJSON with Some _ => true | None => false end).

Definition GetLoan (loanID : string) : Tx Loan :=
  loanJSON <- GetState loanID ;;
  match loanJSON with
  | None => throw (ErrLoanMissing loanID)
  | Some d => lift (UnmarshalLoan d)
  end.

Definition RequestLoan (loanID borrowerID : string) (amount interestRate : float)
    (duration : Z) (collateral : string) : Tx unit :=
  exists_ <- LoanExists loanID ;;
  if (exists_ : bool) then throw (ErrLoanExists loanID)
  else
    txTime <- GetTxTimestamp ;;
    txid <- GetTxID ;;
    let dueDate := FormatDueDate txTime duration in
    let loan :=
      {| LoanID := loanID;
         BorrowerID := borrowerID;
         LenderID := "";
         Amount := amount;
         InterestRate := interestRate;
         Duration := duration;
         Status := "PENDING";
         DisbursementDate := "";
         RepaymentDue := (amount * (1 + interestRate / 100))%float;
         RemainingBalance := (amount * (1 + interestRate / 100))%float;
         Collateral := collateral;
         Defaulted := false;
         AuditHistory :=
           [ "Loan requested by " +:+ borrowerID +:+ " (TxID: " +:+ txid +:+ ")" ];
         CreatedAt := pretty txTime;
         DueDate := dueDate |} in
    loanJSON <- lift (MarshalLoan loan) ;;
    PutState loanID loanJSON.

Definition GetBalance (account : string) : Tx float :=
  balanceJSON <- GetState account ;;
  match balanceJSON with
  | None => throw (ErrAccountMissing account)
  | Some d =>
      balance <- lift (UnmarshalBalance d) ;;
      ret (Balance balance)
  end.

Definition UpdateBalance (account : string) (newBalance : float) : Tx unit :=
  let balance := {| Account := account; Balance := newBalance |} in
  balanceJSON <- lift (MarshalBalance balance) ;;
  PutState account balanceJSON.

(** The recipient's balance as [TransferTokens] reads it: an error of
    [GetBalance] whose message is "account <to> does not exist" is replaced
    by the balance 0, any other error is returned. *)
Definition recipientBalance (to : string) : Tx float :=
  fun s =>
    match GetBalance to s with
    | (Ok toBalance, s') => (Ok toBalance, s')
    | (Err err, s') =>
        if decide (err = ErrAccountMissing to) then (Ok 0%float, s')
        else (Err err, s')
    end.

Definition TransferTokens (from to : string) (amount : float) : Tx unit :=
  fromBalance <- GetBalance from ;;
  if (fromBalance <? amount)%float then throw (ErrInsufficientFunds from)
  else
    toBalance <- recipientBalance to ;;
    let fromBalance := (fromBalance - amount)%float in
    let toBalance := (toBalance + amount)%float in
    _ <- UpdateBalance from fromBalance ;;
    _ <- UpdateBalance to toBalance ;;
    ret tt.

Definition ApproveLoan (loanID lenderID : string) : Tx unit :=
  loan <- GetLoan loanID ;;
  if decide (Status loan <> "PENDING")
  then throw (ErrCannotApprove loanID (Status loan))
  else
    lenderBalance <- GetBalance lenderID ;;
    if (lenderBalance <? Amount loan)%float then throw (ErrLenderFunds lenderID)
    else
      txid <- GetTxID ;;
      let loan := set_LenderID lenderID loan in
      let loan := set_Status "APPROVED" loan in
      let loan :=
        append_Audit
          ("Loan approved by " +:+ lenderID +:+ " (TxID: " +:+ txid +:+ ")") loan in
      loanJSON <- lift (MarshalLoan loan) ;;
      PutState loanID loanJSON.

Definition DisburseLoan (loanID : string) : Tx unit :=
  loan <- GetLoan loanID ;;
  if decide (Status loan <> "APPROVED")
  then throw (ErrCannotDisburse loanID (Status loan))
  else
    _ <- TransferTokens (LenderID loan) (BorrowerID loan) (Amount loan) ;;
    let loan := set_Status "ACTIVE" loan in
    txTime <- GetTxTimestamp ;;
    let loan := set_DisbursementDate (pretty txTime) loan in
    txid <- GetTxID ;;
    let loan := append_Audit ("Loan disbursed (TxID: " +:+ txid +:+ ")") loan in
    loanJSON <- lift (MarshalLoan loan) ;;
    PutState loanID loanJSON.

Definition RepayLoan (loanID : string) (amount : float) : Tx unit :=
  loan <- GetLoan loanID ;;
  if decide (Status loan <> "ACTIVE")
  then throw (ErrCannotRepay loanID (Status loan))
  else
    (* amount > loan.RemainingBalance *)
    if (RemainingBalance loan <? amount)%float then throw ErrRepayExceeds
    else
      _ <- TransferTokens (BorrowerID loan) (LenderID loan) amount ;;
      let loan :=
        set_RemainingBalance (RemainingBalance loan - amount)%float loan in
      let loan :=
        if (RemainingBalance loan <=? 0)%float then set_Status "REPAID" loan
        else loan in
      txid <- GetTxID ;;
      let loan :=
        append_Audit
          ("Repayment of " +:+ Sprint_f amount +:+ " (TxID: " +:+ txid +:+ ")")
          loan in
      loanJSON <- lift (MarshalLoan loan) ;;
      PutState loanID loanJSON.

Definition MarkAsDefaulted (loanID : string) : Tx unit :=
  loan <- GetLoan loanID ;;
  if decide (Status loan <> "ACTIVE")
  then throw (ErrCannotDefault loanID (Status loan))
  else
    txid <- GetTxID ;;
    let loan := set_Status "DEFAULTED" loan in
    let loan := set_Defaulted true loan in
    let loan :=
      append_Audit ("Loan marked as defaulted (TxID: " +:+ txid +:+ ")") loan in
    loanJSON <- lift (MarshalLoan loan) ;;
    PutState loanID loanJSON.

Definition GetLoanHistory (loanID : string) : Tx (list string) :=
  loan <- GetLoan loanID ;;
  ret (AuditHistory loan).

Definition CheckLoanStatus (loanID : string) : Tx string :=
  loan <- GetLoan loanID ;;
  ret (Status loan).

Definition AddCollateral (loanID collateral : string) : Tx unit :=
  loan <- GetLoan loanID ;;
  txid <- GetTxID ;;
  let loan := set_Collateral collateral loan in
  let loan :=
    append_Audit
      ("Collateral added: " +:+ collateral +:+ " (TxID: " +:+ txid +:+ ")") loan in
  loanJSON <- lift (MarshalLoan loan) ;;
  PutState loanID loanJSON.

End Chaincode.

(** ** The loan operations of the contract facade

    The operations a client submits that create or update a loan record,
    each with the key of the loan it is invoked on. *)

Inductive operation :=
  | OpRequestLoan (loanID borrowerID : string) (amount interestRate : float)
      (duration : Z) (collateral : string)
  | OpApproveLoan (loanID lenderID : string)
  | OpDisburseLoan (loanID : string)
  | OpRepayLoan (loanID : string) (amount : float)
  | OpMarkAsDefaulted (loanID : string)
  | OpAddCollateral (loanID collateral : string).

Definition dispatch `{GoRuntime} (op : operation) : Tx unit :=
  match op with
  | OpRequestLoan loanID borrowerID amount interestRate duration collateral =>
      RequestLoan loanID borrowerID amount interestRate duration collateral
  | OpApproveLoan loanID lenderID => ApproveLoan loanID lenderID
  | OpDisburseLoan loanID => DisburseLoan loanID
  | OpRepayLoan loanID amount => RepayLoan loanID amount
  | OpMarkAsDefaulted loanID => MarkAsDefaulted loanID
  | OpAddCollateral loanID collateral => AddCollateral loanID collateral
  end.

Definition target (op : operation) : string :=
  match op with
  | OpRequestLoan loanID _ _ _ _ _ => loanID
  | OpApproveLoan loanID _ => loanID
  | OpDisburseLoan loanID => loanID
  | OpRepayLoan loanID _ => loanID
  | OpMarkAsDefaulted loanID => loanID
  | OpAddCollateral loanID _ => loanID
  end.

(** The status an operation requires of its loan, for the four operations
    that check one. *)
Definition required (op : operation) : option string :=
  match op with
  | OpApproveLoan _ _ => Some "PENDING"
  | OpDisburseLoan _ => Some "APPROVED"
  | OpRepayLoan _ _ => Some "ACTIVE"
  | OpMarkAsDefaulted _ => Some "ACTIVE"
  | OpRequestLoan _ _ _ _ _ _ | OpAddCollateral _ _ => None
  end.

(** The edges PENDING -> APPROVED -> ACTIVE -> REPAID | DEFAULTED. *)
Definition forward (s s' : string) : Prop :=
  (s = "PENDING" /\ s' = "APPROVED")
  \/ (s = "APPROVED" /\ s' = "ACTIVE")
  \/ (s = "ACTIVE" /\ s' = "REPAID")
  \/ (s = "ACTIVE" /\ s' = "DEFAULTED").

(** The amounts an operation is given are not negative. *)
Definition nonnegativeAmounts (op : operation) : bool :=
  match op with
  | OpRequestLoan _ _ amount interestRate _ _ =>
      (0 <=? amount)%float && (0 <=? interestRate)%float
  | OpRepayLoan _ amount => (0 <=? amount)%float
  | _ => true
  end.

(** ** Reading a world state

    What [GetBalance] and [GetLoan] return to a transaction that runs on
    the world state [w]. *)

Definition balanceIn (w : gmap string document) (account : string) : result float :=
  fst (GetBalance account (mkStub w ∅ "" 0)).

Definition loanIn (w : gmap string document) (loanID : string) : result Loan :=
  fst (GetLoan loanID (mkStub w ∅ "" 0)).

(** The stub after [PutState key d]. *)
Definition put (key : string) (d : document) (s : Stub) : Stub :=
  snd (PutState key d s).

Definition balances_nonneg (w : gmap string document) : Prop :=
  forall account b, balanceIn w account = Ok b -> (0 <=? b)%float = true.

(** The invariant of the specification on a loan record. *)
Definition balance_in_range (l : Loan) : Prop :=
  (0 <=? RemainingBalance l)%float = true
  /\ (RemainingBalance l <=? RepaymentDue l)%float = true.

(** ** Binary64 values as integers

    A finite binary64 number is [m * 2^e] with [emin <= e]; scaled by
    [2^(-emin)] it is an integer, and the order of finite floats is the
    order of these integers. *)

Definition SFnum (prec emax : Z) (x : spec_float) : Z :=
  match x with
  | S754_finite s m e => cond_Zopp s (Zpos m * 2 ^ (e - SpecFloat.emin prec emax))
  | _ => 0
  end.

Definition SFfin (x : spec_float) : bool :=
  match x with
  | S754_zero _ | S754_finite _ _ _ => true
  | _ => false
  end.

Definition SFnonneg (x : spec_float) : bool :=
  match x with
  | S754_zero _ => true
  | S754_finite s _ _ | S754_infinity s => negb s
  | S754_nan => false
  end.

(** A rounded result carries the sign that was asked for. *)
Definition SFsigned (s : bool) (z : spec_float) : Prop :=
  match z with
  | S754_zero s' | S754_finite s' _ _ | S754_infinity s' => s' = s
  | S754_nan => True
  end.

Definition F2Z (x : float) : Z := SFnum prec emax (Prim2SF x).

(** ** A runtime: a peer whose local time zone is UTC

    [%f] prints six decimals of the exact binary value, rounded half to
    even; [AddDate] adds the months to the calendar month and lets a day
    past the end of the month run into the next one. *)

Fixpoint zeros (n : nat) : string :=
  match n with
  | O => ""
  | S n' => "0" +:+ zeros n'
  end.

Definition padLeft (width : nat) (s : string) : string :=
  zeros (width - String.length s) +:+ s.

Definition roundHalfEven (num den : Z) : Z :=
  let q := num / den in
  let r := num mod den in
  if (den <? 2 * r) || ((den =? 2 * r) && Z.odd q) then q + 1 else q.

Definition sprint_f_SF (x : spec_float) : string :=
  match x with
  | S754_nan => "NaN"
  | S754_infinity s => if s then "-Inf" else "+Inf"
  | S754_zero s => if s then "-0.000000" else "0.000000"
  | S754_finite s m e =>
      let micro :=
        if 0 <=? e then Zpos m * 2 ^ e * 1000000
        else roundHalfEven (Zpos m * 1000000) (2 ^ (- e)) in
      (if s then "-" else "") +:+ pretty (micro / 1000000) +:+ "."
      +:+ padLeft 6 (pretty (micro mod 1000000))
  end.

Definition daysFromCivil (y m d : Z) : Z :=
  let y := if m <=? 2 then y - 1 else y in
  let era := y / 400 in
  let yoe := y - era * 400 in
  let mp := (m + 9) mod 12 in
  let doy := (153 * mp + 2) / 5 + d - 1 in
  let doe := yoe * 365 + yoe / 4 - yoe / 100 + doy in
  era * 146097 + doe - 719468.

Definition civilFromDays (z : Z) : Z * Z * Z :=
  let z := z + 719468 in
  let era := z / 146097 in
  let doe := z - era * 146097 in
  let yoe := (doe - doe / 1460 + doe / 36524 - doe / 146096) / 365 in
  let doy := doe - (365 * yoe + yoe / 4 - yoe / 100) in
  let mp := (5 * doy + 2) / 153 in
  let d := doy - (153 * mp + 2) / 5 + 1 in
  let m := if mp <? 10 then mp + 3 else mp - 9 in
  let y := yoe + era * 400 in
  (if m <=? 2 then y + 1 else y, m, d).

Definition rfc3339_utc (sec : Z) : string :=
  let '(y, m, d) := civilFromDays (sec / 86400) in
  let tod := sec mod 86400 in
  padLeft 4 (pretty y) +:+ "-" +:+ padLeft 2 (pretty m) +:+ "-"
  +:+ padLeft 2 (pretty d) +:+ "T" +:+ padLeft 2 (pretty (tod / 3600)) +:+ ":"
  +:+ padLeft 2 (pretty (tod mod 3600 / 60)) +:+ ":"
  +:+ padLeft 2 (pretty (tod mod 60)) +:+ "Z".

Definition addMonths (sec months : Z) : Z :=
  let '(y, m, d) := civilFromDays (sec / 86400) in
  let total := y * 12 + (m - 1) + months in
  (daysFromCivil (total / 12) (total mod 12 + 1) 1 + (d - 1)) * 86400
  + sec mod 86400.

Definition utcRuntime : GoRuntime :=
  {| Sprint_f := fun x => sprint_f_SF (Prim2SF x);
     FormatDueDate := fun sec months => rfc3339_utc (addMonths sec months) |}.

(** ** The records the operations write

    The loan record each operation hands to [PutState], as a function of
    the record it read. *)

Definition requestedLoan `{GoRuntime} (loanID borrowerID : string)
    (amount interestRate : float) (duration : Z) (collateral : string)
    (txid : string) (txTime : Z) : Loan :=
  {| LoanID := loanID;
     BorrowerID := borrowerID;
     LenderID := "";
     Amount := amount;
     InterestRate := interestRate;
     Duration := duration;
     Status := "PENDING";
     DisbursementDate := "";
     RepaymentDue := (amount * (1 + interestRate / 100))%float;
     RemainingBalance := (amount * (1 + interestRate / 100))%float;
     Collateral := collateral;
     Defaulted := false;
     AuditHistory :=
       [ "Loan requested by " +:+ borrowerID +:+ " (TxID: " +:+ txid +:+ ")" ];
     CreatedAt := pretty txTime;
     DueDate := FormatDueDate txTime duration |}.

Definition approvedLoan (lenderID txid : string) (loan : Loan) : Loan :=
  append_Audit ("Loan approved by " +:+ lenderID +:+ " (TxID: " +:+ txid +:+ ")")
    (set_Status "APPROVED" (set_LenderID lenderID loan)).

Definition disbursedLoan (txid : string) (txTime : Z) (loan : Loan) : Loan :=
  append_Audit ("Loan disbursed (TxID: " +:+ txid +:+ ")")
    (set_DisbursementDate (pretty txTime) (set_Status "ACTIVE" loan)).

Definition repaidLoan `{GoRuntime} (amount : float) (txid : string) (loan : Loan) : Loan :=
  let remaining := (RemainingBalance loan - amount)%float in
  let loan := set_RemainingBalance remaining loan in
  let loan := if (remaining <=? 0)%float then set_Status "REPAID" loan else loan in
  append_Audit
    ("Repayment of " +:+ Sprint_f amount +:+ " (TxID: " +:+ txid +:+ ")") loan.

Definition defaultedLoan (txid : string) (loan : Loan) : Loan :=
  append_Audit ("Loan marked as defaulted (TxID: " +:+ txid +:+ ")")
    (set_Defaulted true (set_Status "DEFAULTED" loan)).

Definition collateralLoan (collateral txid : string) (loan : Loan) : Loan :=
  append_Audit
    ("Collateral added: " +:+ collateral +:+ " (TxID: " +:+ txid +:+ ")")
    (set_Collateral collateral loan).

(** The check behind [balances_nonneg], document by document. *)
Definition nonnegDoc (d : document) : bool :=
  match d with
  | DocBalance b => (0 <=? Balance b)%float
  | DocLoan _ => true
  end.

(** ** Sample ledgers

    The scenario of the specification (section 8): the initial ledger, then
    loan L1 requested by B1, approved by HDFC and disbursed. *)

Definition genesis : gmap string document :=
  snd (invoke InitLedger "tx0" 1700000000 ∅).

Definition requested : gmap string document :=
  snd (invoke (@RequestLoan utcRuntime "L1" "B1" 1000 10 12 "car")
         "tx1" 1700000060 genesis).

Definition approved : gmap string document :=
  snd (invoke (ApproveLoan "L1" "HDFC") "tx2" 1700000120 requested).

Definition active : gmap string document :=
  snd (invoke (DisburseLoan "L1") "tx3" 1700000180 approved).

(** The approved ledger after HDFC has moved all but 500 tokens to SBI. *)
Definition drained : gmap string document :=
  snd (invoke (TransferTokens "HDFC" "SBI" 499500) "tx2b" 1700000150 approved).

(** The record of loan L1 when requested and once disbursed. *)
Definition loanL1 : Loan :=
  @requestedLoan utcRuntime "L1" "B1" 1000 10 12 "car" "tx1" 1700000060.

Definition loanL1_active : Loan :=
  disbursedLoan "tx3" 1700000180 (approvedLoan "HDFC" "tx2" loanL1).


(** The active ledger after a second loan, L2, is requested for the
    borrower id "L1" (the key of the first loan) and approved by SBI. *)
Definition approvedOnLoanKey : gmap string document :=
  snd (invoke (ApproveLoan "L2" "SBI") "tx6" 1700000360
         (snd (invoke (@RequestLoan utcRuntime "L2" "L1" 5 10 12 "")
                 "tx5" 1700000300 active))).

(** The initial ledger after loan L3 of 2000 is requested by the existing
    account SBI and approved by HDFC. *)
Definition approvedL3 : gmap string document :=
  snd (invoke (ApproveLoan "L3" "HDFC") "tx2" 1700000120
         (snd (invoke (@RequestLoan utcRuntime "L3" "SBI" 2000 10 12 "")
                 "tx1" 1700000060 genesis))).

Definition loanL3 : Loan :=
  approvedLoan "HDFC" "tx2"
    (@requestedLoan utcRuntime "L3" "SBI" 2000 10 12 "" "tx1" 1700000060).

(** The initial ledger after loan LX is requested with its own key as the
    borrower id and approved by HDFC. *)
Definition approvedLX : gmap string document :=
  snd (invoke (ApproveLoan "LX" "HDFC") "tx2" 1700000120
         (snd (invoke (@RequestLoan utcRuntime "LX" "LX" 1000 10 12 "")
                 "tx1" 1700000060 genesis))).

(** ** The rest of the contract

    What the operations append to the audit history and leave under their
    key, the records [InitLedger] writes, further sample ledgers, and
    sequences of transactions. *)

(** The entry an operation appends to the audit history of its loan. *)
Definition auditEntry `{GoRuntime} (op : operation) (txid : string) : string :=
  match op with
  | OpRequestLoan _ borrowerID _ _ _ _ =>
      "Loan requested by " +:+ borrowerID +:+ " (TxID: " +:+ txid +:+ ")"
  | OpApproveLoan _ lenderID =>
      "Loan approved by " +:+ lenderID +:+ " (TxID: " +:+ txid +:+ ")"
  | OpDisburseLoan _ => "Loan disbursed (TxID: " +:+ txid +:+ ")"
  | OpRepayLoan _ amount =>
      "Repayment of " +:+ Sprint_f amount +:+ " (TxID: " +:+ txid +:+ ")"
  | OpMarkAsDefaulted _ => "Loan marked as defaulted (TxID: " +:+ txid +:+ ")"
  | OpAddCollateral _ collateral =>
      "Collateral added: " +:+ collateral +:+ " (TxID: " +:+ txid +:+ ")"
  end.

(** The three records [InitLedger] writes, on top of a world state. *)
Definition initialBalances (w : gmap string document) : gmap string document :=
  <["SBI" := DocBalance (mkTokenBalance "SBI" 500000)]>
    (<["HDFC" := DocBalance (mkTokenBalance "HDFC" 500000)]>
       (<["RBI" := DocBalance (mkTokenBalance "RBI" 1000000)]> w)).

(** The record a successful operation leaves under its key. *)
Definition written `{GoRuntime} (op : operation) (txid : string) (ts : Z)
    (before : result Loan) : option Loan :=
  match op, before with
  | OpRequestLoan loanID borrowerID amount interestRate duration collateral, _ =>
      Some (requestedLoan loanID borrowerID amount interestRate duration collateral
              txid ts)
  | OpApproveLoan _ lenderID, Ok loan => Some (approvedLoan lenderID txid loan)
  | OpDisburseLoan _, Ok loan => Some (disbursedLoan txid ts loan)
  | OpRepayLoan _ amount, Ok loan => Some (repaidLoan amount txid loan)
  | OpMarkAsDefaulted _, Ok loan => Some (defaultedLoan txid loan)
  | OpAddCollateral _ collateral, Ok loan => Some (collateralLoan collateral txid loan)
  | _, Err _ => None
  end.

(** The [defaulted] flag of a record says what its status says. *)
Definition defaulted_iff_status (l : Loan) : Prop :=
  Defaulted l = true <-> Status l = "DEFAULTED".

(** The active loan L1 once it is marked as defaulted. *)
Definition defaulted : gmap string document :=
  snd (invoke (MarkAsDefaulted "L1") "tx5" 1700000300 active).

(** Loan L1 (1000) and a second loan L2 (500000), both requested. *)
Definition requestedTwo : gmap string document :=
  snd (invoke (@RequestLoan utcRuntime "L2" "B2" 500000 5 6 "land")
         "tx1b" 1700000090 requested).

(** The record of loan L2 when requested. *)
Definition loanL2 : Loan :=
  @requestedLoan utcRuntime "L2" "B2" 500000 5 6 "land" "tx1b" 1700000090.

(** The transactions a sequence is made of: a loan operation, a transfer,
    or the initialisation of the ledger.  [UpdateBalance], which writes
    whatever balance it is given, is not among them. *)
Inductive call :=
  | CallLoan (op : operation)
  | CallTransfer (from to : string) (amount : float)
  | CallInitLedger.

(** The chaincode function a call invokes. *)
Definition perform `{GoRuntime} (c : call) : Tx unit :=
  match c with
  | CallLoan op => dispatch op
  | CallTransfer from to amount => TransferTokens from to amount
  | CallInitLedger => InitLedger
  end.

(** The amounts a call is given are not negative. *)
Definition nonnegativeCall (c : call) : bool :=
  match c with
  | CallLoan op => nonnegativeAmounts op
  | CallTransfer _ _ amount => (0 <=? amount)%float
  | CallInitLedger => true
  end.

(** The ledger after a sequence of transactions, each with its id and
    timestamp: a transaction that fails leaves the world state as it was. *)
Fixpoint run `{GoRuntime} (txs : list (call * string * Z))
    (w : gmap string document) : gmap string document :=
  match txs with
  | [] => w
  | (c, txid, ts) :: rest => run rest (snd (invoke (perform c) txid ts w))
  end.

(** No balance is negative, and every loan has a non-negative amount and a
    remaining balance between 0 and its repayment due. *)
Definition sound (w : gmap string document) : Prop :=
  balances_nonneg w
  /\ forall loanID loan,
       loanIn w loanID = Ok loan ->
       (0 <=? Amount loan)%float = true /\ balance_in_range loan.

(** * Facts

    ** Rounding in the binary formats of [SpecFloat]

    The lemmas below hold for every precision and exponent range; binary64
    is [prec = 53], [emax = 1024]. *)

Section SpecFloatFacts.
Variables prec emax : Z.
Hypothesis prec_pos : 0 < prec.

Abbreviation emin := (SpecFloat.emin prec emax).
Abbreviation fexp := (SpecFloat.fexp prec emax).
Abbreviation canonical := (canonical_mantissa prec emax).

Lemma digits2_size m : digits2_pos m = Pos.size m.
Proof. induction m; simpl; congruence. Qed.

Lemma digits2_log2 m : Zpos (digits2_pos m) = Z.log2 (Zpos m) + 1.
Proof. rewrite digits2_size. destruct m; simpl; lia. Qed.

Lemma digits2_bounds m :
  2 ^ (Zpos (digits2_pos m) - 1) <= Zpos m < 2 ^ Zpos (digits2_pos m).
Proof.
  rewrite digits2_log2.
  replace (Z.log2 (Z.pos m) + 1 - 1) with (Z.log2 (Z.pos m)) by lia.
  apply Z.log2_spec. lia.
Qed.

Lemma digits2_unique m q :
  2 ^ (q - 1) <= Zpos m < 2 ^ q -> Zpos (digits2_pos m) = q.
Proof.
  intros Hq. rewrite digits2_log2.
  assert (0 <= q - 1).
  { destruct (Z_lt_le_dec (q - 1) 0) as [Hn|]; [|lia].
    assert (q <= 0) by lia.
    assert (2 ^ q <= 2 ^ 0) by (destruct (Z_lt_le_dec q 0); [rewrite Z.pow_neg_r by lia; simpl; lia | apply Z.pow_le_mono_r; lia]).
    simpl in *. lia. }
  rewrite (Z.log2_unique (Zpos m) (q - 1)); try lia.
  replace (Z.succ (q - 1)) with q by lia. exact Hq.
Qed.

Lemma canonical_emin m e : canonical m e = true -> emin <= e.
Proof.
  unfold canonical_mantissa, SpecFloat.fexp. intros Hc.
  apply Z.eqb_eq in Hc. lia.
Qed.

Lemma canonical_digits_le m e :
  canonical m e = true -> Zpos (digits2_pos m) <= prec.
Proof.
  unfold canonical_mantissa, SpecFloat.fexp. intros Hc.
  apply Z.eqb_eq in Hc. lia.
Qed.

Lemma canonical_normal m e :
  canonical m e = true -> emin < e -> Zpos (digits2_pos m) = prec.
Proof.
  unfold canonical_mantissa, SpecFloat.fexp. intros Hc.
  apply Z.eqb_eq in Hc. lia.
Qed.

(** With canonical mantissas, a smaller exponent is a smaller magnitude. *)
Lemma canonical_lt_exp m1 e1 m2 e2 :
  canonical m1 e1 = true -> canonical m2 e2 = true -> e1 < e2 ->
  Zpos m1 * 2 ^ (e1 - emin) < Zpos m2 * 2 ^ (e2 - emin).
Proof.
  intros H1 H2 Hlt.
  pose proof (canonical_emin _ _ H1) as He1.
  pose proof (canonical_digits_le _ _ H1) as Hd1.
  pose proof (canonical_normal _ _ H2 ltac:(lia)) as Hd2.
  pose proof (digits2_bounds m1) as [_ Hm1].
  pose proof (digits2_bounds m2) as [Hm2 _].
  rewrite Hd2 in Hm2.
  assert (Hm1' : Zpos m1 < 2 ^ prec).
  { eapply Z.lt_le_trans; [exact Hm1|]. apply Z.pow_le_mono_r; lia. }
  assert (Hp2 : 2 ^ (e2 - emin) = 2 ^ (e2 - e1 - 1) * 2 * 2 ^ (e1 - emin)).
  { rewrite <- (Z.pow_1_r 2) at 3. rewrite <- !Z.pow_add_r by lia. f_equal. lia. }
  assert (Hpp : 2 ^ prec = 2 ^ (prec - 1) * 2).
  { rewrite <- (Z.pow_1_r 2) at 3. rewrite <- Z.pow_add_r by lia. f_equal. lia. }
  assert (0 < 2 ^ (e1 - emin)) by (apply Z.pow_pos_nonneg; lia).
  assert (0 < 2 ^ (e2 - e1 - 1)) by (apply Z.pow_pos_nonneg; lia).
  rewrite Hp2. nia.
Qed.

Lemma SFcompare_finite s1 m1 e1 s2 m2 e2 :
  canonical m1 e1 = true -> canonical m2 e2 = true ->
  SFcompare (S754_finite s1 m1 e1) (S754_finite s2 m2 e2)
  = Some (SFnum prec emax (S754_finite s1 m1 e1) ?= SFnum prec emax (S754_finite s2 m2 e2)).
Proof.
  intros H1 H2. unfold SFcompare, SFnum. f_equal.
  pose proof (canonical_emin _ _ H1) as He1.
  pose proof (canonical_emin _ _ H2) as He2.
  assert (Hq1 : 0 < 2 ^ (e1 - emin)) by (apply Z.pow_pos_nonneg; lia).
  assert (Hq2 : 0 < 2 ^ (e2 - emin)) by (apply Z.pow_pos_nonneg; lia).
  assert (Hcmp : (e1 ?= e2) = Lt -> Zpos m1 * 2 ^ (e1 - emin) < Zpos m2 * 2 ^ (e2 - emin)).
  { intros Hc. apply canonical_lt_exp; auto. }
  assert (Hcmp' : (e1 ?= e2) = Gt -> Zpos m2 * 2 ^ (e2 - emin) < Zpos m1 * 2 ^ (e1 - emin)).
  { intros Hc. apply Z.compare_gt_iff in Hc. apply canonical_lt_exp; auto. }
  assert (Hcmpe : (e1 ?= e2) = Eq ->
     (Pos.compare_cont Eq m1 m2) = (Zpos m1 * 2 ^ (e1 - emin) ?= Zpos m2 * 2 ^ (e2 - emin))).
  { intros Hc. apply Z.compare_eq in Hc. subst e2.
    change (Pos.compare_cont Eq m1 m2) with (Zpos m1 ?= Zpos m2).
    destruct (Z.compare_spec (Zpos m1) (Zpos m2)) as [Heq|Hl|Hg]; symmetry;
      [apply Z.compare_eq_iff; congruence
      |apply Z.compare_lt_iff; nia|apply Z.compare_gt_iff; nia]. }
  assert (0 < Zpos m1 * 2 ^ (e1 - emin)) by (apply Z.mul_pos_pos; lia).
  assert (0 < Zpos m2 * 2 ^ (e2 - emin)) by (apply Z.mul_pos_pos; lia).
  destruct s1, s2; cbv [cond_Zopp].
  - (* both negative *)
    rewrite Z.compare_opp.
    destruct (e1 ?= e2) eqn:Hc.
    + rewrite (Hcmpe eq_refl). symmetry. apply Z.compare_antisym.
    + symmetry. apply Z.compare_gt_iff. auto.
    + symmetry. apply Z.compare_lt_iff. auto.
  - symmetry. apply Z.compare_lt_iff. lia.
  - symmetry. apply Z.compare_gt_iff. lia.
  - destruct (e1 ?= e2) eqn:Hc.
    + auto.
    + symmetry. apply Z.compare_lt_iff. auto.
    + symmetry. apply Z.compare_gt_iff. auto.
Qed.


(** Shifts *)

Lemma iter_pos_iter {A} (f : A -> A) p x : SpecFloat.iter_pos f p x = Pos.iter f x p.
Proof.
  revert x. induction p as [p IH|p IH|]; intros x; simpl.
  - rewrite !IH. rewrite <- !Pos.iter_swap. reflexivity.
  - rewrite !IH. reflexivity.
  - reflexivity.
Qed.

Lemma iter_xO m k : Zpos (Pos.iter xO m k) = Zpos m * 2 ^ Zpos k.
Proof.
  induction k as [|k IH] using Pos.peano_ind.
  - simpl. lia.
  - rewrite Pos.iter_succ, Pos2Z.inj_xO, IH, Pos2Z.inj_succ, Z.pow_succ_r by lia. lia.
Qed.

Lemma shl_align_fst m e e' :
  e' <= e -> Zpos (fst (shl_align m e e')) = Zpos m * 2 ^ (e - e').
Proof.
  intros Hle. unfold shl_align.
  destruct (e' - e) as [|k|k] eqn:Hk; try lia.
  - replace (e - e') with 0 by lia. rewrite Z.pow_0_r, Z.mul_1_r. reflexivity.
  - cbn [fst]. rewrite iter_xO. f_equal. f_equal. lia.
Qed.

Lemma shl_align_snd m e e' :
  e' <= e -> snd (shl_align m e e') = e'.
Proof.
  intros Hle. unfold shl_align.
  destruct (e' - e) as [|k|k] eqn:Hk; simpl; lia.
Qed.

Lemma shr_1_m mrs : 0 <= shr_m mrs -> shr_m (shr_1 mrs) = shr_m mrs / 2.
Proof.
  destruct mrs as [m r s]. cbn [shr_m]. intros Hm.
  destruct m as [|[p|p|]|p]; cbn [shr_1 shr_m]; try lia; try reflexivity.
  - rewrite Pos2Z.inj_xI. apply Z.div_unique with 1; lia.
  - rewrite Pos2Z.inj_xO. apply Z.div_unique with 0; lia.
Qed.

Lemma shr_1_exact mrs :
  0 <= shr_m mrs ->
  (shr_r (shr_1 mrs) || shr_s (shr_1 mrs) = false
   <-> (shr_m mrs mod 2 = 0 /\ shr_r mrs || shr_s mrs = false))%bool.
Proof.
  destruct mrs as [m r s]. cbn [shr_m shr_r shr_s]. intros Hm.
  destruct m as [|[p|p|]|p]; cbn [shr_1 shr_m shr_r shr_s]; try lia.
  - change (0 mod 2) with 0. destruct r, s; simpl; intuition congruence.
  - rewrite Pos2Z.inj_xI.
    assert ((2 * Z.pos p + 1) mod 2 = 1) by (symmetry; apply Z.mod_unique with (Z.pos p); lia).
    destruct r, s; simpl; intuition (try congruence; try lia).
  - rewrite Pos2Z.inj_xO.
    assert ((2 * Z.pos p) mod 2 = 0) by (symmetry; apply Z.mod_unique with (Z.pos p); lia).
    destruct r, s; simpl; intuition (try congruence; try lia).
  - change (1 mod 2) with 1. destruct r, s; simpl; intuition (try congruence; try lia).
Qed.

Lemma shr_iter M n :
  0 <= M ->
  let mrs := Pos.iter shr_1 (Build_shr_record M false false) n in
  shr_m mrs = M / 2 ^ Zpos n
  /\ (shr_r mrs || shr_s mrs = false <-> M mod 2 ^ Zpos n = 0)%bool.
Proof.
  intros HM. induction n as [|n IH] using Pos.peano_ind.
  - cbv zeta. change (Pos.iter shr_1 {| shr_m := M; shr_r := false; shr_s := false |} 1)
      with (shr_1 {| shr_m := M; shr_r := false; shr_s := false |}).
    split.
    + rewrite shr_1_m by (simpl; lia). reflexivity.
    + rewrite shr_1_exact by (simpl; lia). simpl. change (2 ^ 1) with 2. intuition.
  - cbv zeta in *. rewrite Pos.iter_succ.
    destruct IH as [IHm IHx].
    set (mrs := Pos.iter shr_1 {| shr_m := M; shr_r := false; shr_s := false |} n) in *.
    assert (Hpos : 0 < 2 ^ Z.pos n) by (apply Z.pow_pos_nonneg; lia).
    assert (Hm0 : 0 <= shr_m mrs).
    { rewrite IHm. apply Z.div_pos; lia. }
    rewrite Pos2Z.inj_succ, Z.pow_succ_r by lia.
    split.
    + rewrite shr_1_m by exact Hm0. rewrite IHm.
      rewrite Z.div_div by lia. f_equal. lia.
    + rewrite shr_1_exact by exact Hm0. rewrite IHx, IHm.
      rewrite (Z.mul_comm 2), Z.rem_mul_r by lia.
      pose proof (Z.mod_pos_bound M (2 ^ Z.pos n) Hpos).
      pose proof (Z.mod_pos_bound (M / 2 ^ Z.pos n) 2 ltac:(lia)).
      split; [intros [? ?]|intros ?]; nia.
Qed.

Lemma round_nearest_even_bounds mrs :
  let m2 := round_nearest_even (shr_m mrs) (loc_of_shr_record mrs) in
  shr_m mrs <= m2 <= shr_m mrs + 1
  /\ ((shr_r mrs || shr_s mrs)%bool = false -> m2 = shr_m mrs).
Proof.
  destruct mrs as [m [|] [|]]; simpl; try destruct (Z.even m); split; try lia; try discriminate; auto.
Qed.


Lemma pow2_pos k : 0 <= k -> 0 < 2 ^ k.
Proof. intros. apply Z.pow_pos_nonneg; lia. Qed.

Lemma pow2_add a b : 0 <= a -> 0 <= b -> 2 ^ (a + b) = 2 ^ a * 2 ^ b.
Proof. intros. apply Z.pow_add_r; lia. Qed.

Lemma digits2_shift m k mz :
  0 <= k -> Zpos mz = Zpos m * 2 ^ k ->
  Zpos (digits2_pos mz) = Zpos (digits2_pos m) + k.
Proof.
  intros Hk Hmz. rewrite !digits2_log2, Hmz.
  rewrite Z.log2_mul_pow2 by lia. lia.
Qed.

Lemma shr_fexp_canonical mz ez :
  canonical mz ez = true ->
  shr_fexp prec emax (Zpos mz) ez loc_Exact
  = (Build_shr_record (Zpos mz) false false, ez).
Proof.
  unfold shr_fexp, canonical_mantissa. intros Hc. apply Z.eqb_eq in Hc.
  cbn [Zdigits2 shr_record_of_loc]. rewrite Hc, Z.sub_diag. reflexivity.
Qed.

Lemma binary_round_aux_canonical s mz ez :
  canonical mz ez = true ->
  binary_round_aux prec emax s (Zpos mz) ez loc_Exact
  = if ez <=? emax - prec then S754_finite s mz ez else S754_infinity s.
Proof.
  intros Hc. unfold binary_round_aux. rewrite shr_fexp_canonical by auto.
  cbn [shr_m loc_of_shr_record round_nearest_even].
  rewrite shr_fexp_canonical by auto. reflexivity.
Qed.

Lemma binary_round_aux_inexact s D e :
  emin <= e -> e < fexp (Zpos (digits2_pos D) + e) ->
  let n := Zpos (digits2_pos D) - prec in
  exists m2 m' e',
    (Zpos D / 2 ^ n <= m2 <= Zpos D / 2 ^ n + 1)
    /\ (Zpos D mod 2 ^ n = 0 -> m2 = Zpos D / 2 ^ n)
    /\ canonical m' e' = true
    /\ Zpos m' * 2 ^ (e' - emin) = m2 * 2 ^ (e + n - emin)
    /\ binary_round_aux prec emax s (Zpos D) e loc_Exact
       = if e' <=? emax - prec then S754_finite s m' e' else S754_infinity s.
Proof.
  intros He Hlt n.
  set (d := Zpos (digits2_pos D)) in *.
  assert (HE : fexp (d + e) = e + n) by (unfold SpecFloat.fexp in *; lia).
  assert (Hn : 0 < n) by (unfold SpecFloat.fexp in *; lia).
  destruct n as [|pn|pn] eqn:Hpn; try lia.
  rewrite <- Hpn in *.
  pose proof (digits2_bounds D) as [HDl HDu]. fold d in HDl, HDu.
  pose proof (pow2_pos n ltac:(lia)) as H2n.
  (* the first shift *)
  pose proof (shr_iter (Zpos D) pn ltac:(lia)) as Hsh. cbv zeta in Hsh.
  set (mrs := Pos.iter shr_1 {| shr_m := Z.pos D; shr_r := false; shr_s := false |} pn) in *.
  rewrite <- Hpn in Hsh. destruct Hsh as [Hm1 Hex].
  assert (Hm1l : 2 ^ (prec - 1) <= shr_m mrs).
  { rewrite Hm1. apply Z.div_le_lower_bound; [lia|].
    rewrite <- pow2_add by lia. replace (n + (prec - 1)) with (d - 1) by lia. exact HDl. }
  assert (Hm1u : shr_m mrs < 2 ^ prec).
  { rewrite Hm1. apply Z.div_lt_upper_bound; [lia|].
    rewrite <- pow2_add by lia. replace (n + prec) with d by lia. exact HDu. }
  pose proof (round_nearest_even_bounds mrs) as Hrne. cbv zeta in Hrne.
  set (m2 := round_nearest_even (shr_m mrs) (loc_of_shr_record mrs)) in *.
  destruct Hrne as [Hm2 Hm2x].
  assert (Hfirst : shr_fexp prec emax (Zpos D) e loc_Exact = (mrs, e + n)).
  { unfold shr_fexp. cbn [Zdigits2 shr_record_of_loc]. fold d. rewrite HE.
    replace (e + n - e) with n by lia. rewrite Hpn. unfold shr.
    rewrite iter_pos_iter. reflexivity. }
  pose proof (pow2_pos (prec - 1) ltac:(lia)) as H2p.
  assert (Hpp : 2 ^ prec = 2 * 2 ^ (prec - 1)).
  { replace prec with (1 + (prec - 1)) at 1 by lia. rewrite pow2_add by lia. reflexivity. }
  destruct m2 as [|q2|q2] eqn:Hq2; try lia. rewrite <- Hq2 in *.
  exists m2.
  destruct (Z_lt_le_dec m2 (2 ^ prec)) as [Hsmall|Hbig].
  - (* no carry *)
    assert (Hdig : Zpos (digits2_pos q2) = prec).
    { apply digits2_unique. rewrite <- Hq2. lia. }
    assert (Hcan : canonical q2 (e + n) = true).
    { unfold canonical_mantissa. apply Z.eqb_eq. rewrite Hdig.
      unfold SpecFloat.fexp in *. lia. }
    exists q2, (e + n). repeat split; try lia.
    + intros Hx. rewrite <- Hm1. apply Hm2x. apply Hex. exact Hx.
    + exact Hcan.
    + unfold binary_round_aux. rewrite Hfirst. fold m2. rewrite Hq2.
      rewrite shr_fexp_canonical by exact Hcan. reflexivity.
  - (* the rounded mantissa is 2^prec: one more shift *)
    assert (Hm2eq : m2 = 2 ^ prec) by lia.
    assert (Hdig : Zpos (digits2_pos q2) = prec + 1).
    { apply digits2_unique. rewrite <- Hq2, Hm2eq.
      replace (prec + 1 - 1) with prec by lia. split; [lia|].
      rewrite pow2_add by lia. change (2 ^ 1) with 2. pose proof (pow2_pos prec); lia. }
    assert (Hhalf : exists q', Zpos q' = 2 ^ (prec - 1)).
    { destruct (2 ^ (prec - 1)) as [|q'|q'] eqn:Hq'; try lia. eauto. }
    destruct Hhalf as [q' Hq'].
    assert (Hdig' : Zpos (digits2_pos q') = prec).
    { apply digits2_unique. rewrite Hq'. lia. }
    assert (Hcan : canonical q' (e + n + 1) = true).
    { unfold canonical_mantissa. apply Z.eqb_eq. rewrite Hdig'.
      unfold SpecFloat.fexp in *. lia. }
    exists q', (e + n + 1). repeat split; try lia.
    + intros Hx. rewrite <- Hm1. apply Hm2x. apply Hex. exact Hx.
    + exact Hcan.
    + rewrite Hq', Hm2eq, Hpp.
      replace (e + n + 1 - emin) with (1 + (e + n - emin)) by lia.
      rewrite pow2_add by lia. change (2 ^ 1) with 2. lia.
    + unfold binary_round_aux. rewrite Hfirst. fold m2. rewrite Hq2.
      unfold shr_fexp. cbn [Zdigits2 shr_record_of_loc]. rewrite Hdig.
      replace (fexp (prec + 1 + (e + n)) - (e + n)) with 1
        by (unfold SpecFloat.fexp in *; lia).
      unfold shr. cbn [SpecFloat.iter_pos].
      assert (Hs1 : shr_m (shr_1 {| shr_m := Z.pos q2; shr_r := false; shr_s := false |}) = Zpos q').
      { rewrite shr_1_m by (simpl; lia). cbn [shr_m]. rewrite <- Hq2, Hm2eq, Hpp, Hq'.
        rewrite Z.mul_comm, Z.div_mul by lia. reflexivity. }
      rewrite Hs1. reflexivity.
Qed.


(** Rounding a positive integer mantissa: the result is a canonical float
    that stays below every canonical float above the exact value. *)
Lemma binary_round_shape s D e :
  emin <= e ->
  exists m' e',
    canonical m' e' = true
    /\ binary_round prec emax s D e
       = (if e' <=? emax - prec then S754_finite s m' e' else S754_infinity s)
    /\ (forall mR eR, canonical mR eR = true ->
          Zpos D * 2 ^ (e - emin) <= Zpos mR * 2 ^ (eR - emin) ->
          Zpos m' * 2 ^ (e' - emin) <= Zpos mR * 2 ^ (eR - emin)).
Proof.
  intros He. unfold binary_round.
  set (d := Zpos (digits2_pos D)).
  assert (HEmin : emin <= fexp (d + e)) by (unfold SpecFloat.fexp; lia).
  destruct (Z_le_gt_dec (fexp (d + e)) e) as [Hle|Hgt].
  - (* the mantissa fits: the result is exact *)
    pose proof (shl_align_fst D e _ Hle) as Hfst.
    pose proof (shl_align_snd D e _ Hle) as Hsnd.
    destruct (shl_align D e (fexp (d + e))) as [mz ez]. cbn [fst snd] in *. subst ez.
    assert (Hcan : canonical mz (fexp (d + e)) = true).
    { unfold canonical_mantissa. apply Z.eqb_eq.
      rewrite (digits2_shift D (e - fexp (d + e)) mz) by (lia || exact Hfst).
      fold d. f_equal. lia. }
    exists mz, (fexp (d + e)). split; [exact Hcan|]. split.
    + apply binary_round_aux_canonical. exact Hcan.
    + intros mR eR _ Hb. rewrite Hfst, <- Z.mul_assoc, <- pow2_add by lia.
      replace (e - fexp (d + e) + (fexp (d + e) - emin)) with (e - emin) by lia.
      exact Hb.
  - (* some low bits are rounded away *)
    assert (Hsh : shl_align D e (fexp (d + e)) = (D, e)).
    { unfold shl_align. destruct (fexp (d + e) - e) eqn:Hk; try reflexivity; lia. }
    rewrite Hsh.
    destruct (binary_round_aux_inexact s D e He ltac:(fold d; lia))
      as (m2 & m' & e' & Hm2 & Hm2x & Hcan & Hval & Hres).
    fold d in Hm2, Hm2x, Hval.
    set (n := d - prec) in *.
    assert (Hn : 0 < n) by (unfold SpecFloat.fexp in *; lia).
    exists m', e'. split; [exact Hcan|]. split; [exact Hres|].
    intros mR eR HcR Hb. rewrite Hval.
    pose proof (canonical_emin _ _ HcR) as HeR.
    pose proof (canonical_digits_le _ _ HcR) as HdR.
    pose proof (digits2_bounds mR) as [_ HmR].
    pose proof (digits2_bounds D) as [HDl _]. fold d in HDl.
    assert (HmR' : Zpos mR < 2 ^ prec).
    { eapply Z.lt_le_trans; [exact HmR|]. apply Z.pow_le_mono_r; lia. }
    pose proof (pow2_pos (e - emin) ltac:(lia)) as Hpe.
    pose proof (pow2_pos n ltac:(lia)) as Hpn.
    (* the bound lives in a binade at or above the result's *)
    assert (HE : e + n <= eR).
    { destruct (Z_le_gt_dec (e + n) eR) as [|Hc]; [lia|exfalso].
      assert (H1 : 2 ^ (eR - emin) <= 2 ^ (e + n - 1 - emin)) by (apply Z.pow_le_mono_r; lia).
      assert (H2 : 2 ^ prec * 2 ^ (e + n - 1 - emin) = 2 ^ (d - 1) * 2 ^ (e - emin)).
      { rewrite <- !pow2_add by lia. f_equal. lia. }
      pose proof (pow2_pos (eR - emin) ltac:(lia)).
      nia. }
    set (Q := Zpos mR * 2 ^ (eR - (e + n))).
    assert (HvR : Zpos mR * 2 ^ (eR - emin) = Q * 2 ^ (e + n - emin)).
    { unfold Q. rewrite <- Z.mul_assoc, <- pow2_add by lia. f_equal. f_equal. lia. }
    assert (Hsplit : 2 ^ (e + n - emin) = 2 ^ n * 2 ^ (e - emin)).
    { rewrite <- pow2_add by lia. f_equal. lia. }
    assert (HDQ : Zpos D <= Q * 2 ^ n).
    { rewrite HvR, Hsplit in Hb. nia. }
    assert (Hm2Q : m2 <= Q).
    { destruct (Z.eq_dec (Zpos D mod 2 ^ n) 0) as [Hz|Hnz].
      - rewrite (Hm2x Hz). apply Z.div_le_upper_bound; lia.
      - assert (Zpos D <> Q * 2 ^ n).
        { intros Heq. apply Hnz. rewrite Heq. apply Z.mod_mul. lia. }
        assert (Zpos D / 2 ^ n < Q) by (apply Z.div_lt_upper_bound; lia).
        lia. }
    rewrite HvR. apply Z.mul_le_mono_nonneg_r; [|exact Hm2Q].
    pose proof (pow2_pos (e + n - emin) ltac:(lia)). lia.
Qed.


Lemma SFnum_finite_nonzero s m e : emin <= e -> SFnum prec emax (S754_finite s m e) <> 0.
Proof.
  intros He. unfold SFnum. pose proof (pow2_pos (e - emin) ltac:(lia)).
  destruct s; cbv [cond_Zopp]; nia.
Qed.

Lemma SFcompare_num x y :
  SpecFloat.valid_binary prec emax x = true -> SpecFloat.valid_binary prec emax y = true ->
  SFfin x = true -> SFfin y = true ->
  SFcompare x y = Some (SFnum prec emax x ?= SFnum prec emax y).
Proof.
  destruct x as [sx|sx| |sx mx ex], y as [sy|sy| |sy my ey]; try discriminate;
    unfold SpecFloat.valid_binary, bounded; intros Hx Hy _ _.
  - reflexivity.
  - apply andb_prop in Hy as [Hc _]. pose proof (canonical_emin _ _ Hc) as He.
    pose proof (pow2_pos (ey - emin) ltac:(lia)).
    unfold SFcompare, SFnum. destruct sy; cbv [cond_Zopp]; f_equal; symmetry.
    + apply Z.compare_gt_iff. nia.
    + apply Z.compare_lt_iff. nia.
  - apply andb_prop in Hx as [Hc _]. pose proof (canonical_emin _ _ Hc) as He.
    pose proof (pow2_pos (ex - emin) ltac:(lia)).
    unfold SFcompare, SFnum. destruct sx; cbv [cond_Zopp]; f_equal; symmetry.
    + apply Z.compare_lt_iff. nia.
    + apply Z.compare_gt_iff. nia.
  - apply andb_prop in Hx as [Hcx _]. apply andb_prop in Hy as [Hcy _].
    apply SFcompare_finite; assumption.
Qed.

Lemma binary_round_aux_signed s m e l : SFsigned s (binary_round_aux prec emax s m e l).
Proof.
  unfold binary_round_aux.
  destruct (shr_fexp prec emax m e l) as [mrs' e'].
  destruct (shr_fexp prec emax _ e' loc_Exact) as [mrs'' e''].
  destruct (shr_m mrs''); cbn [SFsigned]; auto.
  destruct (e'' <=? emax - prec); cbn [SFsigned]; auto.
Qed.

Lemma binary_round_signed s m e : SFsigned s (binary_round prec emax s m e).
Proof.
  unfold binary_round. destruct (shl_align m e _) as [mz ez].
  apply binary_round_aux_signed.
Qed.

Lemma SFsigned_nonneg z : SFsigned false z -> z = S754_nan \/ SFnonneg z = true.
Proof. destruct z as [s|s| |s m e]; cbn; intros; subst; auto. Qed.

Lemma SFadd_nonneg x y :
  SFnonneg x = true -> SFnonneg y = true ->
  SFadd prec emax x y = S754_nan \/ SFnonneg (SFadd prec emax x y) = true.
Proof.
  destruct x as [sx|sx| |sx mx ex], y as [sy|sy| |sy my ey]; cbn [SFnonneg];
    intros Hx Hy; try discriminate;
    repeat match goal with H : negb ?b = true |- _ => destruct b; [discriminate|clear H] end;
    try (right; reflexivity).
  - right. destruct sx, sy; reflexivity.
  - apply SFsigned_nonneg. cbn [SFadd cond_Zopp]. rewrite <- Pos2Z.inj_add.
    apply binary_round_signed.
Qed.

Lemma SFmul_nonneg x y :
  SFnonneg x = true -> SFnonneg y = true ->
  SFmul prec emax x y = S754_nan \/ SFnonneg (SFmul prec emax x y) = true.
Proof.
  destruct x as [sx|sx| |sx mx ex], y as [sy|sy| |sy my ey]; cbn [SFnonneg];
    intros Hx Hy; try discriminate;
    repeat match goal with H : negb ?b = true |- _ => destruct b; [discriminate|clear H] end;
    try (right; reflexivity); try (left; reflexivity).
  apply SFsigned_nonneg. cbn [SFmul xorb]. apply binary_round_aux_signed.
Qed.

Lemma SFdiv_nonneg x my ey :
  SFnonneg x = true ->
  let y := S754_finite false my ey in
  SFdiv prec emax x y = S754_nan \/ SFnonneg (SFdiv prec emax x y) = true.
Proof.
  destruct x as [sx|sx| |sx mx ex]; cbn [SFnonneg];
    intros Hx; try discriminate;
    repeat match goal with H : negb ?b = true |- _ => destruct b; [discriminate|clear H] end;
    try (right; reflexivity); try (left; reflexivity).
  apply SFsigned_nonneg. cbn [SFdiv xorb].
  destruct (SFdiv_core_binary prec emax (Z.pos mx) ex (Z.pos my) ey) as [[mz ez] lz].
  apply binary_round_aux_signed.
Qed.

(** Subtracting a smaller non-negative float from a float: the difference
    is finite, non-negative and at most the minuend. *)
Lemma SFsub_nonneg_le x y :
  SpecFloat.valid_binary prec emax x = true -> SpecFloat.valid_binary prec emax y = true ->
  SFfin x = true -> SFfin y = true ->
  0 <= SFnum prec emax y <= SFnum prec emax x ->
  SFfin (SFsub prec emax x y) = true
  /\ 0 <= SFnum prec emax (SFsub prec emax x y) <= SFnum prec emax x.
Proof.
  destruct x as [sx|sx| |sx mx ex], y as [sy|sy| |sy my ey]; try discriminate;
    unfold SpecFloat.valid_binary, bounded; intros Hx Hy _ _ Hn.
  - destruct sx, sy; cbn; lia.
  - exfalso. apply andb_prop in Hy as [Hc _].
    apply (SFnum_finite_nonzero sy my ey (canonical_emin _ _ Hc)).
    cbn [SFnum] in Hn |- *. lia.
  - cbn [SFsub SFfin]. split; [reflexivity|]. lia.
  - apply andb_prop in Hx as [Hcx Hbx]. apply andb_prop in Hy as [Hcy Hby].
    apply Z.leb_le in Hbx.
    pose proof (canonical_emin _ _ Hcx) as Hex.
    pose proof (canonical_emin _ _ Hcy) as Hey.
    pose proof (pow2_pos (ex - emin) ltac:(lia)) as Hpx.
    pose proof (pow2_pos (ey - emin) ltac:(lia)) as Hpy.
    assert (sy = false) by (destruct sy; [cbn [SFnum cond_Zopp] in Hn; nia|reflexivity]).
    assert (sx = false) by (destruct sx; [cbn [SFnum cond_Zopp] in Hn; subst; cbv [cond_Zopp] in Hn; nia|reflexivity]).
    subst sx sy. cbn [SFnum cond_Zopp] in Hn |- *.
    cbn [SFsub cond_Zopp].
    set (ez := Z.min ex ey).
    rewrite (shl_align_fst mx ex ez) by (unfold ez; lia).
    rewrite (shl_align_fst my ey ez) by (unfold ez; lia).
    set (D := Z.pos mx * 2 ^ (ex - ez) - Z.pos my * 2 ^ (ey - ez)).
    assert (HD : D * 2 ^ (ez - emin)
                 = Z.pos mx * 2 ^ (ex - emin) - Z.pos my * 2 ^ (ey - emin)).
    { unfold D. rewrite Z.mul_sub_distr_r, <- !Z.mul_assoc, <- !pow2_add by (unfold ez; lia).
      f_equal; f_equal; f_equal; lia. }
    pose proof (pow2_pos (ez - emin) ltac:(unfold ez; lia)) as Hpz.
    destruct D as [|pD|pD] eqn:HDeq.
    + cbn [binary_normalize SFfin SFnum]. split; [reflexivity|]. lia.
    + cbn [binary_normalize].
      destruct (binary_round_shape false pD ez ltac:(unfold ez; lia))
        as (m' & e' & Hcan & Hres & Hmono).
      specialize (Hmono mx ex Hcx ltac:(lia)).
      assert (He' : e' <= ex).
      { destruct (Z_le_gt_dec e' ex) as [|Hgt]; [assumption|exfalso].
        pose proof (canonical_lt_exp mx ex m' e' Hcx Hcan ltac:(lia)). lia. }
      rewrite Hres.
      replace (e' <=? emax - prec) with true by (symmetry; apply Z.leb_le; lia).
      cbn [SFfin SFnum cond_Zopp]. split; [reflexivity|].
      pose proof (canonical_emin _ _ Hcan).
      pose proof (pow2_pos (e' - emin) ltac:(lia)). split; [nia|exact Hmono].
    + exfalso. nia.
Qed.

End SpecFloatFacts.

(** ** Binary64: the primitive floats *)

Lemma SFeqb_refl x : x <> S754_nan -> SFeqb x x = true.
Proof.
  destruct x as [s|s| |s m e]; intros Hn; try congruence; unfold SFeqb, SFcompare.
  - reflexivity.
  - destruct s; reflexivity.
  - rewrite Z.compare_refl.
    change (Pos.compare_cont Eq m m) with (Pos.compare m m).
    rewrite Pos.compare_refl. destruct s; reflexivity.
Qed.

Lemma is_finite_SF x : is_finite x = SFfin (Prim2SF x).
Proof.
  unfold is_finite, is_nan, is_infinity.
  rewrite !FloatAxioms.eqb_spec, FloatAxioms.abs_spec.
  change (Prim2SF infinity) with (S754_infinity false).
  destruct (Prim2SF x) as [s|s| |s m e] eqn:Hx; cbn [SFabs SFfin].
  - reflexivity.
  - destruct s; reflexivity.
  - reflexivity.
  - rewrite SFeqb_refl by discriminate. reflexivity.
Qed.

Lemma leb_zero_SF x : (0 <=? x)%float = SFnonneg (Prim2SF x).
Proof.
  rewrite FloatAxioms.leb_spec. change (Prim2SF 0%float) with (S754_zero false).
  destruct (Prim2SF x) as [s|s| |s m e]; try reflexivity; destruct s; reflexivity.
Qed.

Lemma leb_F2Z x y :
  is_finite x = true -> is_finite y = true ->
  (x <=? y)%float = (F2Z x <=? F2Z y).
Proof.
  rewrite !is_finite_SF, FloatAxioms.leb_spec. intros Hx Hy. unfold SFleb, F2Z.
  rewrite (SFcompare_num prec emax eq_refl _ _ (Prim2SF_valid x) (Prim2SF_valid y) Hx Hy).
  unfold Z.leb. destruct (_ ?= _); reflexivity.
Qed.

Lemma ltb_F2Z x y :
  is_finite x = true -> is_finite y = true ->
  (x <? y)%float = (F2Z x <? F2Z y).
Proof.
  rewrite !is_finite_SF, FloatAxioms.ltb_spec. intros Hx Hy. unfold SFltb, F2Z.
  rewrite (SFcompare_num prec emax eq_refl _ _ (Prim2SF_valid x) (Prim2SF_valid y) Hx Hy).
  unfold Z.ltb. destruct (_ ?= _); reflexivity.
Qed.

Lemma F2Z_zero : F2Z 0%float = 0.
Proof. reflexivity. Qed.

Lemma is_finite_zero : is_finite 0%float = true.
Proof. reflexivity. Qed.

Theorem sub_nonneg_le x y :
  is_finite x = true -> is_finite y = true ->
  (0 <=? y)%float = true -> (y <=? x)%float = true ->
  is_finite (x - y) = true
  /\ (0 <=? x - y)%float = true
  /\ (x - y <=? x)%float = true.
Proof.
  intros Hx Hy H0 Hle.
  rewrite (leb_F2Z _ _ is_finite_zero Hy), F2Z_zero in H0.
  rewrite (leb_F2Z _ _ Hy Hx) in Hle.
  apply Z.leb_le in H0, Hle.
  pose proof Hx as Hx'. pose proof Hy as Hy'. rewrite is_finite_SF in Hx', Hy'.
  destruct (SFsub_nonneg_le prec emax eq_refl _ _ (Prim2SF_valid x) (Prim2SF_valid y)
              Hx' Hy' (conj H0 Hle)) as [Hf Hn].
  fold (SF64sub (Prim2SF x) (Prim2SF y)) in Hf, Hn. rewrite <- FloatAxioms.sub_spec in Hf, Hn.
  rewrite <- is_finite_SF in Hf.
  split; [exact Hf|].
  rewrite (leb_F2Z _ _ is_finite_zero Hf), (leb_F2Z _ _ Hf Hx), F2Z_zero.
  split; apply Z.leb_le; apply Hn.
Qed.


Lemma leb_ltb_false x y :
  is_finite x = true -> is_finite y = true ->
  (y <=? x)%float = true -> (x <? y)%float = false.
Proof.
  intros Hx Hy. rewrite (leb_F2Z _ _ Hy Hx), (ltb_F2Z _ _ Hx Hy). lia.
Qed.

Lemma leb_trans x y z :
  is_finite x = true -> is_finite y = true -> is_finite z = true ->
  (x <=? y)%float = true -> (y <=? z)%float = true -> (x <=? z)%float = true.
Proof.
  intros Hx Hy Hz.
  rewrite (leb_F2Z _ _ Hx Hy), (leb_F2Z _ _ Hy Hz), (leb_F2Z _ _ Hx Hz). lia.
Qed.

Lemma leb_finite_below a x :
  (0 <=? a)%float = true -> (a <=? x)%float = true -> is_finite x = true ->
  is_finite a = true.
Proof.
  rewrite leb_zero_SF, FloatAxioms.leb_spec, !is_finite_SF. unfold SFleb.
  destruct (Prim2SF a) as [s|s| |s m e], (Prim2SF x) as [s'|s'| |s' m' e'];
    cbn; try congruence; destruct s; cbn; congruence.
Qed.

Lemma ltb_false_leb x y :
  is_finite x = true -> (0 <=? y)%float = true -> (x <? y)%float = false ->
  is_finite y = true /\ (y <=? x)%float = true.
Proof.
  intros Hx H0 Hlt.
  assert (Hy : is_finite y = true).
  { revert Hx H0 Hlt. rewrite leb_zero_SF, FloatAxioms.ltb_spec, !is_finite_SF. unfold SFltb.
    destruct (Prim2SF y) as [s|s| |s m e], (Prim2SF x) as [s'|s'| |s' m' e'];
      cbn; try congruence; destruct s; cbn; congruence. }
  split; [exact Hy|].
  rewrite (ltb_F2Z _ _ Hx Hy) in Hlt. rewrite (leb_F2Z _ _ Hy Hx). lia.
Qed.

Theorem add_nonneg x y :
  (0 <=? x)%float = true -> (0 <=? y)%float = true ->
  is_finite (x + y) = true -> (0 <=? x + y)%float = true.
Proof.
  rewrite !leb_zero_SF, is_finite_SF, FloatAxioms.add_spec. intros Hx Hy Hf.
  destruct (SFadd_nonneg prec emax _ _ Hx Hy) as [Hn|Hn]; [|exact Hn].
  unfold SF64add in Hf. rewrite Hn in Hf. discriminate.
Qed.

(** The repayment due computed by [RequestLoan]. *)
Theorem due_nonneg amount rate :
  (0 <=? amount)%float = true -> (0 <=? rate)%float = true ->
  is_finite (amount * (1 + rate / 100)) = true ->
  (0 <=? amount * (1 + rate / 100))%float = true.
Proof.
  rewrite !leb_zero_SF, is_finite_SF, FloatAxioms.mul_spec, FloatAxioms.add_spec, FloatAxioms.div_spec.
  intros Ha Hr Hf.
  change (Prim2SF 1%float) with (S754_finite false 4503599627370496 (-52)) in *.
  change (Prim2SF 100%float) with (S754_finite false 7036874417766400 (-46)) in *.
  unfold SF64mul, SF64add, SF64div in *.
  destruct (SFdiv_nonneg prec emax (Prim2SF rate) 7036874417766400 (-46) Hr) as [Hd|Hd];
    cbv zeta in Hd.
  - rewrite Hd in Hf. cbn [SFadd] in Hf.
    destruct (Prim2SF amount); discriminate.
  - destruct (SFadd_nonneg prec emax (S754_finite false 4503599627370496 (-52)) _ eq_refl Hd)
      as [Hs|Hs].
    + rewrite Hs in Hf. destruct (Prim2SF amount); discriminate.
    + destruct (SFmul_nonneg prec emax _ _ Ha Hs) as [Hm|Hm]; [|exact Hm].
      rewrite Hm in Hf. discriminate.
Qed.

(** An operation with a finite result had finite operands. *)
Lemma mul_finite_inv x y :
  is_finite (x * y) = true -> is_finite x = true /\ is_finite y = true.
Proof.
  rewrite !is_finite_SF, FloatAxioms.mul_spec. unfold SF64mul.
  destruct (Prim2SF x) as [s|s| |s m e], (Prim2SF y) as [s'|s'| |s' m' e'];
    cbn [SFmul SFfin]; auto; discriminate.
Qed.

Lemma add_finite_inv x y :
  is_finite (x + y) = true -> is_finite x = true /\ is_finite y = true.
Proof.
  rewrite !is_finite_SF, FloatAxioms.add_spec. unfold SF64add.
  destruct (Prim2SF x) as [s|s| |s m e], (Prim2SF y) as [s'|s'| |s' m' e'];
    cbn [SFadd SFfin]; auto; try discriminate;
    destruct s, s'; cbn [SFfin]; auto; discriminate.
Qed.

Lemma div_finite_inv x y : is_finite (x / y) = true -> is_finite x = true.
Proof.
  rewrite !is_finite_SF, FloatAxioms.div_spec. unfold SF64div.
  destruct (Prim2SF x) as [s|s| |s m e], (Prim2SF y) as [s'|s'| |s' m' e'];
    cbn [SFdiv SFfin]; auto; discriminate.
Qed.

Lemma due_finite_inv amount rate :
  is_finite (amount * (1 + rate / 100)) = true ->
  is_finite amount = true /\ is_finite rate = true.
Proof.
  intros Hf. apply mul_finite_inv in Hf as [Ha Hs]. split; [exact Ha|].
  apply add_finite_inv in Hs as [_ Hd]. exact (div_finite_inv _ _ Hd).
Qed.


(** An amount <= 0 is never above a balance >= 0. *)
Lemma nonpositive_not_above x a :
  is_finite x = true -> (0 <=? x)%float = true -> (a <=? 0)%float = true ->
  (x <? a)%float = false.
Proof.
  intros Hx H0 Ha.
  destruct (is_finite a) eqn:Hfa.
  - rewrite (leb_F2Z _ _ is_finite_zero Hx), F2Z_zero in H0.
    rewrite (leb_F2Z _ _ Hfa is_finite_zero), F2Z_zero in Ha.
    rewrite (ltb_F2Z _ _ Hx Hfa). lia.
  - revert Hx Ha Hfa. rewrite !is_finite_SF, FloatAxioms.leb_spec, FloatAxioms.ltb_spec.
    change (Prim2SF 0%float) with (S754_zero false). unfold SFleb, SFltb.
    destruct (Prim2SF a) as [s|s| |s m e], (Prim2SF x) as [s'|s'| |s' m' e'];
      cbn; try congruence; destruct s; cbn; try congruence; destruct s'; cbn; congruence.
Qed.

(** ** Reads and writes of the chaincode *)

Lemma loanIn_eq w loanID :
  loanIn w loanID
  = match w !! loanID with
    | None => Err (ErrLoanMissing loanID)
    | Some d => UnmarshalLoan d
    end.
Proof.
  unfold loanIn, GetLoan, bind, GetState, throw, lift. cbn [state].
  destruct (w !! loanID); reflexivity.
Qed.

Lemma balanceIn_eq w account :
  balanceIn w account
  = match w !! account with
    | None => Err (ErrAccountMissing account)
    | Some d =>
        match UnmarshalBalance d with
        | Ok b => Ok (Balance b)
        | Err e => Err e
        end
    end.
Proof.
  unfold balanceIn, GetBalance, bind, GetState, throw, lift, ret. cbn [state].
  destruct (w !! account) as [d|]; [|reflexivity].
  destruct (UnmarshalBalance d); reflexivity.
Qed.

Lemma GetLoan_eq loanID s : GetLoan loanID s = (loanIn (state s) loanID, s).
Proof.
  rewrite loanIn_eq. unfold GetLoan, bind, GetState, throw, lift.
  destruct (state s !! loanID); reflexivity.
Qed.

Lemma GetBalance_eq account s :
  GetBalance account s = (balanceIn (state s) account, s).
Proof.
  rewrite balanceIn_eq. unfold GetBalance, bind, GetState, throw, lift, ret.
  destruct (state s !! account) as [d|]; [|reflexivity].
  destruct (UnmarshalBalance d); reflexivity.
Qed.

Lemma loanIn_finite w loanID l : loanIn w loanID = Ok l -> finiteLoan l = true.
Proof.
  rewrite loanIn_eq. destruct (w !! loanID) as [[l0|b]|]; cbn; try discriminate.
  - destruct (finiteLoan l0) eqn:Hf; [|discriminate]. congruence.
  - intros [= <-]. reflexivity.
Qed.

Lemma balanceIn_finite w account b :
  balanceIn w account = Ok b -> is_finite b = true.
Proof.
  rewrite balanceIn_eq. destruct (w !! account) as [[l0|b0]|]; cbn; try discriminate.
  - intros [= <-]. reflexivity.
  - destruct (is_finite (Balance b0)) eqn:Hf; [|discriminate]. congruence.
Qed.

Lemma state_put key d s : state (put key d s) = state s.
Proof. reflexivity. Qed.

Lemma writeSet_put key d s : writeSet (put key d s) = <[key := d]> (writeSet s).
Proof. reflexivity. Qed.

Lemma commit_put key d s : commit (put key d s) = <[key := d]> (commit s).
Proof. unfold commit. rewrite writeSet_put, state_put. symmetry. apply insert_union_l. Qed.

Lemma commit_fresh w txid ts : commit (mkStub w ∅ txid ts) = w.
Proof. unfold commit. cbn. apply (left_id_L ∅ (∪)). Qed.

Lemma UpdateBalance_eq account b s :
  UpdateBalance account b s
  = if is_finite b then (Ok tt, put account (DocBalance (mkTokenBalance account b)) s)
    else (Err ErrJSON, s).
Proof.
  unfold UpdateBalance, bind, lift, MarshalBalance. cbn [Balance].
  destruct (is_finite b); reflexivity.
Qed.

Lemma recipientBalance_eq to s :
  recipientBalance to s
  = (match balanceIn (state s) to with
     | Ok b => Ok b
     | Err e => if decide (e = ErrAccountMissing to) then Ok 0%float else Err e
     end, s).
Proof.
  unfold recipientBalance. rewrite GetBalance_eq.
  destruct (balanceIn (state s) to) as [b|e]; [reflexivity|].
  destruct (decide (e = ErrAccountMissing to)); reflexivity.
Qed.

(** Every path of [TransferTokens]. *)
Lemma TransferTokens_eq from to amount s :
  TransferTokens from to amount s
  = match balanceIn (state s) from with
    | Err e => (Err e, s)
    | Ok fromBalance =>
        if (fromBalance <? amount)%float then (Err (ErrInsufficientFunds from), s)
        else
          match fst (recipientBalance to s) with
          | Err e => (Err e, s)
          | Ok toBalance =>
              if is_finite (fromBalance - amount) then
                let s1 :=
                  put from (DocBalance (mkTokenBalance from (fromBalance - amount))) s in
                if is_finite (toBalance + amount) then
                  (Ok tt,
                   put to (DocBalance (mkTokenBalance to (toBalance + amount))) s1)
                else (Err ErrJSON, s1)
              else (Err ErrJSON, s)
          end
    end.
Proof.
  unfold TransferTokens, bind. rewrite GetBalance_eq.
  destruct (balanceIn (state s) from) as [fb|e]; [|reflexivity].
  unfold throw. destruct (fb <? amount)%float; [reflexivity|].
  rewrite recipientBalance_eq. cbn [fst].
  destruct (match balanceIn (state s) to with Ok b => Ok b | Err e => _ end) as [tb|e];
    [|reflexivity].
  rewrite !UpdateBalance_eq.
  destruct (is_finite (fb - amount)); [|reflexivity]. cbv zeta.
  rewrite UpdateBalance_eq.
  destruct (is_finite (tb + amount)); reflexivity.
Qed.

Lemma balances_nonneg_docs w :
  map_Forall (fun _ d => nonnegDoc d = true) w -> balances_nonneg w.
Proof.
  intros Hall account b. rewrite balanceIn_eq.
  destruct (w !! account) as [d|] eqn:Hd; [|discriminate].
  specialize (Hall account d Hd).
  destruct d as [l|b0]; cbn [UnmarshalBalance nonnegDoc] in *.
  - intros [= <-]. reflexivity.
  - destruct (is_finite (Balance b0)); [|discriminate]. intros [= <-]. exact Hall.
Qed.

Lemma balances_nonneg_insert w key account b :
  balances_nonneg w -> (0 <=? b)%float = true ->
  balances_nonneg (<[key := DocBalance (mkTokenBalance account b)]> w).
Proof.
  intros Hw Hb k x. rewrite balanceIn_eq.
  destruct (decide (key = k)) as [->|Hne].
  - rewrite lookup_insert_eq. cbn [UnmarshalBalance Balance].
    destruct (is_finite b); [|discriminate]. intros [= <-]. exact Hb.
  - rewrite lookup_insert_ne by exact Hne. intros Hk. apply (Hw k).
    rewrite balanceIn_eq. exact Hk.
Qed.

Lemma genesis_nonneg : balances_nonneg genesis.
Proof.
  apply balances_nonneg_docs.
  apply (bool_decide_unpack _). vm_compute. exact I.
Qed.

(** ** The scenarios of the specification (section 8) *)

Example scenario_request :
  loanIn requested "L1" = Ok loanL1
  /\ Status loanL1 = "PENDING"
  /\ RepaymentDue loanL1 = 1100%float /\ RemainingBalance loanL1 = 1100%float.
Proof. vm_compute. repeat split; reflexivity. Qed.

Example scenario_approve :
  invoke (ApproveLoan "L1" "HDFC") "tx2" 1700000120 requested = (Ok tt, approved)
  /\ loanIn approved "L1" = Ok (approvedLoan "HDFC" "tx2" loanL1)
  /\ Status (approvedLoan "HDFC" "tx2" loanL1) = "APPROVED".
Proof. vm_compute. repeat split; reflexivity. Qed.

Example scenario_disburse :
  invoke (DisburseLoan "L1") "tx3" 1700000180 approved = (Ok tt, active)
  /\ balanceIn active "HDFC" = Ok 499000%float
  /\ balanceIn active "B1" = Ok 1000%float
  /\ loanIn active "L1" = Ok loanL1_active
  /\ Status loanL1_active = "ACTIVE".
Proof. vm_compute. repeat split; reflexivity. Qed.

(** The full repayment of the scenario needs a borrower who holds 1100:
    here B1 has received 100 more tokens from SBI. *)
Example scenario_repay :
  let funded :=
    snd (invoke (TransferTokens "SBI" "B1" 100) "tx3b" 1700000200 active) in
  let settled :=
    snd (invoke (@RepayLoan utcRuntime "L1" 1100) "tx4" 1700000240 funded) in
  fst (invoke (@RepayLoan utcRuntime "L1" 1100) "tx4" 1700000240 funded) = Ok tt
  /\ balanceIn settled "B1" = Ok 0%float
  /\ balanceIn settled "HDFC" = Ok 500100%float
  /\ loanIn settled "L1" = Ok (@repaidLoan utcRuntime 1100 "tx4" loanL1_active)
  /\ RemainingBalance (@repaidLoan utcRuntime 1100 "tx4" loanL1_active) = 0%float
  /\ Status (@repaidLoan utcRuntime 1100 "tx4" loanL1_active) = "REPAID".
Proof. vm_compute. repeat split; reflexivity. Qed.

Example scenario_default_pending :
  invoke (MarkAsDefaulted "L1") "tx2" 1700000120 requested
  = (Err (ErrCannotDefault "L1" "PENDING"), requested)
  /\ kind (ErrCannotDefault "L1" "PENDING") = InvalidStateTransition.
Proof. vm_compute. repeat split; reflexivity. Qed.

(** ** C1: balances stay non-negative *)

(** C1, as the code has it: a transfer of a non-negative amount on a world
    state whose balances are all >= 0 leaves every balance >= 0, and a
    transfer whose amount exceeds the source's balance is rejected with
    InsufficientFunds before anything is written. *)
Theorem TransferTokens_keeps_balances_nonneg from to amount txid ts w :
  (forall s fromBalance,
      balanceIn (state s) from = Ok fromBalance ->
      (fromBalance <? amount)%float = true ->
      TransferTokens from to amount s = (Err (ErrInsufficientFunds from), s)
      /\ kind (ErrInsufficientFunds from) = InsufficientFunds)
  /\ ((0 <=? amount)%float = true ->
      balances_nonneg w ->
      balances_nonneg (snd (invoke (TransferTokens from to amount) txid ts w))).
Proof.
  split.
  - intros s fb Hfb Hlt. rewrite TransferTokens_eq, Hfb, Hlt. split; reflexivity.
  - intros Hamount Hw. unfold invoke. rewrite TransferTokens_eq. cbn [state].
    destruct (balanceIn w from) as [fb|e] eqn:Hfb; [|exact Hw].
    destruct (fb <? amount)%float eqn:Hlt; [exact Hw|].
    rewrite recipientBalance_eq. cbn [fst state].
    pose proof (balanceIn_finite _ _ _ Hfb) as Hfin.
    destruct (ltb_false_leb _ _ Hfin Hamount Hlt) as [Hafin Hle].
    destruct (sub_nonneg_le fb amount Hfin Hafin Hamount Hle) as (Hdfin & Hd0 & _).
    rewrite Hdfin. cbv zeta.
    assert (Hto : forall tb,
      match balanceIn w to with
      | Ok b => Ok b
      | Err e => if decide (e = ErrAccountMissing to) then Ok 0%float else Err e
      end = Ok tb -> (0 <=? tb)%float = true).
    { intros tb. destruct (balanceIn w to) as [b|e] eqn:Hb.
      - intros [= <-]. exact (Hw _ _ Hb).
      - destruct (decide (e = ErrAccountMissing to)); [|discriminate].
        intros [= <-]. reflexivity. }
    destruct (match balanceIn w to with Ok b => Ok b | Err e => _ end) as [tb|e];
      [|exact Hw].
    destruct (is_finite (tb + amount)) eqn:Hsfin; [|exact Hw].
    cbn [snd]. rewrite !commit_put, commit_fresh.
    apply balances_nonneg_insert.
    + apply balances_nonneg_insert; assumption.
    + apply add_nonneg; auto.
Qed.

Lemma TransferTokens_keeps_balances_nonneg_witness :
  (TransferTokens "SBI" "HDFC" 600000 (mkStub genesis ∅ "tx9" 1700000600)
   = (Err (ErrInsufficientFunds "SBI"), mkStub genesis ∅ "tx9" 1700000600)
   /\ kind (ErrInsufficientFunds "SBI") = InsufficientFunds)
  /\ balances_nonneg
       (snd (invoke (TransferTokens "RBI" "HDFC" 50) "tx9" 1700000600 genesis)).
Proof.
  split.
  - apply (proj1 (TransferTokens_keeps_balances_nonneg
                    "SBI" "HDFC" 600000 "tx9" 1700000600 genesis)
             (mkStub genesis ∅ "tx9" 1700000600) 500000%float);
      vm_compute; reflexivity.
  - apply (proj2 (TransferTokens_keeps_balances_nonneg
                    "RBI" "HDFC" 50 "tx9" 1700000600 genesis)).
    + reflexivity.
    + exact genesis_nonneg.
Defined.

(** C1 as stated fails: a transfer of -50 from RBI to the new account X is
    accepted and leaves X with the balance -50. *)
Lemma TransferTokens_negative_amount_counterexample :
  invoke (TransferTokens "RBI" "X" (-50)) "tx9" 1700000600 genesis
  = (Ok tt,
     <["X" := DocBalance (mkTokenBalance "X" (-50))]>
       (<["RBI" := DocBalance (mkTokenBalance "RBI" 1000050)]> genesis))
  /\ balanceIn
       (snd (invoke (TransferTokens "RBI" "X" (-50)) "tx9" 1700000600 genesis)) "X"
     = Ok (-50)%float
  /\ (0 <=? -50)%float = false.
Proof. vm_compute. repeat split; reflexivity. Qed.

Lemma balanceIn_Err w account e :
  balanceIn w account = Err e -> e = ErrAccountMissing account \/ e = ErrJSON.
Proof.
  rewrite balanceIn_eq. destruct (w !! account) as [[l|b]|]; cbn.
  - discriminate.
  - destruct (is_finite (Balance b)); [discriminate|]. intros [= <-]. auto.
  - intros [= <-]. auto.
Qed.

Lemma loanIn_Err w loanID e :
  loanIn w loanID = Err e -> e = ErrLoanMissing loanID \/ e = ErrJSON.
Proof.
  rewrite loanIn_eq. destruct (w !! loanID) as [[l|b]|]; cbn.
  - destruct (finiteLoan l); [discriminate|]. intros [= <-]. auto.
  - discriminate.
  - intros [= <-]. auto.
Qed.

(** [TransferTokens] only adds to the write set. *)
Lemma TransferTokens_frame from to amount s r s' :
  TransferTokens from to amount s = (r, s') ->
  state s' = state s /\ TxID s' = TxID s /\ TxTimestamp s' = TxTimestamp s.
Proof.
  rewrite TransferTokens_eq.
  destruct (balanceIn (state s) from) as [fb|e]; [|intros [= <- <-]; auto].
  destruct (fb <? amount)%float; [intros [= <- <-]; auto|].
  destruct (fst (recipientBalance to s)) as [tb|e]; [|intros [= <- <-]; auto].
  destruct (is_finite (fb - amount)); [|intros [= <- <-]; auto]. cbv zeta.
  destruct (is_finite (tb + amount)); intros [= <- <-]; auto.
Qed.

Lemma TransferTokens_errors from to amount s e s' :
  TransferTokens from to amount s = (Err e, s') ->
  e = ErrAccountMissing from \/ e = ErrInsufficientFunds from \/ e = ErrJSON.
Proof.
  rewrite TransferTokens_eq.
  destruct (balanceIn (state s) from) as [fb|e0] eqn:Hfb.
  2:{ intros [= <- <-]. destruct (balanceIn_Err _ _ _ Hfb); auto. }
  destruct (fb <? amount)%float; [intros [= <- <-]; auto|].
  rewrite recipientBalance_eq. cbn [fst].
  destruct (balanceIn (state s) to) as [tb|e0] eqn:Htb.
  - destruct (is_finite (fb - amount)); [|intros [= <- <-]; auto]. cbv zeta.
    destruct (is_finite (tb + amount)); [discriminate|intros [= <- <-]; auto].
  - destruct (decide (e0 = ErrAccountMissing to)).
    + destruct (is_finite (fb - amount)); [|intros [= <- <-]; auto]. cbv zeta.
      destruct (is_finite (0 + amount)); [discriminate|intros [= <- <-]; auto].
    + intros [= <- <-]. destruct (balanceIn_Err _ _ _ Htb); [contradiction|auto].
Qed.

(** What [TransferTokens] reads for its destination, from the world state. *)
Lemma recipientBalance_world to s toBalance :
  match state s !! to with
  | None => toBalance = 0%float
  | Some _ => balanceIn (state s) to = Ok toBalance
  end ->
  fst (recipientBalance to s) = Ok toBalance.
Proof.
  rewrite recipientBalance_eq. cbn [fst].
  destruct (state s !! to) as [d|] eqn:Hd.
  - intros ->. reflexivity.
  - intros ->. rewrite balanceIn_eq, Hd.
    destruct (decide (ErrAccountMissing to = ErrAccountMissing to)); congruence.
Qed.

Lemma recipientBalance_world_inv to s toBalance :
  fst (recipientBalance to s) = Ok toBalance ->
  match state s !! to with
  | None => toBalance = 0%float
  | Some _ => balanceIn (state s) to = Ok toBalance
  end.
Proof.
  rewrite recipientBalance_eq. cbn [fst]. rewrite !balanceIn_eq.
  destruct (state s !! to) as [[l|b]|]; cbn [UnmarshalBalance].
  - auto.
  - destruct (is_finite (Balance b)); [auto|].
    destruct (decide (ErrJSON = ErrAccountMissing to)); discriminate.
  - destruct (decide (ErrAccountMissing to = ErrAccountMissing to)); congruence.
Qed.

(** Every failure of [TransferTokens]: no record for the source, a source
    balance below the amount, both before any write, or the encoder. *)
Lemma TransferTokens_failures from to amount s e s' :
  TransferTokens from to amount s = (Err e, s') ->
  (e = ErrAccountMissing from /\ state s !! from = None /\ s' = s)
  \/ (e = ErrInsufficientFunds from /\ s' = s
      /\ exists fromBalance,
           balanceIn (state s) from = Ok fromBalance
           /\ (fromBalance <? amount)%float = true)
  \/ e = ErrJSON.
Proof.
  rewrite TransferTokens_eq.
  destruct (balanceIn (state s) from) as [fb|e0] eqn:Hfb.
  2:{ intros [= <- <-]. rewrite balanceIn_eq in Hfb.
      destruct (state s !! from) as [[l|b]|]; cbn in Hfb.
      - discriminate.
      - destruct (is_finite (Balance b)); [discriminate|]. injection Hfb as <-. auto.
      - injection Hfb as <-. auto. }
  destruct (fb <? amount)%float eqn:Hlt.
  { intros [= <- <-]. right. left. eauto. }
  rewrite recipientBalance_eq. cbn [fst].
  destruct (balanceIn (state s) to) as [tb|e0] eqn:Htb.
  - destruct (is_finite (fb - amount)); [|intros [= <- <-]; auto]. cbv zeta.
    destruct (is_finite (tb + amount)); [discriminate|intros [= <- <-]; auto].
  - destruct (decide (e0 = ErrAccountMissing to)).
    + destruct (is_finite (fb - amount)); [|intros [= <- <-]; auto]. cbv zeta.
      destruct (is_finite (0 + amount)); [discriminate|intros [= <- <-]; auto].
    + intros [= <- <-]. destruct (balanceIn_Err _ _ _ Htb); [contradiction|auto].
Qed.

Section Operations.
Context {runtime : GoRuntime}.

Lemma finite_approvedLoan lenderID txid loan :
  finiteLoan (approvedLoan lenderID txid loan) = finiteLoan loan.
Proof. reflexivity. Qed.

Lemma finite_disbursedLoan txid txTime loan :
  finiteLoan (disbursedLoan txid txTime loan) = finiteLoan loan.
Proof. reflexivity. Qed.

Lemma finite_defaultedLoan txid loan :
  finiteLoan (defaultedLoan txid loan) = finiteLoan loan.
Proof. reflexivity. Qed.

Lemma finite_collateralLoan collateral txid loan :
  finiteLoan (collateralLoan collateral txid loan) = finiteLoan loan.
Proof. reflexivity. Qed.

Lemma finite_repaidLoan amount txid loan :
  finiteLoan loan = true ->
  finiteLoan (repaidLoan amount txid loan)
  = is_finite (RemainingBalance loan - amount).
Proof.
  unfold finiteLoan, repaidLoan. intros Hf.
  apply andb_prop in Hf as [Hf _]. cbv zeta.
  destruct (RemainingBalance loan - amount <=? 0)%float; cbn; rewrite Hf; reflexivity.
Qed.

Lemma RequestLoan_eq loanID borrowerID amount interestRate duration collateral s :
  RequestLoan loanID borrowerID amount interestRate duration collateral s
  = match state s !! loanID with
    | Some _ => (Err (ErrLoanExists loanID), s)
    | None =>
        let loan :=
          requestedLoan loanID borrowerID amount interestRate duration collateral
            (TxID s) (TxTimestamp s) in
        if finiteLoan loan then (Ok tt, put loanID (DocLoan loan) s)
        else (Err ErrJSON, s)
    end.
Proof.
  unfold RequestLoan, LoanExists, bind, GetState, ret, throw, GetTxTimestamp, GetTxID,
    lift, MarshalLoan.
  destruct (state s !! loanID); [reflexivity|]. cbv zeta.
  fold (requestedLoan loanID borrowerID amount interestRate duration collateral
          (TxID s) (TxTimestamp s)).
  destruct (finiteLoan _); reflexivity.
Qed.

Lemma ApproveLoan_eq loanID lenderID s :
  ApproveLoan loanID lenderID s
  = match loanIn (state s) loanID with
    | Err e => (Err e, s)
    | Ok loan =>
        if decide (Status loan <> "PENDING")
        then (Err (ErrCannotApprove loanID (Status loan)), s)
        else
          match balanceIn (state s) lenderID with
          | Err e => (Err e, s)
          | Ok lenderBalance =>
              if (lenderBalance <? Amount loan)%float
              then (Err (ErrLenderFunds lenderID), s)
              else (Ok tt, put loanID (DocLoan (approvedLoan lenderID (TxID s) loan)) s)
          end
    end.
Proof.
  unfold ApproveLoan, bind. rewrite GetLoan_eq.
  destruct (loanIn (state s) loanID) as [loan|e] eqn:Hl; [|reflexivity].
  destruct (decide (Status loan <> "PENDING")); [reflexivity|].
  rewrite GetBalance_eq.
  destruct (balanceIn (state s) lenderID) as [b|e]; [|reflexivity].
  destruct (b <? Amount loan)%float; [reflexivity|].
  unfold GetTxID, lift, MarshalLoan.
  fold (approvedLoan lenderID (TxID s) loan).
  rewrite finite_approvedLoan, (loanIn_finite _ _ _ Hl). reflexivity.
Qed.

Lemma DisburseLoan_eq loanID s :
  DisburseLoan loanID s
  = match loanIn (state s) loanID with
    | Err e => (Err e, s)
    | Ok loan =>
        if decide (Status loan <> "APPROVED")
        then (Err (ErrCannotDisburse loanID (Status loan)), s)
        else
          match TransferTokens (LenderID loan) (BorrowerID loan) (Amount loan) s with
          | (Err e, s1) => (Err e, s1)
          | (Ok _, s1) =>
              (Ok tt,
               put loanID (DocLoan (disbursedLoan (TxID s) (TxTimestamp s) loan)) s1)
          end
    end.
Proof.
  unfold DisburseLoan, bind. rewrite GetLoan_eq.
  destruct (loanIn (state s) loanID) as [loan|e] eqn:Hl; [|reflexivity].
  destruct (decide (Status loan <> "APPROVED")); [reflexivity|].
  destruct (TransferTokens _ _ _ s) as [[[]|e] s1] eqn:Ht; [|reflexivity].
  destruct (TransferTokens_frame _ _ _ _ _ _ Ht) as (_ & Hid & Hts).
  unfold GetTxTimestamp, GetTxID, lift, MarshalLoan. rewrite Hid, Hts.
  fold (disbursedLoan (TxID s) (TxTimestamp s) loan).
  rewrite finite_disbursedLoan, (loanIn_finite _ _ _ Hl). reflexivity.
Qed.

Lemma RepayLoan_eq loanID amount s :
  RepayLoan loanID amount s
  = match loanIn (state s) loanID with
    | Err e => (Err e, s)
    | Ok loan =>
        if decide (Status loan <> "ACTIVE")
        then (Err (ErrCannotRepay loanID (Status loan)), s)
        else if (RemainingBalance loan <? amount)%float then (Err ErrRepayExceeds, s)
        else
          match TransferTokens (BorrowerID loan) (LenderID loan) amount s with
          | (Err e, s1) => (Err e, s1)
          | (Ok _, s1) =>
              if is_finite (RemainingBalance loan - amount)
              then (Ok tt, put loanID (DocLoan (repaidLoan amount (TxID s) loan)) s1)
              else (Err ErrJSON, s1)
          end
    end.
Proof.
  unfold RepayLoan, bind. rewrite GetLoan_eq.
  destruct (loanIn (state s) loanID) as [loan|e] eqn:Hl; [|reflexivity].
  destruct (decide (Status loan <> "ACTIVE")); [reflexivity|].
  destruct (RemainingBalance loan <? amount)%float; [reflexivity|].
  destruct (TransferTokens _ _ _ s) as [[[]|e] s1] eqn:Ht; [|reflexivity].
  destruct (TransferTokens_frame _ _ _ _ _ _ Ht) as (_ & Hid & _).
  unfold GetTxID, lift, MarshalLoan. rewrite Hid. cbn [RemainingBalance set_RemainingBalance].
  fold (repaidLoan amount (TxID s) loan).
  rewrite (finite_repaidLoan _ _ _ (loanIn_finite _ _ _ Hl)).
  destruct (is_finite _); reflexivity.
Qed.

Lemma MarkAsDefaulted_eq loanID s :
  MarkAsDefaulted loanID s
  = match loanIn (state s) loanID with
    | Err e => (Err e, s)
    | Ok loan =>
        if decide (Status loan <> "ACTIVE")
        then (Err (ErrCannotDefault loanID (Status loan)), s)
        else (Ok tt, put loanID (DocLoan (defaultedLoan (TxID s) loan)) s)
    end.
Proof.
  unfold MarkAsDefaulted, bind. rewrite GetLoan_eq.
  destruct (loanIn (state s) loanID) as [loan|e] eqn:Hl; [|reflexivity].
  destruct (decide (Status loan <> "ACTIVE")); [reflexivity|].
  unfold GetTxID, lift, MarshalLoan.
  fold (defaultedLoan (TxID s) loan).
  rewrite finite_defaultedLoan, (loanIn_finite _ _ _ Hl). reflexivity.
Qed.

Lemma AddCollateral_eq loanID collateral s :
  AddCollateral loanID collateral s
  = match loanIn (state s) loanID with
    | Err e => (Err e, s)
    | Ok loan =>
        (Ok tt, put loanID (DocLoan (collateralLoan collateral (TxID s) loan)) s)
    end.
Proof.
  unfold AddCollateral, bind. rewrite GetLoan_eq.
  destruct (loanIn (state s) loanID) as [loan|e] eqn:Hl; [|reflexivity].
  unfold GetTxID, lift, MarshalLoan.
  fold (collateralLoan collateral (TxID s) loan).
  rewrite finite_collateralLoan, (loanIn_finite _ _ _ Hl). reflexivity.
Qed.

End Operations.

(** ** C2: the amount checks of [TransferTokens] and [RepayLoan] *)

(** C2, as the code has it: neither function checks the sign of the amount.
    [TransferTokens] fails only with NotFound (the source has no record) or
    InsufficientFunds (the source balance is below the amount), both before
    any write, or with a serialization error; never with InvalidAmount.
    For an amount <= 0 and a source with a balance >= 0 it succeeds as
    soon as both new balances are finite numbers.  [RepayLoan] fails with
    InvalidAmount exactly when the loan is ACTIVE and the amount exceeds
    remainingBalance, and then it has written nothing; with an amount <= 0
    on an ACTIVE loan whose remainingBalance is >= 0 it passes that check
    and does what its transfer does. *)
Theorem InvalidAmount_only_for_excess_repayment {runtime : GoRuntime} :
  (forall from to amount s e s',
      TransferTokens from to amount s = (Err e, s') ->
      kind e <> InvalidAmount
      /\ ((e = ErrAccountMissing from /\ kind e = NotFound
           /\ state s !! from = None /\ s' = s)
          \/ (e = ErrInsufficientFunds from /\ kind e = InsufficientFunds /\ s' = s
              /\ exists fromBalance,
                   balanceIn (state s) from = Ok fromBalance
                   /\ (fromBalance <? amount)%float = true)
          \/ (e = ErrJSON /\ kind e = SerializationError)))
  /\ (forall from to amount s fromBalance toBalance,
        (amount <=? 0)%float = true ->
        balanceIn (state s) from = Ok fromBalance ->
        (0 <=? fromBalance)%float = true ->
        match state s !! to with
        | None => toBalance = 0%float
        | Some _ => balanceIn (state s) to = Ok toBalance
        end ->
        is_finite (fromBalance - amount) = true ->
        is_finite (toBalance + amount) = true ->
        TransferTokens from to amount s
        = (Ok tt,
           put to (DocBalance (mkTokenBalance to (toBalance + amount)))
             (put from (DocBalance (mkTokenBalance from (fromBalance - amount))) s)))
  /\ (forall loanID amount s e s',
        RepayLoan loanID amount s = (Err e, s') -> kind e = InvalidAmount ->
        s' = s
        /\ exists loan,
             loanIn (state s) loanID = Ok loan /\ Status loan = "ACTIVE"
             /\ (RemainingBalance loan <? amount)%float = true)
  /\ (forall loanID amount s loan,
        loanIn (state s) loanID = Ok loan -> Status loan = "ACTIVE" ->
        (RemainingBalance loan <? amount)%float = true ->
        RepayLoan loanID amount s = (Err ErrRepayExceeds, s)
        /\ kind ErrRepayExceeds = InvalidAmount)
  /\ (forall loanID amount s loan,
        loanIn (state s) loanID = Ok loan -> Status loan = "ACTIVE" ->
        (amount <=? 0)%float = true ->
        (0 <=? RemainingBalance loan)%float = true ->
        RepayLoan loanID amount s
        = match TransferTokens (BorrowerID loan) (LenderID loan) amount s with
          | (Err e, s1) => (Err e, s1)
          | (Ok _, s1) =>
              if is_finite (RemainingBalance loan - amount)
              then (Ok tt, put loanID (DocLoan (repaidLoan amount (TxID s) loan)) s1)
              else (Err ErrJSON, s1)
          end).
Proof.
  assert (Htransfer : forall from to amount s e s',
             TransferTokens from to amount s = (Err e, s') -> kind e <> InvalidAmount).
  { intros from to amount s e s' Ht.
    destruct (TransferTokens_errors _ _ _ _ _ _ Ht) as [->|[->| ->]]; discriminate. }
  split; [|split; [|split; [|split]]].
  - intros from to amount s e s' Ht. split; [exact (Htransfer _ _ _ _ _ _ Ht)|].
    destruct (TransferTokens_failures _ _ _ _ _ _ Ht)
      as [(-> & Hnone & ->)|[(-> & -> & Hfb)| ->]]; auto 10.
  - intros from to amount s fb tb Ha Hfb H0 Htb Hdf Hsf.
    rewrite TransferTokens_eq, Hfb.
    rewrite (nonpositive_not_above _ _ (balanceIn_finite _ _ _ Hfb) H0 Ha).
    rewrite (recipientBalance_world _ _ _ Htb), Hdf. cbv zeta. rewrite Hsf. reflexivity.
  - intros loanID amount s e s'. rewrite RepayLoan_eq.
    destruct (loanIn (state s) loanID) as [loan|e0] eqn:Hl.
    2:{ intros [= <- <-] Hk. destruct (loanIn_Err _ _ _ Hl); subst; discriminate. }
    destruct (decide (Status loan <> "ACTIVE")) as [Hs|Hs].
    { intros [= <- <-] Hk. discriminate. }
    destruct (RemainingBalance loan <? amount)%float eqn:Hlt.
    { intros [= <- <-] _. split; [reflexivity|]. exists loan.
      repeat split; auto. destruct (decide (Status loan = "ACTIVE")); tauto. }
    destruct (TransferTokens _ _ _ s) as [[[]|e1] s1] eqn:Ht.
    + destruct (is_finite _); [discriminate|]. intros [= <- <-]. discriminate.
    + intros [= <- <-] Hk. exfalso. exact (Htransfer _ _ _ _ _ _ Ht Hk).
  - intros loanID amount s loan Hl Hs Hlt. rewrite RepayLoan_eq, Hl, Hlt.
    destruct (decide (Status loan <> "ACTIVE")); [contradiction|]. split; reflexivity.
  - intros loanID amount s loan Hl Hs Ha H0. rewrite RepayLoan_eq, Hl.
    destruct (decide (Status loan <> "ACTIVE")); [contradiction|].
    pose proof (loanIn_finite _ _ _ Hl) as Hf. unfold finiteLoan in Hf.
    apply andb_prop in Hf as [_ Hrem].
    rewrite (nonpositive_not_above _ _ Hrem H0 Ha). reflexivity.
Qed.

Lemma InvalidAmount_only_for_excess_repayment_witness :
  (kind (ErrInsufficientFunds "SBI") <> InvalidAmount
   /\ ((ErrInsufficientFunds "SBI" = ErrAccountMissing "SBI"
        /\ kind (ErrInsufficientFunds "SBI") = NotFound
        /\ state (mkStub genesis ∅ "tx9" 1700000600) !! "SBI" = None
        /\ mkStub genesis ∅ "tx9" 1700000600 = mkStub genesis ∅ "tx9" 1700000600)
       \/ (ErrInsufficientFunds "SBI" = ErrInsufficientFunds "SBI"
           /\ kind (ErrInsufficientFunds "SBI") = InsufficientFunds
           /\ mkStub genesis ∅ "tx9" 1700000600 = mkStub genesis ∅ "tx9" 1700000600
           /\ exists fromBalance,
                balanceIn (state (mkStub genesis ∅ "tx9" 1700000600)) "SBI"
                = Ok fromBalance
                /\ (fromBalance <? 600000)%float = true)
       \/ (ErrInsufficientFunds "SBI" = ErrJSON
           /\ kind (ErrInsufficientFunds "SBI") = SerializationError)))
  /\ TransferTokens "RBI" "HDFC" (-50) (mkStub genesis ∅ "tx9" 1700000600)
     = (Ok tt,
        put "HDFC" (DocBalance (mkTokenBalance "HDFC" (500000 + -50)))
          (put "RBI" (DocBalance (mkTokenBalance "RBI" (1000000 - -50)))
             (mkStub genesis ∅ "tx9" 1700000600)))
  /\ (@RepayLoan utcRuntime "L1" 2000 (mkStub active ∅ "tx4" 1700000240)
      = (Err ErrRepayExceeds, mkStub active ∅ "tx4" 1700000240)
      /\ kind ErrRepayExceeds = InvalidAmount).
Proof.
  split; [|split].
  - apply (proj1 (@InvalidAmount_only_for_excess_repayment utcRuntime)
             "SBI" "HDFC" 600000%float
             (mkStub genesis ∅ "tx9" 1700000600) (ErrInsufficientFunds "SBI")
             (mkStub genesis ∅ "tx9" 1700000600)).
    vm_compute. reflexivity.
  - apply (proj1 (proj2 (@InvalidAmount_only_for_excess_repayment utcRuntime))
             "RBI" "HDFC" (-50)%float (mkStub genesis ∅ "tx9" 1700000600)
             1000000%float 500000%float).
    + reflexivity.
    + vm_compute. reflexivity.
    + reflexivity.
    + vm_compute. reflexivity.
    + reflexivity.
    + reflexivity.
  - refine (proj1 (proj2 (proj2 (proj2 (@InvalidAmount_only_for_excess_repayment utcRuntime))))
             "L1" 2000%float (mkStub active ∅ "tx4" 1700000240)
             (disbursedLoan "tx3" 1700000180
                (approvedLoan "HDFC" "tx2"
                   (@requestedLoan utcRuntime "L1" "B1" 1000 10 12 "car"
                      "tx1" 1700000060))) _ _ _);
      vm_compute; reflexivity.
Defined.

(** C2 as stated fails: a transfer of -50 and a repayment of -500 are both
    accepted, and both change the balances. *)
Lemma nonpositive_amount_counterexample :
  (-50 <=? 0)%float = true
  /\ invoke (TransferTokens "RBI" "HDFC" (-50)) "tx9" 1700000600 genesis
     = (Ok tt,
        <["HDFC" := DocBalance (mkTokenBalance "HDFC" 499950)]>
          (<["RBI" := DocBalance (mkTokenBalance "RBI" 1000050)]> genesis))
  /\ fst (invoke (@RepayLoan utcRuntime "L1" (-500)) "tx4" 1700000240 active) = Ok tt
  /\ balanceIn
       (snd (invoke (@RepayLoan utcRuntime "L1" (-500)) "tx4" 1700000240 active)) "B1"
     = Ok 1500%float
  /\ balanceIn active "B1" = Ok 1000%float.
Proof. vm_compute. repeat split; reflexivity. Qed.

(** ** C3: the remaining balance of a loan *)

Lemma leb_refl_finite x : is_finite x = true -> (x <=? x)%float = true.
Proof. intros Hx. rewrite (leb_F2Z _ _ Hx Hx). apply Z.leb_refl. Qed.

Lemma loanIn_insert w loanID loan :
  finiteLoan loan = true -> loanIn (<[loanID := DocLoan loan]> w) loanID = Ok loan.
Proof.
  intros Hf. rewrite loanIn_eq, lookup_insert_eq. cbn. rewrite Hf. reflexivity.
Qed.

Lemma finiteLoan_fields loan :
  finiteLoan loan = true ->
  is_finite (Amount loan) = true /\ is_finite (InterestRate loan) = true
  /\ is_finite (RepaymentDue loan) = true /\ is_finite (RemainingBalance loan) = true.
Proof.
  unfold finiteLoan. intros Hf.
  apply andb_prop in Hf as [Hf H4]. apply andb_prop in Hf as [Hf H3].
  apply andb_prop in Hf as [H1 H2]. auto.
Qed.

Lemma RemainingBalance_repaidLoan {runtime : GoRuntime} amount txid loan :
  RemainingBalance (repaidLoan amount txid loan)
  = (RemainingBalance loan - amount)%float.
Proof.
  unfold repaidLoan. cbv zeta.
  destruct (RemainingBalance loan - amount <=? 0)%float; reflexivity.
Qed.

Lemma RepaymentDue_repaidLoan {runtime : GoRuntime} amount txid loan :
  RepaymentDue (repaidLoan amount txid loan) = RepaymentDue loan.
Proof.
  unfold repaidLoan. cbv zeta.
  destruct (RemainingBalance loan - amount <=? 0)%float; reflexivity.
Qed.

(** A successful operation that rewrites a loan without touching its
    amounts keeps the range. *)
Lemma balance_in_range_same loan loan' :
  finiteLoan loan = true ->
  RepaymentDue loan' = RepaymentDue loan ->
  RemainingBalance loan' = RemainingBalance loan ->
  RepaymentDue loan' = RepaymentDue loan
  /\ (balance_in_range loan ->
      balance_in_range loan'
      /\ (RemainingBalance loan' <=? RemainingBalance loan)%float = true).
Proof.
  intros Hf Hd Hr. split; [exact Hd|]. unfold balance_in_range. rewrite Hd, Hr.
  intros Hin. split; [exact Hin|].
  apply leb_refl_finite. apply (finiteLoan_fields _ Hf).
Qed.

(** A successful transfer read both balances and wrote both records. *)
Lemma TransferTokens_Ok from to amount s s1 :
  TransferTokens from to amount s = (Ok tt, s1) ->
  exists fromBalance toBalance,
    balanceIn (state s) from = Ok fromBalance
    /\ fst (recipientBalance to s) = Ok toBalance
    /\ (fromBalance <? amount)%float = false
    /\ s1 = put to (DocBalance (mkTokenBalance to (toBalance + amount)))
              (put from (DocBalance (mkTokenBalance from (fromBalance - amount))) s).
Proof.
  rewrite TransferTokens_eq.
  destruct (balanceIn (state s) from) as [fb|e]; [|discriminate].
  destruct (fb <? amount)%float eqn:Hlt; [discriminate|].
  destruct (fst (recipientBalance to s)) as [tb|e]; [|discriminate].
  destruct (is_finite (fb - amount)); [|discriminate]. cbv zeta.
  destruct (is_finite (tb + amount)); [|discriminate].
  intros [= <-]. exists fb, tb. auto.
Qed.

(** What a successful operation writes besides the loan it is invoked on:
    nothing, or the two balance records of its transfer. *)
Lemma dispatch_frame {runtime : GoRuntime} op txid ts w w' key :
  invoke (dispatch op) txid ts w = (Ok tt, w') ->
  key <> target op ->
  w' !! key = w !! key \/ exists b, w' !! key = Some (DocBalance b).
Proof.
  unfold invoke. intros Hinv Hne.
  assert (Hone : forall d, <[target op := d]> w !! key = w !! key)
    by (intros d; apply lookup_insert_ne; congruence).
  assert (Htransfer : forall from to amount s1 d,
             TransferTokens from to amount (mkStub w ∅ txid ts) = (Ok tt, s1) ->
             <[target op := d]> (commit s1) !! key = w !! key
             \/ exists b, <[target op := d]> (commit s1) !! key = Some (DocBalance b)).
  { intros from to amount s1 d Ht.
    destruct (TransferTokens_Ok _ _ _ _ _ Ht) as (fb & tb & _ & _ & _ & ->).
    rewrite lookup_insert_ne by congruence.
    rewrite !commit_put, commit_fresh.
    destruct (decide (to = key)) as [->|Hto].
    { right. rewrite lookup_insert_eq. eauto. }
    rewrite lookup_insert_ne by exact Hto.
    destruct (decide (from = key)) as [->|Hfrom].
    { right. rewrite lookup_insert_eq. eauto. }
    left. apply lookup_insert_ne. exact Hfrom. }
  destruct op as [loanID borrowerID amount rate duration collateral
                 |loanID lenderID|loanID|loanID amount|loanID|loanID collateral];
    cbn [dispatch target] in *.
  - rewrite RequestLoan_eq in Hinv. cbn [state TxID TxTimestamp] in Hinv.
    destruct (w !! loanID); [discriminate|]. cbv zeta in Hinv.
    destruct (finiteLoan _); [|discriminate].
    injection Hinv as <-. rewrite commit_put, commit_fresh. left. apply Hone.
  - rewrite ApproveLoan_eq in Hinv. cbn [state TxID] in Hinv.
    destruct (loanIn w loanID) as [loan|e]; [|discriminate].
    destruct (decide (Status loan <> "PENDING")); [discriminate|].
    destruct (balanceIn w lenderID) as [b|e]; [|discriminate].
    destruct (b <? Amount loan)%float; [discriminate|].
    injection Hinv as <-. rewrite commit_put, commit_fresh. left. apply Hone.
  - rewrite DisburseLoan_eq in Hinv. cbn [state TxID TxTimestamp] in Hinv.
    destruct (loanIn w loanID) as [loan|e]; [|discriminate].
    destruct (decide (Status loan <> "APPROVED")); [discriminate|].
    destruct (TransferTokens _ _ _ _) as [[[]|e] s1] eqn:Ht; [|discriminate].
    injection Hinv as <-. rewrite commit_put. exact (Htransfer _ _ _ _ _ Ht).
  - rewrite RepayLoan_eq in Hinv. cbn [state TxID] in Hinv.
    destruct (loanIn w loanID) as [loan|e]; [|discriminate].
    destruct (decide (Status loan <> "ACTIVE")); [discriminate|].
    destruct (RemainingBalance loan <? amount)%float; [discriminate|].
    destruct (TransferTokens _ _ _ _) as [[[]|e] s1] eqn:Ht; [|discriminate].
    destruct (is_finite _); [|discriminate].
    injection Hinv as <-. rewrite commit_put. exact (Htransfer _ _ _ _ _ Ht).
  - rewrite MarkAsDefaulted_eq in Hinv. cbn [state TxID] in Hinv.
    destruct (loanIn w loanID) as [loan|e]; [|discriminate].
    destruct (decide (Status loan <> "ACTIVE")); [discriminate|].
    injection Hinv as <-. rewrite commit_put, commit_fresh. left. apply Hone.
  - rewrite AddCollateral_eq in Hinv. cbn [state TxID] in Hinv.
    destruct (loanIn w loanID) as [loan|e]; [|discriminate].
    injection Hinv as <-. rewrite commit_put, commit_fresh. left. apply Hone.
Qed.

(** What a successful operation writes besides the loan it is invoked on:
    nothing, except that [DisburseLoan] and [RepayLoan] write balance
    records under the lender and borrower ids of their loan. *)
Lemma dispatch_frame_accounts {runtime : GoRuntime} op txid ts w w' key :
  invoke (dispatch op) txid ts w = (Ok tt, w') ->
  key <> target op ->
  w' !! key = w !! key
  \/ exists b loan0,
       w' !! key = Some (DocBalance b)
       /\ loanIn w (target op) = Ok loan0
       /\ (key = LenderID loan0 \/ key = BorrowerID loan0)
       /\ (op = OpDisburseLoan (target op)
           \/ exists amount, op = OpRepayLoan (target op) amount).
Proof.
  unfold invoke. intros Hinv Hne.
  assert (Hone : forall d, <[target op := d]> w !! key = w !! key)
    by (intros d; apply lookup_insert_ne; congruence).
  assert (Htransfer : forall from to amount s1 d,
             TransferTokens from to amount (mkStub w ∅ txid ts) = (Ok tt, s1) ->
             <[target op := d]> (commit s1) !! key = w !! key
             \/ exists b, <[target op := d]> (commit s1) !! key = Some (DocBalance b)
                          /\ (key = from \/ key = to)).
  { intros from to amount s1 d Ht.
    destruct (TransferTokens_Ok _ _ _ _ _ Ht) as (fb & tb & _ & _ & _ & ->).
    rewrite lookup_insert_ne by congruence.
    rewrite !commit_put, commit_fresh.
    destruct (decide (to = key)) as [->|Hto].
    { right. rewrite lookup_insert_eq. eauto. }
    rewrite lookup_insert_ne by exact Hto.
    destruct (decide (from = key)) as [->|Hfrom].
    { right. rewrite lookup_insert_eq. eauto. }
    left. apply lookup_insert_ne. exact Hfrom. }
  destruct op as [loanID borrowerID amount rate duration collateral
                 |loanID lenderID|loanID|loanID amount|loanID|loanID collateral];
    cbn [dispatch target] in *.
  - rewrite RequestLoan_eq in Hinv. cbn [state TxID TxTimestamp] in Hinv.
    destruct (w !! loanID); [discriminate|]. cbv zeta in Hinv.
    destruct (finiteLoan _); [|discriminate].
    injection Hinv as <-. rewrite commit_put, commit_fresh. left. apply Hone.
  - rewrite ApproveLoan_eq in Hinv. cbn [state TxID] in Hinv.
    destruct (loanIn w loanID) as [loan|e]; [|discriminate].
    destruct (decide (Status loan <> "PENDING")); [discriminate|].
    destruct (balanceIn w lenderID) as [b|e]; [|discriminate].
    destruct (b <? Amount loan)%float; [discriminate|].
    injection Hinv as <-. rewrite commit_put, commit_fresh. left. apply Hone.
  - rewrite DisburseLoan_eq in Hinv. cbn [state TxID TxTimestamp] in Hinv.
    destruct (loanIn w loanID) as [loan|e]; [|discriminate].
    destruct (decide (Status loan <> "APPROVED")); [discriminate|].
    destruct (TransferTokens _ _ _ _) as [[[]|e] s1] eqn:Ht; [|discriminate].
    injection Hinv as <-. rewrite commit_put.
    destruct (Htransfer _ _ _ _ (DocLoan (disbursedLoan txid ts loan)) Ht)
      as [Heq|(b & Hb & Hk)]; [left; exact Heq|].
    right. exists b, loan. repeat split; auto.
  - rewrite RepayLoan_eq in Hinv. cbn [state TxID] in Hinv.
    destruct (loanIn w loanID) as [loan|e]; [|discriminate].
    destruct (decide (Status loan <> "ACTIVE")); [discriminate|].
    destruct (RemainingBalance loan <? amount)%float; [discriminate|].
    destruct (TransferTokens _ _ _ _) as [[[]|e] s1] eqn:Ht; [|discriminate].
    destruct (is_finite _); [|discriminate].
    injection Hinv as <-. rewrite commit_put.
    destruct (Htransfer _ _ _ _ (DocLoan (repaidLoan amount txid loan)) Ht)
      as [Heq|(b & Hb & Hk)]; [left; exact Heq|].
    right. exists b, loan. repeat split; eauto. tauto.
  - rewrite MarkAsDefaulted_eq in Hinv. cbn [state TxID] in Hinv.
    destruct (loanIn w loanID) as [loan|e]; [|discriminate].
    destruct (decide (Status loan <> "ACTIVE")); [discriminate|].
    injection Hinv as <-. rewrite commit_put, commit_fresh. left. apply Hone.
  - rewrite AddCollateral_eq in Hinv. cbn [state TxID] in Hinv.
    destruct (loanIn w loanID) as [loan|e]; [|discriminate].
    injection Hinv as <-. rewrite commit_put, commit_fresh. left. apply Hone.
Qed.

(** A key whose record is kept reads as before; a key overwritten with a
    balance record reads as the zero loan. *)
Lemma loanIn_kept w w' key : w' !! key = w !! key -> loanIn w' key = loanIn w key.
Proof. intros Heq. rewrite !loanIn_eq, Heq. reflexivity. Qed.

Lemma loanIn_overwritten w key b : w !! key = Some (DocBalance b) -> loanIn w key = Ok zeroLoan.
Proof. intros Hk. rewrite loanIn_eq, Hk. reflexivity. Qed.

(** The operation's own loan, for operations whose amounts are not
    negative: a new loan starts in range with remainingBalance =
    repaymentDue, a loan it finds keeps repaymentDue and the range, and its
    remainingBalance does not increase. *)
Lemma remainingBalance_step {runtime : GoRuntime} op txid ts w w' :
  nonnegativeAmounts op = true ->
  invoke (dispatch op) txid ts w = (Ok tt, w') ->
  exists loan',
    loanIn w' (target op) = Ok loan'
    /\ match loanIn w (target op) with
       | Ok loan =>
           RepaymentDue loan' = RepaymentDue loan
           /\ (balance_in_range loan ->
               balance_in_range loan'
               /\ (RemainingBalance loan' <=? RemainingBalance loan)%float = true)
       | Err _ =>
           RemainingBalance loan' = RepaymentDue loan' /\ balance_in_range loan'
       end.
Proof.
  intros Hnn. unfold invoke.
  destruct op as [loanID borrowerID amount rate duration collateral
                 |loanID lenderID|loanID|loanID amount|loanID|loanID collateral];
    cbn [dispatch target nonnegativeAmounts] in *.
  - (* RequestLoan *)
    rewrite RequestLoan_eq. cbn [state TxID TxTimestamp].
    rewrite (loanIn_eq w loanID).
    destruct (w !! loanID) eqn:Hw; [discriminate|]. cbv zeta.
    set (loan := requestedLoan _ _ _ _ _ _ _ _).
    destruct (finiteLoan loan) eqn:Hf; [|discriminate].
    intros [= <-]. rewrite commit_put, commit_fresh.
    exists loan. split; [apply loanIn_insert; exact Hf|].
    split; [reflexivity|].
    apply andb_prop in Hnn as [Ha Hr].
    destruct (finiteLoan_fields _ Hf) as (_ & _ & Hdue & _).
    split.
    + apply due_nonneg; assumption.
    + apply leb_refl_finite. exact Hdue.
  - (* ApproveLoan *)
    rewrite ApproveLoan_eq. cbn [state TxID].
    destruct (loanIn w loanID) as [loan|e] eqn:Hl; [|discriminate].
    destruct (decide (Status loan <> "PENDING")); [discriminate|].
    destruct (balanceIn w lenderID) as [b|e]; [|discriminate].
    destruct (b <? Amount loan)%float; [discriminate|].
    intros [= <-]. rewrite commit_put, commit_fresh.
    pose proof (loanIn_finite _ _ _ Hl) as Hf.
    eexists. split; [apply loanIn_insert; rewrite finite_approvedLoan; exact Hf|].
    apply balance_in_range_same; auto.
  - (* DisburseLoan *)
    rewrite DisburseLoan_eq. cbn [state TxID TxTimestamp].
    destruct (loanIn w loanID) as [loan|e] eqn:Hl; [|discriminate].
    destruct (decide (Status loan <> "APPROVED")); [discriminate|].
    destruct (TransferTokens _ _ _ _) as [[[]|e] s1]; [|discriminate].
    intros [= <-]. rewrite commit_put.
    pose proof (loanIn_finite _ _ _ Hl) as Hf.
    eexists. split; [apply loanIn_insert; rewrite finite_disbursedLoan; exact Hf|].
    apply balance_in_range_same; auto.
  - (* RepayLoan *)
    rewrite RepayLoan_eq. cbn [state TxID].
    destruct (loanIn w loanID) as [loan|e] eqn:Hl; [|discriminate].
    destruct (decide (Status loan <> "ACTIVE")); [discriminate|].
    destruct (RemainingBalance loan <? amount)%float eqn:Hlt; [discriminate|].
    destruct (TransferTokens _ _ _ _) as [[[]|e] s1]; [|discriminate].
    destruct (is_finite (RemainingBalance loan - amount)) eqn:Hdf; [|discriminate].
    intros [= <-]. rewrite commit_put.
    pose proof (loanIn_finite _ _ _ Hl) as Hf.
    destruct (finiteLoan_fields _ Hf) as (_ & _ & Hdue & Hrem).
    eexists. split.
    { apply loanIn_insert. rewrite finite_repaidLoan by exact Hf. exact Hdf. }
    rewrite RepaymentDue_repaidLoan. split; [reflexivity|].
    unfold balance_in_range.
    rewrite RemainingBalance_repaidLoan, RepaymentDue_repaidLoan.
    intros [_ Hrange].
    destruct (ltb_false_leb _ _ Hrem Hnn Hlt) as [Hafin Hle].
    destruct (sub_nonneg_le _ _ Hrem Hafin Hnn Hle) as (_ & H0 & Hsub).
    repeat split; auto.
    apply (leb_trans _ (RemainingBalance loan)); auto.
  - (* MarkAsDefaulted *)
    rewrite MarkAsDefaulted_eq. cbn [state TxID].
    destruct (loanIn w loanID) as [loan|e] eqn:Hl; [|discriminate].
    destruct (decide (Status loan <> "ACTIVE")); [discriminate|].
    intros [= <-]. rewrite commit_put, commit_fresh.
    pose proof (loanIn_finite _ _ _ Hl) as Hf.
    eexists. split; [apply loanIn_insert; rewrite finite_defaultedLoan; exact Hf|].
    apply balance_in_range_same; auto.
  - (* AddCollateral *)
    rewrite AddCollateral_eq. cbn [state TxID].
    destruct (loanIn w loanID) as [loan|e] eqn:Hl; [|discriminate].
    intros [= <-]. rewrite commit_put, commit_fresh.
    pose proof (loanIn_finite _ _ _ Hl) as Hf.
    eexists. split; [apply loanIn_insert; rewrite finite_collateralLoan; exact Hf|].
    apply balance_in_range_same; auto.
Qed.

(** C3, as the code has it: for operations whose amounts are not negative,
    a loan starts with remainingBalance = repaymentDue and
    0 <= remainingBalance <= repaymentDue, and every later successful
    operation on it keeps repaymentDue, keeps the range and does not
    increase remainingBalance.  The record under another key is left as it
    was, except that [DisburseLoan] and [RepayLoan] write balance records
    under the lender and borrower ids of their loan: a loan stored under
    such a key then reads as the zero loan, so that for every key the range
    is kept and remainingBalance does not increase. *)
Theorem remainingBalance_in_range {runtime : GoRuntime} op txid ts w w' :
  nonnegativeAmounts op = true ->
  invoke (dispatch op) txid ts w = (Ok tt, w') ->
  (exists loan',
      loanIn w' (target op) = Ok loan'
      /\ match loanIn w (target op) with
         | Ok loan =>
             RepaymentDue loan' = RepaymentDue loan
             /\ (balance_in_range loan ->
                 balance_in_range loan'
                 /\ (RemainingBalance loan' <=? RemainingBalance loan)%float = true)
         | Err _ =>
             RemainingBalance loan' = RepaymentDue loan' /\ balance_in_range loan'
         end)
  /\ (forall key,
        key <> target op ->
        w' !! key = w !! key
        \/ exists b loan0,
             w' !! key = Some (DocBalance b)
             /\ loanIn w (target op) = Ok loan0
             /\ (key = LenderID loan0 \/ key = BorrowerID loan0)
             /\ (op = OpDisburseLoan (target op)
                 \/ exists amount, op = OpRepayLoan (target op) amount))
  /\ (forall key loan,
        key <> target op ->
        loanIn w key = Ok loan ->
        exists loan',
          loanIn w' key = Ok loan'
          /\ (loan' = loan \/ loan' = zeroLoan)
          /\ (balance_in_range loan ->
              balance_in_range loan'
              /\ (RemainingBalance loan' <=? RemainingBalance loan)%float = true)).
Proof.
  intros Hnn Hinv. split; [|split].
  - exact (remainingBalance_step op txid ts w w' Hnn Hinv).
  - intros key. exact (dispatch_frame_accounts op txid ts w w' key Hinv).
  - intros key loan Hne Hl.
    destruct (dispatch_frame_accounts op txid ts w w' key Hinv Hne)
      as [Heq|(b & loan0 & Hb & _)].
    + exists loan. rewrite (loanIn_kept _ _ _ Heq). split; [exact Hl|].
      split; [left; reflexivity|]. intros Hin. split; [exact Hin|].
      apply leb_refl_finite. apply (finiteLoan_fields _ (loanIn_finite _ _ _ Hl)).
    + exists zeroLoan. split; [exact (loanIn_overwritten _ _ _ Hb)|].
      split; [right; reflexivity|]. intros [H0 _].
      split; [split; reflexivity|exact H0].
Qed.

Lemma remainingBalance_in_range_witness :
  exists loan',
    loanIn (snd (invoke (@dispatch utcRuntime (OpRepayLoan "L1" 400))
                   "tx4" 1700000240 active)) "L1" = Ok loan'
    /\ match loanIn active "L1" with
       | Ok loan =>
           RepaymentDue loan' = RepaymentDue loan
           /\ (balance_in_range loan ->
               balance_in_range loan'
               /\ (RemainingBalance loan' <=? RemainingBalance loan)%float = true)
       | Err _ =>
           RemainingBalance loan' = RepaymentDue loan' /\ balance_in_range loan'
       end.
Proof.
  exact (proj1 (@remainingBalance_in_range utcRuntime (OpRepayLoan "L1" 400)
                  "tx4" 1700000240 active
                  (snd (invoke (@dispatch utcRuntime (OpRepayLoan "L1" 400))
                          "tx4" 1700000240 active))
                  ltac:(reflexivity) ltac:(vm_compute; reflexivity))).
Defined.

(** C3 as stated fails: a repayment of -500 on the active loan L1 raises
    its remainingBalance from 1100 to 1600, above repaymentDue = 1100; and
    a loan requested for the amount -1000 starts with remainingBalance
    -1100. *)
Lemma negative_repayment_counterexample :
  match loanIn active "L1" with
  | Ok loan => Status loan = "ACTIVE" /\ RemainingBalance loan = 1100%float
  | Err _ => False
  end
  /\ fst (invoke (@RepayLoan utcRuntime "L1" (-500)) "tx4" 1700000240 active) = Ok tt
  /\ match loanIn (snd (invoke (@RepayLoan utcRuntime "L1" (-500))
                          "tx4" 1700000240 active)) "L1" with
     | Ok loan =>
         RemainingBalance loan = 1600%float /\ RepaymentDue loan = 1100%float
     | Err _ => False
     end
  /\ (1600 <=? 1100)%float = false
  /\ fst (invoke (@RequestLoan utcRuntime "L2" "B2" (-1000) 10 12 "")
            "tx5" 1700000300 genesis) = Ok tt
  /\ match loanIn (snd (invoke (@RequestLoan utcRuntime "L2" "B2" (-1000) 10 12 "")
                          "tx5" 1700000300 genesis)) "L2" with
     | Ok loan => RemainingBalance loan = (-1100)%float
     | Err _ => False
     end
  /\ (0 <=? -1100)%float = false.
Proof. vm_compute. repeat split; reflexivity. Qed.

(** The exception of C3 occurs: loan L2 names "L1", the key of the active
    loan L1, as its borrower; its disbursement writes the borrower's balance
    record under "L1", and L1, whose repaymentDue and remainingBalance were
    1100, reads with both at 0. *)
Example disbursement_overwrites_loan :
  match loanIn approvedOnLoanKey "L1" with
  | Ok loan => RepaymentDue loan = 1100%float /\ RemainingBalance loan = 1100%float
  | Err _ => False
  end
  /\ fst (invoke (DisburseLoan "L2") "tx7" 1700000420 approvedOnLoanKey) = Ok tt
  /\ snd (invoke (DisburseLoan "L2") "tx7" 1700000420 approvedOnLoanKey) !! "L1"
     = Some (DocBalance (mkTokenBalance "L1" 5))
  /\ loanIn (snd (invoke (DisburseLoan "L2") "tx7" 1700000420 approvedOnLoanKey)) "L1"
     = Ok zeroLoan.
Proof.
  split; [vm_compute; split; reflexivity|].
  repeat (split; [vm_compute; reflexivity|]). vm_compute. reflexivity.
Qed.

(** ** C4: the status of a loan only moves forward *)

Lemma Status_repaidLoan {runtime : GoRuntime} amount txid loan :
  Status (repaidLoan amount txid loan)
  = if (RemainingBalance loan - amount <=? 0)%float then "REPAID" else Status loan.
Proof.
  unfold repaidLoan. cbv zeta.
  destruct (RemainingBalance loan - amount <=? 0)%float; reflexivity.
Qed.

(** The operation's own loan: success implies the required status, and the
    status stays or moves one edge; a wrong status is rejected. *)
Lemma status_step {runtime : GoRuntime} op txid ts w :
  (forall w' loan,
      loanIn w (target op) = Ok loan ->
      invoke (dispatch op) txid ts w = (Ok tt, w') ->
      (forall st, required op = Some st -> Status loan = st)
      /\ exists loan',
           loanIn w' (target op) = Ok loan'
           /\ (Status loan' = Status loan \/ forward (Status loan) (Status loan')))
  /\ (forall s loan st,
        required op = Some st ->
        loanIn (state s) (target op) = Ok loan ->
        Status loan <> st ->
        exists e,
          dispatch op s = (Err e, s) /\ kind e = InvalidStateTransition
          /\ invoke (dispatch op) (TxID s) (TxTimestamp s) (state s)
             = (Err e, state s)).
Proof.
  split.
  - intros w' loan Hl. unfold invoke.
    pose proof (loanIn_finite _ _ _ Hl) as Hf.
    destruct op as [loanID borrowerID amount rate duration collateral
                   |loanID lenderID|loanID|loanID amount|loanID|loanID collateral];
      cbn [dispatch target required] in *.
    + rewrite RequestLoan_eq. cbn [state].
      rewrite loanIn_eq in Hl. destruct (w !! loanID); discriminate.
    + rewrite ApproveLoan_eq. cbn [state TxID]. rewrite Hl.
      destruct (decide (Status loan <> "PENDING")) as [|Hs]; [discriminate|].
      destruct (balanceIn w lenderID) as [b|e]; [|discriminate].
      destruct (b <? Amount loan)%float; [discriminate|].
      intros [= <-]. rewrite commit_put, commit_fresh.
      assert (Hst : Status loan = "PENDING")
        by (destruct (decide (Status loan = "PENDING")); tauto).
      split; [intros st [= <-]; exact Hst|].
      eexists. split; [apply loanIn_insert; rewrite finite_approvedLoan; exact Hf|].
      right. left. split; [exact Hst|reflexivity].
    + rewrite DisburseLoan_eq. cbn [state TxID TxTimestamp]. rewrite Hl.
      destruct (decide (Status loan <> "APPROVED")) as [|Hs]; [discriminate|].
      destruct (TransferTokens _ _ _ _) as [[[]|e] s1]; [|discriminate].
      intros [= <-]. rewrite commit_put.
      assert (Hst : Status loan = "APPROVED")
        by (destruct (decide (Status loan = "APPROVED")); tauto).
      split; [intros st [= <-]; exact Hst|].
      eexists. split; [apply loanIn_insert; rewrite finite_disbursedLoan; exact Hf|].
      right. right. left. split; [exact Hst|reflexivity].
    + rewrite RepayLoan_eq. cbn [state TxID]. rewrite Hl.
      destruct (decide (Status loan <> "ACTIVE")) as [|Hs]; [discriminate|].
      destruct (RemainingBalance loan <? amount)%float; [discriminate|].
      destruct (TransferTokens _ _ _ _) as [[[]|e] s1]; [|discriminate].
      destruct (is_finite (RemainingBalance loan - amount)) eqn:Hdf; [|discriminate].
      intros [= <-]. rewrite commit_put.
      assert (Hst : Status loan = "ACTIVE")
        by (destruct (decide (Status loan = "ACTIVE")); tauto).
      split; [intros st [= <-]; exact Hst|].
      eexists. split.
      { apply loanIn_insert. rewrite finite_repaidLoan by exact Hf. exact Hdf. }
      rewrite Status_repaidLoan.
      destruct (RemainingBalance loan - amount <=? 0)%float; [|left; reflexivity].
      right. right. right. left. split; [exact Hst|reflexivity].
    + rewrite MarkAsDefaulted_eq. cbn [state TxID]. rewrite Hl.
      destruct (decide (Status loan <> "ACTIVE")) as [|Hs]; [discriminate|].
      intros [= <-]. rewrite commit_put, commit_fresh.
      assert (Hst : Status loan = "ACTIVE")
        by (destruct (decide (Status loan = "ACTIVE")); tauto).
      split; [intros st [= <-]; exact Hst|].
      eexists. split; [apply loanIn_insert; rewrite finite_defaultedLoan; exact Hf|].
      right. right. right. right. split; [exact Hst|reflexivity].
    + rewrite AddCollateral_eq. cbn [state TxID]. rewrite Hl.
      intros [= <-]. rewrite commit_put, commit_fresh.
      split; [discriminate|].
      eexists. split; [apply loanIn_insert; rewrite finite_collateralLoan; exact Hf|].
      left. reflexivity.
  - intros s loan st Hreq Hl Hne. unfold invoke.
    assert (Hs0 : state (mkStub (state s) ∅ (TxID s) (TxTimestamp s)) = state s)
      by reflexivity.
    destruct op as [loanID borrowerID amount rate duration collateral
                   |loanID lenderID|loanID|loanID amount|loanID|loanID collateral];
      cbn [dispatch target required] in *; try discriminate;
      injection Hreq as <-.
    + rewrite !ApproveLoan_eq, Hs0, Hl.
      destruct (decide (Status loan <> "PENDING")); [|contradiction].
      eexists. repeat split.
    + rewrite !DisburseLoan_eq, Hs0, Hl.
      destruct (decide (Status loan <> "APPROVED")); [|contradiction].
      eexists. repeat split.
    + rewrite !RepayLoan_eq, Hs0, Hl.
      destruct (decide (Status loan <> "ACTIVE")); [|contradiction].
      eexists. repeat split.
    + rewrite !MarkAsDefaulted_eq, Hs0, Hl.
      destruct (decide (Status loan <> "ACTIVE")); [|contradiction].
      eexists. repeat split.
Qed.

(** C4, as the code has it: a successful operation on a loan finds it in
    the status the operation requires and leaves its status where it was or
    one edge further along PENDING -> APPROVED -> ACTIVE -> REPAID |
    DEFAULTED; ApproveLoan, DisburseLoan, RepayLoan or MarkAsDefaulted
    invoked on a loan in another status fails with InvalidStateTransition
    and writes nothing.  The record under another key is left as it was,
    except that [DisburseLoan] and [RepayLoan] write balance records under
    the lender and borrower ids of their loan: a loan stored under such a
    key is lost, and the key then reads as a loan with the empty status. *)
Theorem status_moves_forward {runtime : GoRuntime} op txid ts w :
  (forall w' loan,
      loanIn w (target op) = Ok loan ->
      invoke (dispatch op) txid ts w = (Ok tt, w') ->
      (forall st, required op = Some st -> Status loan = st)
      /\ exists loan',
           loanIn w' (target op) = Ok loan'
           /\ (Status loan' = Status loan \/ forward (Status loan) (Status loan')))
  /\ (forall s loan st,
        required op = Some st ->
        loanIn (state s) (target op) = Ok loan ->
        Status loan <> st ->
        exists e,
          dispatch op s = (Err e, s) /\ kind e = InvalidStateTransition
          /\ invoke (dispatch op) (TxID s) (TxTimestamp s) (state s)
             = (Err e, state s))
  /\ (forall w' key,
        invoke (dispatch op) txid ts w = (Ok tt, w') ->
        key <> target op ->
        (w' !! key = w !! key /\ loanIn w' key = loanIn w key)
        \/ exists b loan0,
             w' !! key = Some (DocBalance b)
             /\ loanIn w' key = Ok zeroLoan
             /\ Status zeroLoan = ""
             /\ loanIn w (target op) = Ok loan0
             /\ (key = LenderID loan0 \/ key = BorrowerID loan0)
             /\ (op = OpDisburseLoan (target op)
                 \/ exists amount, op = OpRepayLoan (target op) amount)).
Proof.
  destruct (status_step op txid ts w) as [Hstep Hreject].
  split; [exact Hstep|]. split; [exact Hreject|].
  intros w' key Hinv Hne.
  destruct (dispatch_frame_accounts op txid ts w w' key Hinv Hne)
    as [Heq|(b & loan0 & Hb & Hl0 & Hk & Hop)].
  - left. split; [exact Heq|exact (loanIn_kept _ _ _ Heq)].
  - right. exists b, loan0. split; [exact Hb|].
    split; [exact (loanIn_overwritten _ _ _ Hb)|]. auto.
Qed.

Lemma status_moves_forward_witness :
  ((forall st, required (OpApproveLoan "L1" "HDFC") = Some st -> Status loanL1 = st)
   /\ exists loan',
        loanIn approved "L1" = Ok loan'
        /\ (Status loan' = Status loanL1 \/ forward (Status loanL1) (Status loan')))
  /\ exists e,
       @dispatch utcRuntime (OpMarkAsDefaulted "L1")
         (mkStub requested ∅ "tx2" 1700000120)
       = (Err e, mkStub requested ∅ "tx2" 1700000120)
       /\ kind e = InvalidStateTransition
       /\ invoke (@dispatch utcRuntime (OpMarkAsDefaulted "L1"))
            "tx2" 1700000120 requested
          = (Err e, requested).
Proof.
  split.
  - apply (proj1 (@status_moves_forward utcRuntime (OpApproveLoan "L1" "HDFC")
                    "tx2" 1700000120 requested)).
    + vm_compute. reflexivity.
    + vm_compute. reflexivity.
  - apply (proj1 (proj2 (@status_moves_forward utcRuntime (OpMarkAsDefaulted "L1")
                           "tx2" 1700000120 requested))
             (mkStub requested ∅ "tx2" 1700000120) loanL1 "ACTIVE").
    + reflexivity.
    + vm_compute. reflexivity.
    + discriminate.
Defined.

(** C4 as stated fails: loan L1 is ACTIVE; loan L2, whose borrower id is
    "L1", is APPROVED.  The disbursement of L2 succeeds, and afterwards
    [CheckLoanStatus] returns the empty status for L1: neither ACTIVE nor a
    status ACTIVE leads to. *)
Lemma status_overwritten_counterexample :
  CheckLoanStatus "L1" (mkStub approvedOnLoanKey ∅ "tx7" 1700000420)
  = (Ok "ACTIVE", mkStub approvedOnLoanKey ∅ "tx7" 1700000420)
  /\ CheckLoanStatus "L2" (mkStub approvedOnLoanKey ∅ "tx7" 1700000420)
     = (Ok "APPROVED", mkStub approvedOnLoanKey ∅ "tx7" 1700000420)
  /\ fst (invoke (DisburseLoan "L2") "tx7" 1700000420 approvedOnLoanKey) = Ok tt
  /\ fst (CheckLoanStatus "L1"
            (mkStub (snd (invoke (DisburseLoan "L2") "tx7" 1700000420 approvedOnLoanKey))
               ∅ "tx8" 1700000480))
     = Ok ""
  /\ (if decide ("" = "ACTIVE" \/ forward "ACTIVE" "") then true else false) = false.
Proof. repeat (split; [vm_compute; reflexivity|]). vm_compute. reflexivity. Qed.

(** ** C5: repayment *)

Lemma balanceIn_insert w account b :
  is_finite b = true ->
  balanceIn (<[account := DocBalance (mkTokenBalance account b)]> w) account = Ok b.
Proof.
  intros Hf. rewrite balanceIn_eq, lookup_insert_eq. cbn. rewrite Hf. reflexivity.
Qed.

Lemma balanceIn_insert_ne w key d account :
  key <> account -> balanceIn (<[key := d]> w) account = balanceIn w account.
Proof. intros Hne. rewrite !balanceIn_eq, lookup_insert_ne by exact Hne. reflexivity. Qed.

(** A key that reads as a loan with a status holds a loan document, and a
    loan document reads as the balance 0. *)
Lemma loanIn_doc w loanID loan :
  loanIn w loanID = Ok loan -> Status loan <> "" -> w !! loanID = Some (DocLoan loan).
Proof.
  rewrite loanIn_eq. destruct (w !! loanID) as [[l|b]|]; cbn; try discriminate.
  - destruct (finiteLoan l); [|discriminate]. congruence.
  - intros [= <-]. cbn. congruence.
Qed.


(** A transfer of a non-negative amount the source can afford goes through
    as soon as the credited balance is a finite number. *)
Lemma TransferTokens_succeeds from to amount s fromBalance toBalance :
  balanceIn (state s) from = Ok fromBalance ->
  fst (recipientBalance to s) = Ok toBalance ->
  (0 <=? amount)%float = true ->
  (amount <=? fromBalance)%float = true ->
  is_finite (toBalance + amount) = true ->
  is_finite (fromBalance - amount) = true
  /\ TransferTokens from to amount s
     = (Ok tt,
        put to (DocBalance (mkTokenBalance to (toBalance + amount)))
          (put from (DocBalance (mkTokenBalance from (fromBalance - amount))) s)).
Proof.
  intros Hfrom Hto H0 Hle Hfin.
  pose proof (balanceIn_finite _ _ _ Hfrom) as Hffin.
  pose proof (leb_finite_below _ _ H0 Hle Hffin) as Hafin.
  destruct (sub_nonneg_le _ _ Hffin Hafin H0 Hle) as (Hdfin & _ & _).
  split; [exact Hdfin|].
  rewrite TransferTokens_eq, Hfrom, Hto.
  rewrite (leb_ltb_false _ _ Hffin Hafin Hle), Hdfin. cbv zeta. rewrite Hfin.
  reflexivity.
Qed.




(** ** C6: requesting a loan *)

(** C6, as the code has it: on a key with no record, when
    amount * (1 + rate/100), computed in binary64, is a finite number,
    [RequestLoan] writes a PENDING loan with repaymentDue = remainingBalance
    = that number and a one-entry audit history; when it is not,
    [json.Marshal] refuses the record and [RequestLoan] fails with that
    error and writes nothing.  On a key that holds a record it fails with
    AlreadyExists and writes nothing.  For
    ("L1", "B1", 1000, 10, 12, "car") both amounts are 1100. *)
Theorem RequestLoan_creates {runtime : GoRuntime}
    loanID borrowerID amount interestRate duration collateral s :
  (state s !! loanID = None ->
   is_finite (amount * (1 + interestRate / 100)) = true ->
   let loan :=
     requestedLoan loanID borrowerID amount interestRate duration collateral
       (TxID s) (TxTimestamp s) in
   RequestLoan loanID borrowerID amount interestRate duration collateral s
   = (Ok tt, put loanID (DocLoan loan) s)
   /\ loanIn (commit (put loanID (DocLoan loan) s)) loanID = Ok loan
   /\ Status loan = "PENDING"
   /\ RepaymentDue loan = (amount * (1 + interestRate / 100))%float
   /\ RemainingBalance loan = (amount * (1 + interestRate / 100))%float
   /\ AuditHistory loan
      = ["Loan requested by " +:+ borrowerID +:+ " (TxID: " +:+ TxID s +:+ ")"])
  /\ (forall d, state s !! loanID = Some d ->
        RequestLoan loanID borrowerID amount interestRate duration collateral s
        = (Err (ErrLoanExists loanID), s)
        /\ kind (ErrLoanExists loanID) = AlreadyExists)
  /\ (let loan :=
        requestedLoan "L1" "B1" 1000 10 12 "car" (TxID s) (TxTimestamp s) in
      RepaymentDue loan = 1100%float /\ RemainingBalance loan = 1100%float
      /\ Status loan = "PENDING")
  /\ (state s !! loanID = None ->
      is_finite (amount * (1 + interestRate / 100)) = false ->
      RequestLoan loanID borrowerID amount interestRate duration collateral s
      = (Err ErrJSON, s)
      /\ invoke (RequestLoan loanID borrowerID amount interestRate duration collateral)
           (TxID s) (TxTimestamp s) (state s)
         = (Err ErrJSON, state s)
      /\ kind ErrJSON = SerializationError).
Proof.
  split; [|split; [|split]].
  - intros Hnone Hd loan.
    destruct (due_finite_inv _ _ Hd) as [Ha Hr].
    assert (Hf : finiteLoan loan = true).
    { unfold finiteLoan, loan. cbn. rewrite Ha, Hr, Hd. reflexivity. }
    repeat split.
    + rewrite RequestLoan_eq, Hnone. cbv zeta. fold loan. rewrite Hf. reflexivity.
    + rewrite commit_put. apply loanIn_insert. exact Hf.
  - intros d Hd. rewrite RequestLoan_eq, Hd. split; reflexivity.
  - cbv zeta. repeat split.
  - intros Hnone Hd.
    assert (Hf : forall txid ts,
               finiteLoan (requestedLoan loanID borrowerID amount interestRate duration
                             collateral txid ts) = false).
    { intros txid ts. unfold finiteLoan. cbn [requestedLoan Amount InterestRate
        RepaymentDue RemainingBalance]. rewrite Hd. apply andb_false_r. }
    split; [|split; [|reflexivity]].
    + rewrite RequestLoan_eq, Hnone. cbv zeta. rewrite Hf. reflexivity.
    + unfold invoke. rewrite RequestLoan_eq. cbn [state TxID TxTimestamp].
      rewrite Hnone. cbv zeta. rewrite Hf. reflexivity.
Qed.

Lemma RequestLoan_creates_witness :
  @RequestLoan utcRuntime "L1" "B1" 1000 10 12 "car"
    (mkStub genesis ∅ "tx1" 1700000060)
  = (Ok tt, put "L1" (DocLoan loanL1) (mkStub genesis ∅ "tx1" 1700000060))
  /\ @RequestLoan utcRuntime "L1" "B1" 1000 10 12 "car"
       (mkStub requested ∅ "tx2" 1700000120)
     = (Err (ErrLoanExists "L1"), mkStub requested ∅ "tx2" 1700000120)
  /\ @RequestLoan utcRuntime "L9" "B1" 0x1p1023 200 12 "car"
       (mkStub genesis ∅ "tx1" 1700000060)
     = (Err ErrJSON, mkStub genesis ∅ "tx1" 1700000060).
Proof.
  split; [|split].
  - exact (proj1 (proj1 (@RequestLoan_creates utcRuntime "L1" "B1" 1000 10 12 "car"
                           (mkStub genesis ∅ "tx1" 1700000060))
                    ltac:(vm_compute; reflexivity) ltac:(reflexivity))).
  - exact (proj1 (proj1 (proj2 (@RequestLoan_creates utcRuntime
                                  "L1" "B1" 1000 10 12 "car"
                                  (mkStub requested ∅ "tx2" 1700000120)))
                    (DocLoan loanL1) ltac:(vm_compute; reflexivity))).
  - exact (proj1 (proj2 (proj2 (proj2 (@RequestLoan_creates utcRuntime
                                         "L9" "B1" 0x1p1023 200 12 "car"
                                         (mkStub genesis ∅ "tx1" 1700000060))))
                    ltac:(vm_compute; reflexivity) ltac:(reflexivity))).
Defined.

(** C6 as stated fails: the key "L9" holds no record, the amount 2^1023 and
    the rate 200 are finite numbers, but the repayment due overflows;
    [json.Marshal] refuses the record, [RequestLoan] returns that error and
    no loan is created. *)
Lemma RequestLoan_unencodable_due :
  genesis !! "L9" = None
  /\ is_finite 0x1p1023 = true
  /\ (0x1p1023 * (1 + 200 / 100))%float = infinity
  /\ invoke (@RequestLoan utcRuntime "L9" "B1" 0x1p1023 200 12 "car")
       "tx1" 1700000060 genesis
     = (Err ErrJSON, genesis)
  /\ kind ErrJSON = SerializationError.
Proof. repeat (split; [vm_compute; reflexivity|]). vm_compute. reflexivity. Qed.

(** ** C7: disbursement *)

(** C7, as the code has it: on an APPROVED loan [DisburseLoan] first runs
    the transfer of the loan amount from the lender to the borrower.  When
    the transfer fails, [DisburseLoan] returns the transfer's error, has
    issued no write of its own, and the invocation leaves the world state
    as it was.  When it succeeds, the loan is written after it with status
    ACTIVE, the disbursement timestamp and one more audit entry; in the
    committed state the borrower reads its previous balance (0 when it had
    no record) plus the amount, provided the borrower id is not the loan
    id, and the lender reads its previous balance minus the amount,
    provided the lender id is neither the borrower id nor the loan id;
    every key other than these three is unchanged.  When the borrower id is
    the loan id, the loan record is written over the credit and the
    borrower reads 0. *)
Theorem DisburseLoan_transfers_first loanID txid ts w loan :
  let s := mkStub w ∅ txid ts in
  loanIn w loanID = Ok loan ->
  Status loan = "APPROVED" ->
  match TransferTokens (LenderID loan) (BorrowerID loan) (Amount loan) s with
  | (Ok _, s1) =>
      let loan' := disbursedLoan txid ts loan in
      let w' := <[loanID := DocLoan loan']> (commit s1) in
      DisburseLoan loanID s = (Ok tt, put loanID (DocLoan loan') s1)
      /\ invoke (DisburseLoan loanID) txid ts w = (Ok tt, w')
      /\ loanIn w' loanID = Ok loan'
      /\ Status loan' = "ACTIVE"
      /\ DisbursementDate loan' = pretty ts
      /\ AuditHistory loan'
         = AuditHistory loan ++ ["Loan disbursed (TxID: " +:+ txid +:+ ")"]
      /\ exists lenderBalance borrowerBalance,
           balanceIn w (LenderID loan) = Ok lenderBalance
           /\ (lenderBalance <? Amount loan)%float = false
           /\ match w !! BorrowerID loan with
              | None => borrowerBalance = 0%float
              | Some _ => balanceIn w (BorrowerID loan) = Ok borrowerBalance
              end
           /\ s1 = put (BorrowerID loan)
                     (DocBalance (mkTokenBalance (BorrowerID loan)
                                    (borrowerBalance + Amount loan)))
                     (put (LenderID loan)
                        (DocBalance (mkTokenBalance (LenderID loan)
                                       (lenderBalance - Amount loan))) s)
           /\ (BorrowerID loan <> loanID ->
               balanceIn w' (BorrowerID loan)
               = Ok (borrowerBalance + Amount loan)%float)
           /\ (LenderID loan <> BorrowerID loan -> LenderID loan <> loanID ->
               balanceIn w' (LenderID loan)
               = Ok (lenderBalance - Amount loan)%float)
           /\ (BorrowerID loan = loanID ->
               balanceIn w' (BorrowerID loan) = Ok 0%float)
           /\ (forall key,
                 key <> loanID -> key <> LenderID loan -> key <> BorrowerID loan ->
                 w' !! key = w !! key)
  | (Err e, s1) =>
      DisburseLoan loanID s = (Err e, s1)
      /\ invoke (DisburseLoan loanID) txid ts w = (Err e, w)
      /\ loanIn w loanID = Ok loan
  end.
Proof.
  intros s Hl Hs.
  pose proof (loanIn_finite _ _ _ Hl) as Hf.
  unfold invoke. fold s. rewrite DisburseLoan_eq. cbn [state TxID TxTimestamp s].
  rewrite Hl. destruct (decide (Status loan <> "APPROVED")); [contradiction|].
  fold s.
  destruct (TransferTokens _ _ _ s) as [[[]|e] s1] eqn:Ht.
  - cbv zeta. rewrite commit_put. repeat split.
    + apply loanIn_insert. rewrite finite_disbursedLoan. exact Hf.
    + pose proof Ht as Ht'. rewrite TransferTokens_eq in Ht'. cbn [state s] in Ht'.
      destruct (TransferTokens_Ok _ _ _ _ _ Ht) as (fb & tb & Hfb & Htb & Hlt & ->).
      cbn [state s] in Hfb. rewrite Hfb, Hlt, Htb in Ht'.
      destruct (is_finite (fb - Amount loan)) eqn:Hdf; [|discriminate].
      cbv zeta in Ht'.
      destruct (is_finite (tb + Amount loan)) eqn:Hsf; [|discriminate].
      exists fb, tb. split; [exact Hfb|]. split; [exact Hlt|].
      split; [exact (recipientBalance_world_inv _ _ _ Htb)|].
      split; [reflexivity|].
      subst s. rewrite !commit_put, commit_fresh. split; [|split; [|split]].
      * intros Hne. rewrite balanceIn_insert_ne by congruence.
        apply balanceIn_insert. exact Hsf.
      * intros Hlb Hll. rewrite balanceIn_insert_ne by congruence.
        rewrite balanceIn_insert_ne by congruence.
        apply balanceIn_insert. exact Hdf.
      * intros ->. rewrite balanceIn_eq, lookup_insert_eq. reflexivity.
      * intros key H1 H2 H3. rewrite !lookup_insert_ne by congruence. reflexivity.
  - repeat split.
Qed.

Lemma DisburseLoan_transfers_first_witness :
  (balanceIn approvedL3 "HDFC" = Ok 500000%float
   /\ balanceIn approvedL3 "SBI" = Ok 500000%float
   /\ invoke (DisburseLoan "L3") "tx3" 1700000180 approvedL3
      = (Ok tt,
         <["L3" := DocLoan (disbursedLoan "tx3" 1700000180 loanL3)]>
           (<["SBI" := DocBalance (mkTokenBalance "SBI" (500000 + 2000))]>
              (<["HDFC" := DocBalance (mkTokenBalance "HDFC" (500000 - 2000))]>
                 approvedL3)))
   /\ balanceIn
        (<["L3" := DocLoan (disbursedLoan "tx3" 1700000180 loanL3)]>
           (<["SBI" := DocBalance (mkTokenBalance "SBI" (500000 + 2000))]>
              (<["HDFC" := DocBalance (mkTokenBalance "HDFC" (500000 - 2000))]>
                 approvedL3))) "SBI" = Ok (500000 + 2000)%float
   /\ balanceIn
        (<["L3" := DocLoan (disbursedLoan "tx3" 1700000180 loanL3)]>
           (<["SBI" := DocBalance (mkTokenBalance "SBI" (500000 + 2000))]>
              (<["HDFC" := DocBalance (mkTokenBalance "HDFC" (500000 - 2000))]>
                 approvedL3))) "HDFC" = Ok (500000 - 2000)%float)
  /\ invoke (DisburseLoan "L1") "tx3" 1700000180 drained
     = (Err (ErrInsufficientFunds "HDFC"), drained).
Proof.
  split.
  - pose proof (DisburseLoan_transfers_first "L3" "tx3" 1700000180 approvedL3 loanL3
                  ltac:(vm_compute; reflexivity) ltac:(reflexivity)) as Hd.
    cbv zeta in Hd.
    change (TransferTokens _ _ _ _)
      with (Ok tt,
            put "SBI" (DocBalance (mkTokenBalance "SBI" (500000 + 2000)))
              (put "HDFC" (DocBalance (mkTokenBalance "HDFC" (500000 - 2000)))
                 (mkStub approvedL3 ∅ "tx3" 1700000180))) in Hd.
    destruct Hd as (_ & Hinv & _ & _ & _ & _ & lb & bb & Hlb & _ & Hbb & Hs1 & Hb & Hl & _).
    assert (Hlb' : lb = 500000%float).
    { assert (H0 : balanceIn approvedL3 "HDFC" = Ok 500000%float)
        by (vm_compute; reflexivity).
      change (LenderID loanL3) with "HDFC" in Hlb. congruence. }
    assert (Hbb' : bb = 500000%float).
    { assert (H0 : balanceIn approvedL3 "SBI" = Ok 500000%float)
        by (vm_compute; reflexivity).
      change (BorrowerID loanL3) with "SBI" in Hbb.
      change (approvedL3 !! "SBI") with (Some (DocBalance (mkTokenBalance "SBI" 500000)))
        in Hbb.
      congruence. }
    subst lb bb.
    rewrite !commit_put, commit_fresh in Hinv, Hb, Hl.
    split; [vm_compute; reflexivity|]. split; [vm_compute; reflexivity|].
    split; [exact Hinv|]. split.
    + exact (Hb ltac:(discriminate)).
    + exact (Hl ltac:(discriminate) ltac:(discriminate)).
  - pose proof (DisburseLoan_transfers_first "L1" "tx3" 1700000180 drained
                  (approvedLoan "HDFC" "tx2" loanL1)
                  ltac:(vm_compute; reflexivity) ltac:(reflexivity)) as Hd.
    cbv zeta in Hd.
    change (TransferTokens _ _ _ _)
      with (@Err unit (ErrInsufficientFunds "HDFC"),
            mkStub drained ∅ "tx3" 1700000180) in Hd.
    exact (proj1 (proj2 Hd)).
Defined.

(** C7 as stated fails: loan LX of 1000 names its own key as the borrower
    id and is approved by HDFC.  Its disbursement succeeds and debits HDFC,
    but the loan record is written over the borrower's credit: "LX" reads
    the balance 0 and no account has received the 1000. *)
Lemma disbursement_credit_lost_counterexample :
  match loanIn approvedLX "LX" with
  | Ok loan =>
      Status loan = "APPROVED" /\ LenderID loan = "HDFC" /\ BorrowerID loan = "LX"
      /\ Amount loan = 1000%float
  | Err _ => False
  end
  /\ balanceIn approvedLX "HDFC" = Ok 500000%float
  /\ fst (invoke (DisburseLoan "LX") "tx3" 1700000180 approvedLX) = Ok tt
  /\ balanceIn (snd (invoke (DisburseLoan "LX") "tx3" 1700000180 approvedLX)) "HDFC"
     = Ok 499000%float
  /\ balanceIn (snd (invoke (DisburseLoan "LX") "tx3" 1700000180 approvedLX)) "LX"
     = Ok 0%float
  /\ balanceIn (snd (invoke (DisburseLoan "LX") "tx3" 1700000180 approvedLX)) "RBI"
     = balanceIn approvedLX "RBI"
  /\ balanceIn (snd (invoke (DisburseLoan "LX") "tx3" 1700000180 approvedLX)) "SBI"
     = balanceIn approvedLX "SBI".
Proof.
  split; [vm_compute; repeat split; reflexivity|].
  repeat (split; [vm_compute; reflexivity|]). vm_compute. reflexivity.
Qed.

(** ** C8: account lookup on the query path and on the transfer path *)

Lemma add_zero_finite x : is_finite x = true -> is_finite (0 + x) = true.
Proof.
  rewrite !is_finite_SF, FloatAxioms.add_spec.
  change (Prim2SF 0%float) with (S754_zero false).
  destruct (Prim2SF x) as [s|s| |s m e]; try discriminate; intros _.
  - destruct s; reflexivity.
  - reflexivity.
Qed.

(** C8: [GetBalance] fails with NotFound on an account without a record.
    [TransferTokens] fails the same way, and writes nothing, when the source
    has no record; a destination without a record is read as balance 0, and
    a transfer that succeeds writes its record with 0 + amount. *)
Theorem account_lookup_asymmetry from to amount account s :
  (state s !! account = None ->
   GetBalance account s = (Err (ErrAccountMissing account), s)
   /\ kind (ErrAccountMissing account) = NotFound)
  /\ (state s !! from = None ->
      TransferTokens from to amount s = (Err (ErrAccountMissing from), s)
      /\ kind (ErrAccountMissing from) = NotFound)
  /\ (state s !! to = None ->
      fst (recipientBalance to s) = Ok 0%float
      /\ (forall s', TransferTokens from to amount s = (Ok tt, s') ->
            writeSet s' !! to
            = Some (DocBalance (mkTokenBalance to (0 + amount)))
            /\ balanceIn (commit s') to = Ok (0 + amount)%float)
      /\ (forall fromBalance,
            balanceIn (state s) from = Ok fromBalance ->
            (0 <=? amount)%float = true ->
            (amount <=? fromBalance)%float = true ->
            TransferTokens from to amount s
            = (Ok tt,
               put to (DocBalance (mkTokenBalance to (0 + amount)))
                 (put from
                    (DocBalance (mkTokenBalance from (fromBalance - amount))) s)))).
Proof.
  split; [|split].
  - intros Hnone. rewrite GetBalance_eq, balanceIn_eq, Hnone. split; reflexivity.
  - intros Hnone. rewrite TransferTokens_eq, balanceIn_eq, Hnone. split; reflexivity.
  - intros Hnone.
    assert (Hrec : fst (recipientBalance to s) = Ok 0%float).
    { rewrite recipientBalance_eq, balanceIn_eq, Hnone. cbn [fst].
      destruct (decide (ErrAccountMissing to = ErrAccountMissing to)); congruence. }
    split; [exact Hrec|]. split.
    + intros s' Ht.
      pose proof Ht as Ht'. rewrite TransferTokens_eq in Ht'.
      destruct (TransferTokens_Ok _ _ _ _ _ Ht) as (fb & tb & Hfb & Htb & _ & ->).
      rewrite Hrec in Htb. injection Htb as <-.
      rewrite Hfb, Hrec in Ht'.
      destruct (fb <? amount)%float; [discriminate|].
      destruct (is_finite (fb - amount)); [|discriminate]. cbv zeta in Ht'.
      destruct (is_finite (0 + amount)) eqn:Hfin; [|discriminate].
      split.
      * rewrite writeSet_put. apply lookup_insert_eq.
      * rewrite commit_put. apply balanceIn_insert. exact Hfin.
    + intros fb Hfb H0 Hle.
      pose proof (balanceIn_finite _ _ _ Hfb) as Hffin.
      pose proof (leb_finite_below _ _ H0 Hle Hffin) as Hafin.
      apply (TransferTokens_succeeds _ _ _ _ _ _ Hfb Hrec H0 Hle).
      apply add_zero_finite. exact Hafin.
Qed.

Lemma account_lookup_asymmetry_witness :
  (GetBalance "B1" (mkStub genesis ∅ "tx9" 1700000600)
   = (Err (ErrAccountMissing "B1"), mkStub genesis ∅ "tx9" 1700000600)
   /\ kind (ErrAccountMissing "B1") = NotFound)
  /\ (TransferTokens "B1" "HDFC" 50 (mkStub genesis ∅ "tx9" 1700000600)
      = (Err (ErrAccountMissing "B1"), mkStub genesis ∅ "tx9" 1700000600)
      /\ kind (ErrAccountMissing "B1") = NotFound)
  /\ TransferTokens "HDFC" "B1" 50 (mkStub genesis ∅ "tx9" 1700000600)
     = (Ok tt,
        put "B1" (DocBalance (mkTokenBalance "B1" (0 + 50)))
          (put "HDFC" (DocBalance (mkTokenBalance "HDFC" (500000 - 50)))
             (mkStub genesis ∅ "tx9" 1700000600))).
Proof.
  split; [|split].
  - exact (proj1 (account_lookup_asymmetry "HDFC" "B1" 50 "B1"
                    (mkStub genesis ∅ "tx9" 1700000600))
             ltac:(vm_compute; reflexivity)).
  - exact (proj1 (proj2 (account_lookup_asymmetry "B1" "HDFC" 50 "B1"
                           (mkStub genesis ∅ "tx9" 1700000600)))
             ltac:(vm_compute; reflexivity)).
  - exact (proj2 (proj2 (proj2 (proj2 (account_lookup_asymmetry "HDFC" "B1" 50 "B1"
                                         (mkStub genesis ∅ "tx9" 1700000600)))
                           ltac:(vm_compute; reflexivity)))
             500000%float ltac:(vm_compute; reflexivity)
             ltac:(reflexivity) ltac:(reflexivity)).
Defined.

(** ** C9: approval moves no funds *)

(** C9: on a PENDING loan whose lender holds at least the loan amount,
    [ApproveLoan] succeeds, its only write is the loan record, every
    account reads the same balance afterwards, and the record differs from
    the one read in lenderId, status and auditHistory only. *)
Theorem ApproveLoan_moves_no_funds loanID lenderID txid ts w loan lenderBalance :
  loanIn w loanID = Ok loan ->
  Status loan = "PENDING" ->
  balanceIn w lenderID = Ok lenderBalance ->
  (Amount loan <=? lenderBalance)%float = true ->
  let loan' :=
    {| LoanID := LoanID loan;
       BorrowerID := BorrowerID loan;
       LenderID := lenderID;
       Amount := Amount loan;
       InterestRate := InterestRate loan;
       Duration := Duration loan;
       Status := "APPROVED";
       DisbursementDate := DisbursementDate loan;
       RepaymentDue := RepaymentDue loan;
       RemainingBalance := RemainingBalance loan;
       Collateral := Collateral loan;
       Defaulted := Defaulted loan;
       AuditHistory :=
         AuditHistory loan
         ++ ["Loan approved by " +:+ lenderID +:+ " (TxID: " +:+ txid +:+ ")"];
       CreatedAt := CreatedAt loan;
       DueDate := DueDate loan |} in
  ApproveLoan loanID lenderID (mkStub w ∅ txid ts)
  = (Ok tt, put loanID (DocLoan loan') (mkStub w ∅ txid ts))
  /\ invoke (ApproveLoan loanID lenderID) txid ts w
     = (Ok tt, <[loanID := DocLoan loan']> w)
  /\ loanIn (<[loanID := DocLoan loan']> w) loanID = Ok loan'
  /\ forall account,
       balanceIn (<[loanID := DocLoan loan']> w) account = balanceIn w account.
Proof.
  intros Hl Hs Hb Hle loan'.
  pose proof (loanIn_finite _ _ _ Hl) as Hf.
  destruct (finiteLoan_fields _ Hf) as (Hafin & _).
  pose proof (balanceIn_finite _ _ _ Hb) as Hbfin.
  assert (Happrove : ApproveLoan loanID lenderID (mkStub w ∅ txid ts)
                     = (Ok tt, put loanID (DocLoan loan') (mkStub w ∅ txid ts))).
  { rewrite ApproveLoan_eq. cbn [state TxID]. rewrite Hl, Hb.
    destruct (decide (Status loan <> "PENDING")); [contradiction|].
    rewrite (leb_ltb_false _ _ Hbfin Hafin Hle). reflexivity. }
  split; [exact Happrove|]. split; [|split].
  - unfold invoke. rewrite Happrove, commit_put, commit_fresh. reflexivity.
  - apply loanIn_insert. exact Hf.
  - intros account. destruct (decide (loanID = account)) as [<-|Hne].
    + rewrite !balanceIn_eq, lookup_insert_eq.
      rewrite (loanIn_doc _ _ _ Hl) by (rewrite Hs; discriminate).
      reflexivity.
    + apply balanceIn_insert_ne. exact Hne.
Qed.

Lemma ApproveLoan_moves_no_funds_witness :
  invoke (ApproveLoan "L1" "HDFC") "tx2" 1700000120 requested
  = (Ok tt, <["L1" := DocLoan (approvedLoan "HDFC" "tx2" loanL1)]> requested)
  /\ forall account,
       balanceIn (<["L1" := DocLoan (approvedLoan "HDFC" "tx2" loanL1)]> requested)
         account
       = balanceIn requested account.
Proof.
  pose proof (ApproveLoan_moves_no_funds "L1" "HDFC" "tx2" 1700000120 requested
                loanL1 500000%float
                ltac:(vm_compute; reflexivity) ltac:(reflexivity)
                ltac:(vm_compute; reflexivity) ltac:(reflexivity)) as Ha.
  cbv zeta in Ha. split; [exact (proj1 (proj2 Ha))|exact (proj2 (proj2 (proj2 Ha)))].
Defined.

(** ** C10: a transfer from an account to itself *)




(** * Further properties

    The functions of the contract the sections above do not reach, the
    error paths of those they do, and how the operations compose. *)

(** ** The initial ledger *)

Lemma InitLedger_invoke txid ts w :
  invoke InitLedger txid ts w = (Ok tt, initialBalances w).
Proof.
  unfold invoke, InitLedger, putBalances, bind, lift, MarshalBalance, ret.
  cbn [Balance Account].
  change (is_finite 1000000) with true. change (is_finite 500000) with true.
  cbv iota.
  change (PutState ?k ?d ?s) with (Ok tt, put k d s).
  cbv iota. rewrite !commit_put, commit_fresh. reflexivity.
Qed.

(** X1: [InitLedger] succeeds on every world state: it sets the balances of
    RBI, HDFC and SBI to 1000000, 500000 and 500000 whatever their keys held
    before, leaves every other key as it was, and invoked again on its own
    result it changes nothing. *)
Theorem InitLedger_resets_balances txid ts w :
  invoke InitLedger txid ts w = (Ok tt, initialBalances w)
  /\ balanceIn (initialBalances w) "RBI" = Ok 1000000%float
  /\ balanceIn (initialBalances w) "HDFC" = Ok 500000%float
  /\ balanceIn (initialBalances w) "SBI" = Ok 500000%float
  /\ (forall key, key <> "RBI" -> key <> "HDFC" -> key <> "SBI" ->
        initialBalances w !! key = w !! key)
  /\ invoke InitLedger txid ts (initialBalances w) = (Ok tt, initialBalances w).
Proof.
  split; [apply InitLedger_invoke|].
  unfold initialBalances.
  split; [|split; [|split; [|split]]].
  - rewrite !balanceIn_insert_ne by discriminate. apply balanceIn_insert. reflexivity.
  - rewrite balanceIn_insert_ne by discriminate. apply balanceIn_insert. reflexivity.
  - apply balanceIn_insert. reflexivity.
  - intros key H1 H2 H3. rewrite !lookup_insert_ne by congruence. reflexivity.
  - fold (initialBalances w). rewrite InitLedger_invoke. f_equal.
    apply map_eq. intros key. unfold initialBalances.
    destruct (decide ("SBI" = key)) as [<-|H3].
    { rewrite !lookup_insert_eq. reflexivity. }
    rewrite (lookup_insert_ne _ "SBI") by exact H3.
    destruct (decide ("HDFC" = key)) as [<-|H2].
    { rewrite lookup_insert_eq, lookup_insert_ne by discriminate.
      rewrite lookup_insert_eq. reflexivity. }
    rewrite (lookup_insert_ne _ "HDFC") by exact H2.
    destruct (decide ("RBI" = key)) as [<-|H1].
    { rewrite lookup_insert_eq, !lookup_insert_ne by discriminate.
      rewrite lookup_insert_eq. reflexivity. }
    rewrite !lookup_insert_ne by assumption. reflexivity.
Qed.

(** ** Queries and missing loans *)

(** X2: on a key without a record, [LoanExists] answers false, and
    [GetLoan], [GetLoanHistory], [CheckLoanStatus], [ApproveLoan],
    [DisburseLoan], [RepayLoan], [MarkAsDefaulted] and [AddCollateral] all
    return the NotFound error "loan <id> does not exist" with no write. *)
Theorem missing_loan_is_NotFound {runtime : GoRuntime} loanID s :
  state s !! loanID = None ->
  let missing := ErrLoanMissing loanID in
  kind missing = NotFound
  /\ LoanExists loanID s = (Ok false, s)
  /\ GetLoan loanID s = (Err missing, s)
  /\ GetLoanHistory loanID s = (Err missing, s)
  /\ CheckLoanStatus loanID s = (Err missing, s)
  /\ (forall lenderID, ApproveLoan loanID lenderID s = (Err missing, s))
  /\ DisburseLoan loanID s = (Err missing, s)
  /\ (forall amount, RepayLoan loanID amount s = (Err missing, s))
  /\ MarkAsDefaulted loanID s = (Err missing, s)
  /\ (forall collateral, AddCollateral loanID collateral s = (Err missing, s)).
Proof.
  intros Hnone missing.
  assert (Hl : loanIn (state s) loanID = Err missing)
    by (rewrite loanIn_eq, Hnone; reflexivity).
  assert (Hg : GetLoan loanID s = (Err missing, s))
    by (rewrite GetLoan_eq, Hl; reflexivity).
  split; [reflexivity|]. split.
  { unfold LoanExists, bind, GetState, ret. rewrite Hnone. reflexivity. }
  split; [exact Hg|].
  split; [unfold GetLoanHistory, bind; rewrite Hg; reflexivity|].
  split; [unfold CheckLoanStatus, bind; rewrite Hg; reflexivity|].
  split; [intros lenderID; rewrite ApproveLoan_eq, Hl; reflexivity|].
  split; [rewrite DisburseLoan_eq, Hl; reflexivity|].
  split; [intros amount; rewrite RepayLoan_eq, Hl; reflexivity|].
  split; [rewrite MarkAsDefaulted_eq, Hl; reflexivity|].
  intros collateral. rewrite AddCollateral_eq, Hl. reflexivity.
Qed.

Lemma missing_loan_is_NotFound_witness :
  @GetLoan "L7" (mkStub genesis ∅ "tx9" 1700000600)
  = (Err (ErrLoanMissing "L7"), mkStub genesis ∅ "tx9" 1700000600)
  /\ @AddCollateral "L7" "house" (mkStub genesis ∅ "tx9" 1700000600)
     = (Err (ErrLoanMissing "L7"), mkStub genesis ∅ "tx9" 1700000600).
Proof.
  pose proof (@missing_loan_is_NotFound utcRuntime "L7"
                (mkStub genesis ∅ "tx9" 1700000600)
                ltac:(vm_compute; reflexivity)) as H.
  cbv zeta in H.
  split; [exact (proj1 (proj2 (proj2 H)))|].
  exact (proj2 (proj2 (proj2 (proj2 (proj2 (proj2 (proj2 (proj2 (proj2 H))))))))
           "house").
Defined.

(** ** What a successful operation leaves behind *)

(** Reading the history and the status on a world state. *)
Lemma GetLoanHistory_eq loanID s :
  GetLoanHistory loanID s
  = (match loanIn (state s) loanID with
     | Ok loan => Ok (AuditHistory loan)
     | Err e => Err e
     end, s).
Proof.
  unfold GetLoanHistory, bind, ret. rewrite GetLoan_eq.
  destruct (loanIn (state s) loanID); reflexivity.
Qed.

Lemma CheckLoanStatus_eq loanID s :
  CheckLoanStatus loanID s
  = (match loanIn (state s) loanID with
     | Ok loan => Ok (Status loan)
     | Err e => Err e
     end, s).
Proof.
  unfold CheckLoanStatus, bind, ret. rewrite GetLoan_eq.
  destruct (loanIn (state s) loanID); reflexivity.
Qed.

Lemma dispatch_written {runtime : GoRuntime} op txid ts w w' :
  invoke (dispatch op) txid ts w = (Ok tt, w') ->
  exists loan',
    written op txid ts (loanIn w (target op)) = Some loan'
    /\ w' !! target op = Some (DocLoan loan')
    /\ loanIn w' (target op) = Ok loan'
    /\ match op with
       | OpRequestLoan _ _ _ _ _ _ => w !! target op = None
       | _ => exists loan, loanIn w (target op) = Ok loan
                /\ forall st, required op = Some st -> Status loan = st
       end.
Proof.
  unfold invoke.
  destruct op as [loanID borrowerID amount rate duration collateral
                 |loanID lenderID|loanID|loanID amount|loanID|loanID collateral];
    cbn [dispatch target written required].
  - rewrite RequestLoan_eq. cbn [state TxID TxTimestamp].
    destruct (w !! loanID) eqn:Hw; [discriminate|]. cbv zeta.
    destruct (finiteLoan _) eqn:Hf; [|discriminate].
    intros [= <-]. rewrite commit_put, commit_fresh.
    eexists. split; [reflexivity|]. split; [apply lookup_insert_eq|].
    split; [apply loanIn_insert; exact Hf|reflexivity].
  - rewrite ApproveLoan_eq. cbn [state TxID].
    destruct (loanIn w loanID) as [loan|e] eqn:Hl; [|discriminate].
    destruct (decide (Status loan <> "PENDING")) as [|Hs]; [discriminate|].
    destruct (balanceIn w lenderID) as [b|e]; [|discriminate].
    destruct (b <? Amount loan)%float; [discriminate|].
    intros [= <-]. rewrite commit_put, commit_fresh.
    pose proof (loanIn_finite _ _ _ Hl) as Hf.
    eexists. split; [reflexivity|]. split; [apply lookup_insert_eq|].
    split; [apply loanIn_insert; rewrite finite_approvedLoan; exact Hf|].
    exists loan. split; [reflexivity|]. intros st [= <-].
    destruct (decide (Status loan = "PENDING")); tauto.
  - rewrite DisburseLoan_eq. cbn [state TxID TxTimestamp].
    destruct (loanIn w loanID) as [loan|e] eqn:Hl; [|discriminate].
    destruct (decide (Status loan <> "APPROVED")) as [|Hs]; [discriminate|].
    destruct (TransferTokens _ _ _ _) as [[[]|e] s1]; [|discriminate].
    intros [= <-]. rewrite commit_put.
    pose proof (loanIn_finite _ _ _ Hl) as Hf.
    eexists. split; [reflexivity|]. split; [apply lookup_insert_eq|].
    split; [apply loanIn_insert; rewrite finite_disbursedLoan; exact Hf|].
    exists loan. split; [reflexivity|]. intros st [= <-].
    destruct (decide (Status loan = "APPROVED")); tauto.
  - rewrite RepayLoan_eq. cbn [state TxID].
    destruct (loanIn w loanID) as [loan|e] eqn:Hl; [|discriminate].
    destruct (decide (Status loan <> "ACTIVE")) as [|Hs]; [discriminate|].
    destruct (RemainingBalance loan <? amount)%float; [discriminate|].
    destruct (TransferTokens _ _ _ _) as [[[]|e] s1]; [|discriminate].
    destruct (is_finite (RemainingBalance loan - amount)) eqn:Hdf; [|discriminate].
    intros [= <-]. rewrite commit_put.
    pose proof (loanIn_finite _ _ _ Hl) as Hf.
    eexists. split; [reflexivity|]. split; [apply lookup_insert_eq|].
    split; [apply loanIn_insert; rewrite finite_repaidLoan by exact Hf; exact Hdf|].
    exists loan. split; [reflexivity|]. intros st [= <-].
    destruct (decide (Status loan = "ACTIVE")); tauto.
  - rewrite MarkAsDefaulted_eq. cbn [state TxID].
    destruct (loanIn w loanID) as [loan|e] eqn:Hl; [|discriminate].
    destruct (decide (Status loan <> "ACTIVE")) as [|Hs]; [discriminate|].
    intros [= <-]. rewrite commit_put, commit_fresh.
    pose proof (loanIn_finite _ _ _ Hl) as Hf.
    eexists. split; [reflexivity|]. split; [apply lookup_insert_eq|].
    split; [apply loanIn_insert; rewrite finite_defaultedLoan; exact Hf|].
    exists loan. split; [reflexivity|]. intros st [= <-].
    destruct (decide (Status loan = "ACTIVE")); tauto.
  - rewrite AddCollateral_eq. cbn [state TxID].
    destruct (loanIn w loanID) as [loan|e] eqn:Hl; [|discriminate].
    intros [= <-]. rewrite commit_put, commit_fresh.
    pose proof (loanIn_finite _ _ _ Hl) as Hf.
    eexists. split; [reflexivity|]. split; [apply lookup_insert_eq|].
    split; [apply loanIn_insert; rewrite finite_collateralLoan; exact Hf|].
    exists loan. split; [reflexivity|]. discriminate.
Qed.

Lemma AuditHistory_repaidLoan {runtime : GoRuntime} amount txid loan :
  AuditHistory (repaidLoan amount txid loan)
  = AuditHistory loan
    ++ ["Repayment of " +:+ Sprint_f amount +:+ " (TxID: " +:+ txid +:+ ")"].
Proof.
  unfold repaidLoan. cbv zeta.
  destruct (RemainingBalance loan - amount <=? 0)%float; reflexivity.
Qed.

(** X3: the audit history only grows: after a successful operation
    [GetLoanHistory] returns the history the loan had before (none for a new
    loan) followed by the one entry of that operation. *)
Theorem audit_history_append_only {runtime : GoRuntime} op txid ts w w' s' :
  invoke (dispatch op) txid ts w = (Ok tt, w') ->
  state s' = w' ->
  let before :=
    match loanIn w (target op) with
    | Ok loan => AuditHistory loan
    | Err _ => []
    end in
  GetLoanHistory (target op) s' = (Ok (before ++ [auditEntry op txid]), s').
Proof.
  intros Hinv Hs' before.
  destruct (dispatch_written _ _ _ _ _ Hinv) as (loan' & Hw & _ & Hl' & Hpre).
  rewrite GetLoanHistory_eq, Hs', Hl'. f_equal. f_equal. unfold before.
  destruct op as [loanID borrowerID amount rate duration collateral
                 |loanID lenderID|loanID|loanID amount|loanID|loanID collateral];
    cbn [target written auditEntry] in *.
  - rewrite loanIn_eq, Hpre. injection Hw as <-. reflexivity.
  - destruct Hpre as (loan & Hl & _). rewrite Hl in *. injection Hw as <-. reflexivity.
  - destruct Hpre as (loan & Hl & _). rewrite Hl in *. injection Hw as <-. reflexivity.
  - destruct Hpre as (loan & Hl & _). rewrite Hl in *. injection Hw as <-.
    apply AuditHistory_repaidLoan.
  - destruct Hpre as (loan & Hl & _). rewrite Hl in *. injection Hw as <-. reflexivity.
  - destruct Hpre as (loan & Hl & _). rewrite Hl in *. injection Hw as <-. reflexivity.
Qed.

Lemma audit_history_append_only_witness :
  @GetLoanHistory "L1" (mkStub approved ∅ "tx9" 1700000600)
  = (Ok (["Loan requested by B1 (TxID: tx1)"] ++ ["Loan approved by HDFC (TxID: tx2)"]),
     mkStub approved ∅ "tx9" 1700000600).
Proof.
  exact (@audit_history_append_only utcRuntime (OpApproveLoan "L1" "HDFC")
           "tx2" 1700000120 requested approved (mkStub approved ∅ "tx9" 1700000600)
           ltac:(vm_compute; reflexivity) ltac:(reflexivity)).
Defined.

(** X4: after a successful operation [CheckLoanStatus] returns PENDING for
    [RequestLoan], APPROVED for [ApproveLoan], ACTIVE for [DisburseLoan],
    DEFAULTED for [MarkAsDefaulted], the status the loan had for
    [AddCollateral], and for [RepayLoan] REPAID when the new remaining
    balance is <= 0 and ACTIVE otherwise. *)
Theorem CheckLoanStatus_after {runtime : GoRuntime} op txid ts w w' s' :
  invoke (dispatch op) txid ts w = (Ok tt, w') ->
  state s' = w' ->
  exists status,
    CheckLoanStatus (target op) s' = (Ok status, s')
    /\ match op with
       | OpRequestLoan _ _ _ _ _ _ => status = "PENDING"
       | OpApproveLoan _ _ => status = "APPROVED"
       | OpDisburseLoan _ => status = "ACTIVE"
       | OpRepayLoan _ amount =>
           exists loan,
             loanIn w (target op) = Ok loan
             /\ status = if (RemainingBalance loan - amount <=? 0)%float
                         then "REPAID" else "ACTIVE"
       | OpMarkAsDefaulted _ => status = "DEFAULTED"
       | OpAddCollateral _ _ =>
           exists loan, loanIn w (target op) = Ok loan /\ status = Status loan
       end.
Proof.
  intros Hinv Hs'.
  destruct (dispatch_written _ _ _ _ _ Hinv) as (loan' & Hw & _ & Hl' & Hpre).
  exists (Status loan'). rewrite CheckLoanStatus_eq, Hs', Hl'. split; [reflexivity|].
  destruct op as [loanID borrowerID amount rate duration collateral
                 |loanID lenderID|loanID|loanID amount|loanID|loanID collateral];
    cbn [target written required] in *.
  - injection Hw as <-. reflexivity.
  - destruct Hpre as (loan & Hl & _). rewrite Hl in Hw. injection Hw as <-. reflexivity.
  - destruct Hpre as (loan & Hl & _). rewrite Hl in Hw. injection Hw as <-. reflexivity.
  - destruct Hpre as (loan & Hl & Hst). rewrite Hl in Hw. injection Hw as <-.
    exists loan. split; [exact Hl|]. rewrite Status_repaidLoan.
    rewrite (Hst _ eq_refl). reflexivity.
  - destruct Hpre as (loan & Hl & _). rewrite Hl in Hw. injection Hw as <-. reflexivity.
  - destruct Hpre as (loan & Hl & _). rewrite Hl in Hw. injection Hw as <-.
    exists loan. split; [exact Hl|reflexivity].
Qed.

Lemma CheckLoanStatus_after_witness :
  exists status,
    @CheckLoanStatus "L1" (mkStub active ∅ "tx9" 1700000600)
    = (Ok status, mkStub active ∅ "tx9" 1700000600)
    /\ status = "ACTIVE".
Proof.
  exact (@CheckLoanStatus_after utcRuntime (OpDisburseLoan "L1")
           "tx3" 1700000180 approved active (mkStub active ∅ "tx9" 1700000600)
           ltac:(vm_compute; reflexivity) ltac:(reflexivity)).
Defined.

(** X5: a successful operation on an existing loan keeps its loanId,
    borrowerId, amount, interestRate, duration, repaymentDue, createdAt and
    dueDate; lenderId changes only in [ApproveLoan], disbursementDate only
    in [DisburseLoan] and collateral only in [AddCollateral]. *)
Theorem loan_terms_never_change {runtime : GoRuntime} op txid ts w w' loan :
  loanIn w (target op) = Ok loan ->
  invoke (dispatch op) txid ts w = (Ok tt, w') ->
  exists loan',
    loanIn w' (target op) = Ok loan'
    /\ LoanID loan' = LoanID loan
    /\ BorrowerID loan' = BorrowerID loan
    /\ Amount loan' = Amount loan
    /\ InterestRate loan' = InterestRate loan
    /\ Duration loan' = Duration loan
    /\ RepaymentDue loan' = RepaymentDue loan
    /\ CreatedAt loan' = CreatedAt loan
    /\ DueDate loan' = DueDate loan
    /\ (LenderID loan' = LenderID loan
        \/ exists lenderID,
             op = OpApproveLoan (target op) lenderID /\ LenderID loan' = lenderID)
    /\ (DisbursementDate loan' = DisbursementDate loan
        \/ op = OpDisburseLoan (target op) /\ DisbursementDate loan' = pretty ts)
    /\ (Collateral loan' = Collateral loan
        \/ exists collateral,
             op = OpAddCollateral (target op) collateral
             /\ Collateral loan' = collateral).
Proof.
  intros Hl Hinv.
  destruct (dispatch_written _ _ _ _ _ Hinv) as (loan' & Hw & _ & Hl' & Hpre).
  exists loan'. split; [exact Hl'|]. rewrite Hl in Hw.
  destruct op as [loanID borrowerID amount rate duration collateral
                 |loanID lenderID|loanID|loanID amount|loanID|loanID collateral];
    cbn [target written] in *.
  - rewrite loanIn_eq, Hpre in Hl. discriminate.
  - injection Hw as <-. repeat split; eauto.
  - injection Hw as <-. repeat split; auto.
  - injection Hw as <-. unfold repaidLoan. cbv zeta.
    destruct (RemainingBalance loan - amount <=? 0)%float; repeat split; auto.
  - injection Hw as <-. repeat split; auto.
  - injection Hw as <-. repeat split; eauto.
Qed.

Lemma loan_terms_never_change_witness :
  exists loan',
    loanIn active "L1" = Ok loan'
    /\ LoanID loan' = "L1" /\ BorrowerID loan' = "B1"
    /\ Amount loan' = 1000%float /\ RepaymentDue loan' = 1100%float.
Proof.
  destruct (@loan_terms_never_change utcRuntime (OpDisburseLoan "L1")
              "tx3" 1700000180 approved active (approvedLoan "HDFC" "tx2" loanL1)
              ltac:(vm_compute; reflexivity) ltac:(vm_compute; reflexivity))
    as (loan' & Hl & H1 & H2 & H3 & _ & _ & H6 & _).
  exists loan'. repeat split; assumption.
Defined.

(** X6: the flag [defaulted] is true exactly when the status is DEFAULTED:
    a new loan has the property, and every successful operation on a loan
    that has it leaves it with it. *)
Theorem defaulted_flag_follows_status {runtime : GoRuntime} op txid ts w w' :
  invoke (dispatch op) txid ts w = (Ok tt, w') ->
  exists loan',
    loanIn w' (target op) = Ok loan'
    /\ match loanIn w (target op) with
       | Ok loan => defaulted_iff_status loan -> defaulted_iff_status loan'
       | Err _ => defaulted_iff_status loan'
       end.
Proof.
  intros Hinv.
  destruct (dispatch_written _ _ _ _ _ Hinv) as (loan' & Hw & _ & Hl' & Hpre).
  exists loan'. split; [exact Hl'|]. unfold defaulted_iff_status.
  destruct op as [loanID borrowerID amount rate duration collateral
                 |loanID lenderID|loanID|loanID amount|loanID|loanID collateral];
    cbn [target written required] in *.
  - rewrite loanIn_eq, Hpre. injection Hw as <-. cbn. split; discriminate.
  - destruct Hpre as (loan & Hl & Hst). rewrite Hl in *. injection Hw as <-.
    specialize (Hst _ eq_refl). cbn. rewrite Hst. intros [H1 H2].
    split; [intros Hd; discriminate (H1 Hd)|discriminate].
  - destruct Hpre as (loan & Hl & Hst). rewrite Hl in *. injection Hw as <-.
    specialize (Hst _ eq_refl). cbn. rewrite Hst. intros [H1 H2].
    split; [intros Hd; discriminate (H1 Hd)|discriminate].
  - destruct Hpre as (loan & Hl & Hst). rewrite Hl in *. injection Hw as <-.
    specialize (Hst _ eq_refl). rewrite Status_repaidLoan, Hst. intros [H1 H2].
    assert (Hd : Defaulted (repaidLoan amount txid loan) = Defaulted loan).
    { unfold repaidLoan. cbv zeta.
      destruct (RemainingBalance loan - amount <=? 0)%float; reflexivity. }
    rewrite Hd.
    split; [intros Hd'; discriminate (H1 Hd')|].
    destruct (RemainingBalance loan - amount <=? 0)%float; discriminate.
  - destruct Hpre as (loan & Hl & _). rewrite Hl in *. injection Hw as <-.
    cbn. intros _. split; reflexivity.
  - destruct Hpre as (loan & Hl & _). rewrite Hl in *. injection Hw as <-.
    cbn. tauto.
Qed.

(** X7: the lifecycle steps cannot be repeated.  On the world state a
    successful [RequestLoan], [ApproveLoan], [DisburseLoan] or
    [MarkAsDefaulted] leaves, the same function on the same loan fails, with
    "already exists" for the request and "cannot be ... in current status"
    for the others, and writes nothing; a defaulted loan refuses every
    repayment. *)
Theorem lifecycle_steps_run_once {runtime : GoRuntime} loanID txid ts w w' s' :
  state s' = w' ->
  (forall borrowerID amount interestRate duration collateral
          borrowerID2 amount2 interestRate2 duration2 collateral2,
      invoke (RequestLoan loanID borrowerID amount interestRate duration collateral)
        txid ts w = (Ok tt, w') ->
      RequestLoan loanID borrowerID2 amount2 interestRate2 duration2 collateral2 s'
      = (Err (ErrLoanExists loanID), s'))
  /\ (forall lenderID lenderID2,
        invoke (ApproveLoan loanID lenderID) txid ts w = (Ok tt, w') ->
        ApproveLoan loanID lenderID2 s'
        = (Err (ErrCannotApprove loanID "APPROVED"), s'))
  /\ (invoke (DisburseLoan loanID) txid ts w = (Ok tt, w') ->
      DisburseLoan loanID s' = (Err (ErrCannotDisburse loanID "ACTIVE"), s'))
  /\ (invoke (MarkAsDefaulted loanID) txid ts w = (Ok tt, w') ->
      MarkAsDefaulted loanID s' = (Err (ErrCannotDefault loanID "DEFAULTED"), s')
      /\ forall amount,
           RepayLoan loanID amount s' = (Err (ErrCannotRepay loanID "DEFAULTED"), s')).
Proof.
  intros Hs'. split; [|split; [|split]].
  - intros b a r d c b2 a2 r2 d2 c2 Hinv.
    destruct (dispatch_written (OpRequestLoan loanID b a r d c) _ _ _ _ Hinv)
      as (loan' & _ & Hdoc & _).
    cbn [target] in Hdoc. rewrite RequestLoan_eq, Hs', Hdoc. reflexivity.
  - intros lenderID lenderID2 Hinv.
    destruct (dispatch_written (OpApproveLoan loanID lenderID) _ _ _ _ Hinv)
      as (loan' & Hw & _ & Hl' & (loan & Hl & _)).
    cbn [target written] in *. rewrite Hl in Hw. injection Hw as <-.
    rewrite ApproveLoan_eq, Hs', Hl'. reflexivity.
  - intros Hinv.
    destruct (dispatch_written (OpDisburseLoan loanID) _ _ _ _ Hinv)
      as (loan' & Hw & _ & Hl' & (loan & Hl & _)).
    cbn [target written] in *. rewrite Hl in Hw. injection Hw as <-.
    rewrite DisburseLoan_eq, Hs', Hl'. reflexivity.
  - intros Hinv.
    destruct (dispatch_written (OpMarkAsDefaulted loanID) _ _ _ _ Hinv)
      as (loan' & Hw & _ & Hl' & (loan & Hl & _)).
    cbn [target written] in *. rewrite Hl in Hw. injection Hw as <-.
    split; [rewrite MarkAsDefaulted_eq, Hs', Hl'; reflexivity|].
    intros amount. rewrite RepayLoan_eq, Hs', Hl'. reflexivity.
Qed.

Lemma lifecycle_steps_run_once_witness :
  DisburseLoan "L1" (mkStub active ∅ "tx9" 1700000600)
  = (Err (ErrCannotDisburse "L1" "ACTIVE"), mkStub active ∅ "tx9" 1700000600).
Proof.
  exact (proj1 (proj2 (proj2 (@lifecycle_steps_run_once utcRuntime "L1"
                                "tx3" 1700000180 approved active
                                (mkStub active ∅ "tx9" 1700000600) eq_refl)))
           ltac:(vm_compute; reflexivity)).
Defined.

Lemma defaulted_flag_follows_status_witness :
  exists loan',
    loanIn (snd (invoke (MarkAsDefaulted "L1") "tx5" 1700000300 active)) "L1" = Ok loan'
    /\ match loanIn active "L1" with
       | Ok loan => defaulted_iff_status loan -> defaulted_iff_status loan'
       | Err _ => defaulted_iff_status loan'
       end.
Proof.
  exact (@defaulted_flag_follows_status utcRuntime (OpMarkAsDefaulted "L1")
           "tx5" 1700000300 active
           (snd (invoke (MarkAsDefaulted "L1") "tx5" 1700000300 active))
           ltac:(vm_compute; reflexivity)).
Defined.

(** ** Collateral, default and balance updates *)

(** A record that reads as a loan with a status is no balance record:
    rewriting it changes no balance. *)
Lemma balanceIn_rewrite_loan w loanID loan loan' account :
  loanIn w loanID = Ok loan -> Status loan <> "" ->
  balanceIn (<[loanID := DocLoan loan']> w) account = balanceIn w account.
Proof.
  intros Hl Hs. destruct (decide (loanID = account)) as [<-|Hne].
  - rewrite !balanceIn_eq, lookup_insert_eq, (loanIn_doc _ _ _ Hl Hs). reflexivity.
  - apply balanceIn_insert_ne. exact Hne.
Qed.

(** X8: [AddCollateral] checks no status: on every loan that can be read
    it succeeds, replaces the collateral, appends one audit entry and leaves
    every other field, every other key and (on a loan record) every balance
    as it was. *)
Theorem AddCollateral_in_any_status loanID collateral txid ts w loan :
  loanIn w loanID = Ok loan ->
  let loan' :=
    {| LoanID := LoanID loan;
       BorrowerID := BorrowerID loan;
       LenderID := LenderID loan;
       Amount := Amount loan;
       InterestRate := InterestRate loan;
       Duration := Duration loan;
       Status := Status loan;
       DisbursementDate := DisbursementDate loan;
       RepaymentDue := RepaymentDue loan;
       RemainingBalance := RemainingBalance loan;
       Collateral := collateral;
       Defaulted := Defaulted loan;
       AuditHistory :=
         AuditHistory loan
         ++ ["Collateral added: " +:+ collateral +:+ " (TxID: " +:+ txid +:+ ")"];
       CreatedAt := CreatedAt loan;
       DueDate := DueDate loan |} in
  invoke (AddCollateral loanID collateral) txid ts w
  = (Ok tt, <[loanID := DocLoan loan']> w)
  /\ loanIn (<[loanID := DocLoan loan']> w) loanID = Ok loan'
  /\ (forall key, key <> loanID -> <[loanID := DocLoan loan']> w !! key = w !! key)
  /\ (Status loan <> "" ->
      forall account,
        balanceIn (<[loanID := DocLoan loan']> w) account = balanceIn w account).
Proof.
  intros Hl loan'.
  pose proof (loanIn_finite _ _ _ Hl) as Hf.
  split; [|split; [|split]].
  - unfold invoke. rewrite AddCollateral_eq. cbn [state TxID]. rewrite Hl.
    rewrite commit_put, commit_fresh. reflexivity.
  - apply loanIn_insert. exact Hf.
  - intros key Hne. apply lookup_insert_ne. congruence.
  - intros Hs account. exact (balanceIn_rewrite_loan _ _ _ _ _ Hl Hs).
Qed.

Lemma AddCollateral_in_any_status_witness :
  loanIn defaulted "L1" = Ok (defaultedLoan "tx5" loanL1_active)
  /\ Status (defaultedLoan "tx5" loanL1_active) = "DEFAULTED"
  /\ invoke (AddCollateral "L1" "house") "tx6" 1700000360 defaulted
     = (Ok tt,
        <["L1" := DocLoan (collateralLoan "house" "tx6"
                             (defaultedLoan "tx5" loanL1_active))]> defaulted).
Proof.
  split; [vm_compute; reflexivity|]. split; [reflexivity|].
  exact (proj1 (AddCollateral_in_any_status "L1" "house" "tx6" 1700000360 defaulted
                  (defaultedLoan "tx5" loanL1_active)
                  ltac:(vm_compute; reflexivity))).
Defined.

(** X9: on an ACTIVE loan [MarkAsDefaulted] succeeds; it sets the status
    to DEFAULTED and the flag to true, appends one audit entry, keeps the
    remaining balance and every other field, and moves no funds: every
    account reads the same balance afterwards. *)
Theorem MarkAsDefaulted_effect loanID txid ts w loan :
  loanIn w loanID = Ok loan ->
  Status loan = "ACTIVE" ->
  let loan' :=
    {| LoanID := LoanID loan;
       BorrowerID := BorrowerID loan;
       LenderID := LenderID loan;
       Amount := Amount loan;
       InterestRate := InterestRate loan;
       Duration := Duration loan;
       Status := "DEFAULTED";
       DisbursementDate := DisbursementDate loan;
       RepaymentDue := RepaymentDue loan;
       RemainingBalance := RemainingBalance loan;
       Collateral := Collateral loan;
       Defaulted := true;
       AuditHistory :=
         AuditHistory loan ++ ["Loan marked as defaulted (TxID: " +:+ txid +:+ ")"];
       CreatedAt := CreatedAt loan;
       DueDate := DueDate loan |} in
  invoke (MarkAsDefaulted loanID) txid ts w = (Ok tt, <[loanID := DocLoan loan']> w)
  /\ loanIn (<[loanID := DocLoan loan']> w) loanID = Ok loan'
  /\ (forall key, key <> loanID -> <[loanID := DocLoan loan']> w !! key = w !! key)
  /\ forall account,
       balanceIn (<[loanID := DocLoan loan']> w) account = balanceIn w account.
Proof.
  intros Hl Hs loan'.
  pose proof (loanIn_finite _ _ _ Hl) as Hf.
  split; [|split; [|split]].
  - unfold invoke. rewrite MarkAsDefaulted_eq. cbn [state TxID]. rewrite Hl.
    destruct (decide (Status loan <> "ACTIVE")); [contradiction|].
    rewrite commit_put, commit_fresh. reflexivity.
  - apply loanIn_insert. exact Hf.
  - intros key Hne. apply lookup_insert_ne. congruence.
  - intros account. apply (balanceIn_rewrite_loan _ _ _ _ _ Hl).
    rewrite Hs. discriminate.
Qed.

Lemma MarkAsDefaulted_effect_witness :
  invoke (MarkAsDefaulted "L1") "tx5" 1700000300 active
  = (Ok tt, <["L1" := DocLoan (defaultedLoan "tx5" loanL1_active)]> active)
  /\ forall account,
       balanceIn (<["L1" := DocLoan (defaultedLoan "tx5" loanL1_active)]> active)
         account
       = balanceIn active account.
Proof.
  pose proof (MarkAsDefaulted_effect "L1" "tx5" 1700000300 active loanL1_active
                ltac:(vm_compute; reflexivity) ltac:(reflexivity)) as H.
  cbv zeta in H. split; [exact (proj1 H)|exact (proj2 (proj2 (proj2 H)))].
Defined.

(** X10: [UpdateBalance] validates nothing: for every account, existing or
    not, and every finite balance, negative ones included, it succeeds,
    the account then reads that balance and no other key changes; a NaN or
    infinite balance is refused by the encoder and nothing is written. *)
Theorem UpdateBalance_sets_any_balance account newBalance txid ts w :
  (is_finite newBalance = true ->
   let w' := <[account := DocBalance (mkTokenBalance account newBalance)]> w in
   invoke (UpdateBalance account newBalance) txid ts w = (Ok tt, w')
   /\ balanceIn w' account = Ok newBalance
   /\ forall key, key <> account -> w' !! key = w !! key)
  /\ (is_finite newBalance = false ->
      invoke (UpdateBalance account newBalance) txid ts w = (Err ErrJSON, w)
      /\ kind ErrJSON = SerializationError).
Proof.
  split.
  - intros Hf w'. split; [|split].
    + unfold invoke. rewrite UpdateBalance_eq, Hf, commit_put, commit_fresh. reflexivity.
    + apply balanceIn_insert. exact Hf.
    + intros key Hne. apply lookup_insert_ne. congruence.
  - intros Hf. unfold invoke. rewrite UpdateBalance_eq, Hf. split; reflexivity.
Qed.

Lemma UpdateBalance_sets_any_balance_witness :
  invoke (UpdateBalance "RBI" (-5)) "tx9" 1700000600 genesis
  = (Ok tt, <["RBI" := DocBalance (mkTokenBalance "RBI" (-5))]> genesis)
  /\ balanceIn (<["RBI" := DocBalance (mkTokenBalance "RBI" (-5))]> genesis) "RBI"
     = Ok (-5)%float
  /\ invoke (UpdateBalance "RBI" infinity) "tx9" 1700000600 genesis
     = (Err ErrJSON, genesis).
Proof.
  pose proof (proj1 (UpdateBalance_sets_any_balance "RBI" (-5) "tx9" 1700000600 genesis)
                ltac:(reflexivity)) as H.
  cbv zeta in H. split; [exact (proj1 H)|]. split; [exact (proj1 (proj2 H))|].
  exact (proj1 (proj2 (UpdateBalance_sets_any_balance "RBI" infinity
                         "tx9" 1700000600 genesis) ltac:(reflexivity))).
Defined.

Lemma sub_finite_inv x y :
  is_finite (x - y) = true -> is_finite x = true /\ is_finite y = true.
Proof.
  rewrite !is_finite_SF, FloatAxioms.sub_spec. unfold SF64sub.
  destruct (Prim2SF x) as [s|s| |s m e], (Prim2SF y) as [s'|s'| |s' m' e'];
    cbn [SFsub SFfin]; auto; try discriminate;
    destruct s, s'; cbn [SFfin negb Bool.eqb]; auto; discriminate.
Qed.

(** X11: a NaN or an infinity is never accepted as an amount: whenever
    [TransferTokens] or [RepayLoan] succeeds the amount is finite, and
    whenever [RequestLoan] succeeds the amount and the interest rate are. *)
Theorem accepted_amounts_are_finite {runtime : GoRuntime} :
  (forall from to amount s s',
      TransferTokens from to amount s = (Ok tt, s') -> is_finite amount = true)
  /\ (forall loanID amount s s',
        RepayLoan loanID amount s = (Ok tt, s') -> is_finite amount = true)
  /\ (forall loanID borrowerID amount interestRate duration collateral s s',
        RequestLoan loanID borrowerID amount interestRate duration collateral s
        = (Ok tt, s') ->
        is_finite amount = true /\ is_finite interestRate = true).
Proof.
  assert (Ht : forall from to amount s s',
             TransferTokens from to amount s = (Ok tt, s') -> is_finite amount = true).
  { intros from to amount s s'. rewrite TransferTokens_eq.
    destruct (balanceIn (state s) from) as [fb|e]; [|discriminate].
    destruct (fb <? amount)%float; [discriminate|].
    destruct (fst (recipientBalance to s)) as [tb|e]; [|discriminate].
    destruct (is_finite (fb - amount)) eqn:Hf; [|discriminate].
    intros _. exact (proj2 (sub_finite_inv _ _ Hf)). }
  split; [exact Ht|]. split.
  - intros loanID amount s s'. rewrite RepayLoan_eq.
    destruct (loanIn (state s) loanID) as [loan|e]; [|discriminate].
    destruct (decide (Status loan <> "ACTIVE")); [discriminate|].
    destruct (RemainingBalance loan <? amount)%float; [discriminate|].
    destruct (TransferTokens _ _ _ s) as [[[]|e] s1] eqn:Htr; [|discriminate].
    intros _. exact (Ht _ _ _ _ _ Htr).
  - intros loanID borrowerID amount interestRate duration collateral s s'.
    rewrite RequestLoan_eq.
    destruct (state s !! loanID); [discriminate|]. cbv zeta.
    destruct (finiteLoan _) eqn:Hf; [|discriminate]. intros _.
    destruct (finiteLoan_fields _ Hf) as (Ha & Hr & _). auto.
Qed.

(** NaN passes both comparisons of [TransferTokens] and [RepayLoan]; it is
    the encoder that stops it. *)
Example nan_amount_is_refused :
  (500000 <? nan)%float = false
  /\ invoke (TransferTokens "HDFC" "SBI" nan) "tx9" 1700000600 genesis
     = (Err ErrJSON, genesis)
  /\ invoke (@RepayLoan utcRuntime "L1" nan) "tx4" 1700000240 active
     = (Err ErrJSON, active)
  /\ invoke (TransferTokens "HDFC" "SBI" neg_infinity) "tx9" 1700000600 genesis
     = (Err ErrJSON, genesis)
  /\ invoke (TransferTokens "HDFC" "SBI" infinity) "tx9" 1700000600 genesis
     = (Err (ErrInsufficientFunds "HDFC"), genesis).
Proof. repeat (split; [vm_compute; reflexivity|]). vm_compute. reflexivity. Qed.

(** ** Loans and accounts under one key *)

(** X12: loans and accounts share their keys.  [AddCollateral] invoked on
    the key of an account reads the balance record as the zero loan,
    succeeds, and writes a loan record over it: the account then reads the
    balance 0. *)
Theorem AddCollateral_on_account_key collateral txid ts w account b :
  w !! account = Some (DocBalance b) ->
  let loan' := collateralLoan collateral txid zeroLoan in
  loanIn w account = Ok zeroLoan
  /\ invoke (AddCollateral account collateral) txid ts w
     = (Ok tt, <[account := DocLoan loan']> w)
  /\ loanIn (<[account := DocLoan loan']> w) account = Ok loan'
  /\ balanceIn (<[account := DocLoan loan']> w) account = Ok 0%float.
Proof.
  intros Hw loan'.
  assert (Hl : loanIn w account = Ok zeroLoan) by (rewrite loanIn_eq, Hw; reflexivity).
  split; [exact Hl|]. split; [|split].
  - unfold invoke. rewrite AddCollateral_eq. cbn [state TxID]. rewrite Hl.
    rewrite commit_put, commit_fresh. reflexivity.
  - apply loanIn_insert. reflexivity.
  - rewrite balanceIn_eq, lookup_insert_eq. reflexivity.
Qed.

Lemma AddCollateral_on_account_key_witness :
  balanceIn genesis "RBI" = Ok 1000000%float
  /\ invoke (AddCollateral "RBI" "gold") "tx9" 1700000600 genesis
     = (Ok tt, <["RBI" := DocLoan (collateralLoan "gold" "tx9" zeroLoan)]> genesis)
  /\ balanceIn (<["RBI" := DocLoan (collateralLoan "gold" "tx9" zeroLoan)]> genesis)
       "RBI" = Ok 0%float.
Proof.
  pose proof (AddCollateral_on_account_key "gold" "tx9" 1700000600 genesis "RBI"
                (mkTokenBalance "RBI" 1000000) ltac:(vm_compute; reflexivity)) as H.
  cbv zeta in H. split; [vm_compute; reflexivity|].
  split; [exact (proj1 (proj2 H))|exact (proj2 (proj2 (proj2 H)))].
Defined.

(** X13: [GetBalance] on the key of a loan returns 0, not an error, and a
    transfer of a non-negative amount the source can afford to that key
    succeeds and writes a balance record over the loan: the key then reads
    as the zero loan, and [CheckLoanStatus] returns the empty status. *)
Theorem TransferTokens_on_loan_key from loanID amount txid ts w loan fromBalance :
  w !! loanID = Some (DocLoan loan) ->
  balanceIn w from = Ok fromBalance ->
  (0 <=? amount)%float = true ->
  (amount <=? fromBalance)%float = true ->
  balanceIn w loanID = Ok 0%float
  /\ exists w',
       invoke (TransferTokens from loanID amount) txid ts w = (Ok tt, w')
       /\ w' !! loanID = Some (DocBalance (mkTokenBalance loanID (0 + amount)))
       /\ loanIn w' loanID = Ok zeroLoan
       /\ CheckLoanStatus loanID (mkStub w' ∅ txid ts) = (Ok "", mkStub w' ∅ txid ts).
Proof.
  intros Hw Hfrom H0 Hle.
  assert (Hb : balanceIn w loanID = Ok 0%float) by (rewrite balanceIn_eq, Hw; reflexivity).
  split; [exact Hb|].
  pose proof (balanceIn_finite _ _ _ Hfrom) as Hffin.
  pose proof (leb_finite_below _ _ H0 Hle Hffin) as Hafin.
  assert (Hrec : fst (recipientBalance loanID (mkStub w ∅ txid ts)) = Ok 0%float).
  { rewrite recipientBalance_eq. cbn [fst state]. rewrite Hb. reflexivity. }
  destruct (TransferTokens_succeeds from loanID amount (mkStub w ∅ txid ts) _ _
              Hfrom Hrec H0 Hle (add_zero_finite _ Hafin)) as [_ Ht].
  eexists. unfold invoke. rewrite Ht. split; [reflexivity|].
  rewrite commit_put.
  assert (Hdoc : forall m : gmap string document,
             <[loanID := DocBalance (mkTokenBalance loanID (0 + amount))]> m !! loanID
             = Some (DocBalance (mkTokenBalance loanID (0 + amount))))
    by (intros m; apply lookup_insert_eq).
  split; [apply Hdoc|].
  assert (Hl : forall m : gmap string document,
             loanIn (<[loanID := DocBalance (mkTokenBalance loanID (0 + amount))]> m)
               loanID = Ok zeroLoan)
    by (intros m; rewrite loanIn_eq, Hdoc; reflexivity).
  split; [apply Hl|].
  rewrite CheckLoanStatus_eq. cbn [state]. rewrite Hl. reflexivity.
Qed.

Lemma TransferTokens_on_loan_key_witness :
  balanceIn active "L1" = Ok 0%float
  /\ exists w',
       invoke (TransferTokens "SBI" "L1" 5) "tx9" 1700000600 active = (Ok tt, w')
       /\ w' !! "L1" = Some (DocBalance (mkTokenBalance "L1" (0 + 5)))
       /\ loanIn w' "L1" = Ok zeroLoan
       /\ CheckLoanStatus "L1" (mkStub w' ∅ "tx9" 1700000600)
          = (Ok "", mkStub w' ∅ "tx9" 1700000600).
Proof.
  exact (TransferTokens_on_loan_key "SBI" "L1" 5 "tx9" 1700000600 active
           loanL1_active 500000
           ltac:(vm_compute; reflexivity) ltac:(vm_compute; reflexivity)
           ltac:(reflexivity) ltac:(reflexivity)).
Defined.

(** ** Transfers and approvals *)

(** X14: a successful [TransferTokens] found a record for the source whose
    balance is not below the amount; it leaves the destination with its old
    balance (0 when it had no record) plus the amount, the source, when it
    is another account, with its old balance minus the amount, and every
    other key as it was. *)
Theorem TransferTokens_moves_amount from to amount txid ts w w' :
  invoke (TransferTokens from to amount) txid ts w = (Ok tt, w') ->
  exists fromBalance toBalance,
    balanceIn w from = Ok fromBalance
    /\ (fromBalance <? amount)%float = false
    /\ match w !! to with
       | None => toBalance = 0%float
       | Some _ => balanceIn w to = Ok toBalance
       end
    /\ balanceIn w' to = Ok (toBalance + amount)%float
    /\ (from <> to -> balanceIn w' from = Ok (fromBalance - amount)%float)
    /\ forall key, key <> from -> key <> to -> w' !! key = w !! key.
Proof.
  unfold invoke. rewrite TransferTokens_eq. cbn [state].
  destruct (balanceIn w from) as [fb|e] eqn:Hfb; [|discriminate].
  destruct (fb <? amount)%float eqn:Hlt; [discriminate|].
  rewrite recipientBalance_eq. cbn [fst state].
  destruct (match balanceIn w to with Ok b => Ok b | Err e => _ end) as [tb|e] eqn:Htb;
    [|discriminate].
  destruct (is_finite (fb - amount)) eqn:Hdf; [|discriminate]. cbv zeta.
  destruct (is_finite (tb + amount)) eqn:Hsf; [|discriminate].
  intros [= <-]. rewrite !commit_put, commit_fresh.
  exists fb, tb. split; [reflexivity|]. split; [exact Hlt|]. split; [|split; [|split]].
  - rewrite balanceIn_eq in Htb |- *.
    destruct (w !! to) as [[l|b]|]; cbn [UnmarshalBalance] in *.
    + exact Htb.
    + destruct (is_finite (Balance b)); [exact Htb|].
      destruct (decide (ErrJSON = ErrAccountMissing to)); discriminate.
    + destruct (decide (ErrAccountMissing to = ErrAccountMissing to)); congruence.
  - apply balanceIn_insert. exact Hsf.
  - intros Hne. rewrite balanceIn_insert_ne by congruence.
    apply balanceIn_insert. exact Hdf.
  - intros key H1 H2. rewrite !lookup_insert_ne by congruence. reflexivity.
Qed.

Lemma TransferTokens_moves_amount_witness :
  exists fromBalance toBalance,
    balanceIn genesis "SBI" = Ok fromBalance
    /\ (fromBalance <? 250)%float = false
    /\ match genesis !! "HDFC" with
       | None => toBalance = 0%float
       | Some _ => balanceIn genesis "HDFC" = Ok toBalance
       end
    /\ balanceIn (snd (invoke (TransferTokens "SBI" "HDFC" 250) "tx9" 1700000600 genesis))
         "HDFC" = Ok (toBalance + 250)%float
    /\ ("SBI" <> "HDFC" ->
        balanceIn (snd (invoke (TransferTokens "SBI" "HDFC" 250) "tx9" 1700000600
                          genesis)) "SBI" = Ok (fromBalance - 250)%float)
    /\ forall key, key <> "SBI" -> key <> "HDFC" ->
         snd (invoke (TransferTokens "SBI" "HDFC" 250) "tx9" 1700000600 genesis) !! key
         = genesis !! key.
Proof.
  exact (TransferTokens_moves_amount "SBI" "HDFC" 250 "tx9" 1700000600 genesis
           (snd (invoke (TransferTokens "SBI" "HDFC" 250) "tx9" 1700000600 genesis))
           ltac:(vm_compute; reflexivity)).
Defined.

Lemma loanIn_insert_ne w key d loanID :
  key <> loanID -> loanIn (<[key := d]> w) loanID = loanIn w loanID.
Proof. intros Hne. rewrite !loanIn_eq, lookup_insert_ne by exact Hne. reflexivity. Qed.

(** An approval that passes its checks, as an invocation. *)
Lemma ApproveLoan_invoke loanID lenderID txid ts w loan lenderBalance :
  loanIn w loanID = Ok loan -> Status loan = "PENDING" ->
  balanceIn w lenderID = Ok lenderBalance ->
  (lenderBalance <? Amount loan)%float = false ->
  invoke (ApproveLoan loanID lenderID) txid ts w
  = (Ok tt, <[loanID := DocLoan (approvedLoan lenderID txid loan)]> w).
Proof.
  intros Hl Hs Hb Hlt. unfold invoke. rewrite ApproveLoan_eq. cbn [state TxID].
  rewrite Hl, Hb, Hlt.
  destruct (decide (Status loan <> "PENDING")); [contradiction|].
  rewrite commit_put, commit_fresh. reflexivity.
Qed.

(** X15: on a PENDING loan [ApproveLoan] fails with NotFound when the
    lender has no record and with InsufficientFunds when the lender's
    balance is below the loan amount, writing nothing in both cases; in
    every other case with a readable balance it succeeds and writes the
    approved loan. *)
Theorem ApproveLoan_checks_lender loanID lenderID txid ts w loan :
  loanIn w loanID = Ok loan ->
  Status loan = "PENDING" ->
  (w !! lenderID = None ->
   invoke (ApproveLoan loanID lenderID) txid ts w = (Err (ErrAccountMissing lenderID), w)
   /\ kind (ErrAccountMissing lenderID) = NotFound)
  /\ (forall lenderBalance,
        balanceIn w lenderID = Ok lenderBalance ->
        (lenderBalance <? Amount loan)%float = true ->
        invoke (ApproveLoan loanID lenderID) txid ts w = (Err (ErrLenderFunds lenderID), w)
        /\ kind (ErrLenderFunds lenderID) = InsufficientFunds)
  /\ (forall lenderBalance,
        balanceIn w lenderID = Ok lenderBalance ->
        (lenderBalance <? Amount loan)%float = false ->
        invoke (ApproveLoan loanID lenderID) txid ts w
        = (Ok tt, <[loanID := DocLoan (approvedLoan lenderID txid loan)]> w)).
Proof.
  intros Hl Hs.
  assert (Hdec : forall A (x y : A),
             (if decide (Status loan <> "PENDING") then x else y) = y).
  { intros A x y. destruct (decide (Status loan <> "PENDING")); [contradiction|reflexivity]. }
  split; [|split].
  - intros Hnone. unfold invoke. rewrite ApproveLoan_eq. cbn [state].
    rewrite Hl, Hdec, balanceIn_eq, Hnone. split; reflexivity.
  - intros b Hb Hlt. unfold invoke. rewrite ApproveLoan_eq. cbn [state].
    rewrite Hl, Hdec, Hb, Hlt. split; reflexivity.
  - intros b Hb Hlt. exact (ApproveLoan_invoke _ _ _ _ _ _ _ Hl Hs Hb Hlt).
Qed.

Lemma ApproveLoan_checks_lender_witness :
  (invoke (ApproveLoan "L1" "ICICI") "tx2" 1700000120 requested
   = (Err (ErrAccountMissing "ICICI"), requested)
   /\ kind (ErrAccountMissing "ICICI") = NotFound)
  /\ invoke (ApproveLoan "L1" "HDFC") "tx2" 1700000120 requested
     = (Ok tt, <["L1" := DocLoan (approvedLoan "HDFC" "tx2" loanL1)]> requested).
Proof.
  split.
  - exact (proj1 (ApproveLoan_checks_lender "L1" "ICICI" "tx2" 1700000120 requested
                    loanL1 ltac:(vm_compute; reflexivity) ltac:(reflexivity))
             ltac:(vm_compute; reflexivity)).
  - exact (proj2 (proj2 (ApproveLoan_checks_lender "L1" "HDFC" "tx2" 1700000120
                           requested loanL1
                           ltac:(vm_compute; reflexivity) ltac:(reflexivity)))
             500000%float ltac:(vm_compute; reflexivity) ltac:(reflexivity)).
Defined.

(** X16: an approval reserves nothing.  A lender whose balance covers each
    of two PENDING loans can approve both, one after the other, whatever
    their sum; the balance is the same after both approvals. *)
Theorem approvals_do_not_reserve_funds
    lenderID loanA loanB txidA tsA txidB tsB w a b lenderBalance :
  loanA <> loanB ->
  loanIn w loanA = Ok a -> Status a = "PENDING" ->
  loanIn w loanB = Ok b -> Status b = "PENDING" ->
  balanceIn w lenderID = Ok lenderBalance ->
  (lenderBalance <? Amount a)%float = false ->
  (lenderBalance <? Amount b)%float = false ->
  let w1 := <[loanA := DocLoan (approvedLoan lenderID txidA a)]> w in
  let w2 := <[loanB := DocLoan (approvedLoan lenderID txidB b)]> w1 in
  invoke (ApproveLoan loanA lenderID) txidA tsA w = (Ok tt, w1)
  /\ invoke (ApproveLoan loanB lenderID) txidB tsB w1 = (Ok tt, w2)
  /\ loanIn w2 loanA = Ok (approvedLoan lenderID txidA a)
  /\ loanIn w2 loanB = Ok (approvedLoan lenderID txidB b)
  /\ balanceIn w2 lenderID = Ok lenderBalance.
Proof.
  intros Hne Ha Hsa Hb Hsb Hbal Hlta Hltb w1 w2.
  pose proof (loanIn_finite _ _ _ Ha) as Hfa.
  pose proof (loanIn_finite _ _ _ Hb) as Hfb.
  assert (Hb1 : loanIn w1 loanB = Ok b).
  { unfold w1. rewrite loanIn_insert_ne by exact Hne. exact Hb. }
  assert (Hbal1 : balanceIn w1 lenderID = Ok lenderBalance).
  { unfold w1. rewrite (balanceIn_rewrite_loan _ _ _ _ _ Ha) by (rewrite Hsa; discriminate).
    exact Hbal. }
  split; [exact (ApproveLoan_invoke _ _ _ _ _ _ _ Ha Hsa Hbal Hlta)|].
  split; [exact (ApproveLoan_invoke _ _ _ _ _ _ _ Hb1 Hsb Hbal1 Hltb)|].
  split; [|split].
  - unfold w2. rewrite loanIn_insert_ne by congruence.
    unfold w1. apply loanIn_insert. exact Hfa.
  - unfold w2. apply loanIn_insert. exact Hfb.
  - unfold w2. rewrite (balanceIn_rewrite_loan _ _ _ _ _ Hb1) by (rewrite Hsb; discriminate).
    exact Hbal1.
Qed.

Lemma approvals_do_not_reserve_funds_witness :
  invoke (ApproveLoan "L1" "HDFC") "tx2" 1700000120 requestedTwo
  = (Ok tt, <["L1" := DocLoan (approvedLoan "HDFC" "tx2" loanL1)]> requestedTwo)
  /\ invoke (ApproveLoan "L2" "HDFC") "tx2b" 1700000130
       (<["L1" := DocLoan (approvedLoan "HDFC" "tx2" loanL1)]> requestedTwo)
     = (Ok tt,
        <["L2" := DocLoan (approvedLoan "HDFC" "tx2b" loanL2)]>
          (<["L1" := DocLoan (approvedLoan "HDFC" "tx2" loanL1)]> requestedTwo)).
Proof.
  pose proof (approvals_do_not_reserve_funds "HDFC" "L1" "L2"
                "tx2" 1700000120 "tx2b" 1700000130 requestedTwo loanL1 loanL2 500000
                ltac:(discriminate)
                ltac:(vm_compute; reflexivity) ltac:(reflexivity)
                ltac:(vm_compute; reflexivity) ltac:(reflexivity)
                ltac:(vm_compute; reflexivity)
                ltac:(reflexivity) ltac:(reflexivity)) as H.
  cbv zeta in H. split; [exact (proj1 H)|exact (proj1 (proj2 H))].
Defined.

(** The two approved loans add up to 501000, above the 500000 HDFC holds:
    once L2 is disbursed, the disbursement of L1 fails. *)
Example approved_loans_may_exceed_balance :
  let approvedTwo :=
    <["L2" := DocLoan (approvedLoan "HDFC" "tx2b" loanL2)]>
      (<["L1" := DocLoan (approvedLoan "HDFC" "tx2" loanL1)]> requestedTwo) in
  let disbursedL2 := snd (invoke (DisburseLoan "L2") "tx3" 1700000180 approvedTwo) in
  fst (invoke (DisburseLoan "L2") "tx3" 1700000180 approvedTwo) = Ok tt
  /\ balanceIn disbursedL2 "HDFC" = Ok 0%float
  /\ invoke (DisburseLoan "L1") "tx3b" 1700000190 disbursedL2
     = (Err (ErrInsufficientFunds "HDFC"), disbursedL2).
Proof. repeat (split; [vm_compute; reflexivity|]). vm_compute. reflexivity. Qed.

(** ** From request to disbursement *)

(** X17: request, approval and disbursement compose.  For a new loan key,
    a borrower id other than the loan id and without a record, a lender
    whose balance covers the non-negative amount, and a repayment due that
    is finite, the three invocations succeed in turn; the loan is then
    ACTIVE with remainingBalance = amount * (1 + rate/100), the lender holds
    its balance minus the amount and the borrower 0 + amount. *)
Theorem loan_reaches_active {runtime : GoRuntime}
    loanID borrowerID lenderID amount interestRate duration collateral
    txid1 ts1 txid2 ts2 txid3 ts3 w lenderBalance :
  w !! loanID = None ->
  w !! borrowerID = None ->
  loanID <> borrowerID ->
  balanceIn w lenderID = Ok lenderBalance ->
  (0 <=? amount)%float = true ->
  (amount <=? lenderBalance)%float = true ->
  is_finite (amount * (1 + interestRate / 100)) = true ->
  let loan :=
    disbursedLoan txid3 ts3
      (approvedLoan lenderID txid2
         (requestedLoan loanID borrowerID amount interestRate duration collateral
            txid1 ts1)) in
  exists w1 w2 w3,
    invoke (RequestLoan loanID borrowerID amount interestRate duration collateral)
      txid1 ts1 w = (Ok tt, w1)
    /\ invoke (ApproveLoan loanID lenderID) txid2 ts2 w1 = (Ok tt, w2)
    /\ invoke (DisburseLoan loanID) txid3 ts3 w2 = (Ok tt, w3)
    /\ loanIn w3 loanID = Ok loan
    /\ Status loan = "ACTIVE"
    /\ RemainingBalance loan = (amount * (1 + interestRate / 100))%float
    /\ balanceIn w3 lenderID = Ok (lenderBalance - amount)%float
    /\ balanceIn w3 borrowerID = Ok (0 + amount)%float.
Proof.
  intros Hnone Hborrower Hlb Hbal H0 Hle Hdue loan.
  set (l0 := requestedLoan loanID borrowerID amount interestRate duration collateral
               txid1 ts1).
  destruct (due_finite_inv _ _ Hdue) as [Hafin Hrfin].
  assert (Hf0 : finiteLoan l0 = true).
  { unfold finiteLoan, l0. cbn. rewrite Hafin, Hrfin, Hdue. reflexivity. }
  pose proof (balanceIn_finite _ _ _ Hbal) as Hbfin.
  assert (Hll : loanID <> lenderID).
  { intros ->. rewrite balanceIn_eq, Hnone in Hbal. discriminate. }
  assert (Hbl : borrowerID <> lenderID).
  { intros ->. rewrite balanceIn_eq, Hborrower in Hbal. discriminate. }
  set (w1 := <[loanID := DocLoan l0]> w).
  set (w2 := <[loanID := DocLoan (approvedLoan lenderID txid2 l0)]> w1).
  assert (Hbal2 : balanceIn w2 lenderID = Ok lenderBalance).
  { unfold w2, w1. rewrite !balanceIn_insert_ne by exact Hll. exact Hbal. }
  assert (Hl2 : loanIn w2 loanID = Ok (approvedLoan lenderID txid2 l0)).
  { unfold w2. apply loanIn_insert. exact Hf0. }
  assert (Hrec : fst (recipientBalance borrowerID (mkStub w2 ∅ txid3 ts3)) = Ok 0%float).
  { rewrite recipientBalance_eq. cbn [fst state]. rewrite balanceIn_eq.
    unfold w2, w1. rewrite !lookup_insert_ne by exact Hlb. rewrite Hborrower.
    destruct (decide (ErrAccountMissing borrowerID = ErrAccountMissing borrowerID));
      congruence. }
  destruct (TransferTokens_succeeds lenderID borrowerID amount (mkStub w2 ∅ txid3 ts3)
              _ _ Hbal2 Hrec H0 Hle (add_zero_finite _ Hafin)) as [Hdfin Ht].
  eexists w1, w2, _. split; [|split; [|split]].
  - unfold invoke. rewrite RequestLoan_eq. cbn [state TxID TxTimestamp].
    rewrite Hnone. cbv zeta. fold l0. rewrite Hf0, commit_put, commit_fresh.
    reflexivity.
  - apply (ApproveLoan_invoke _ _ _ _ _ l0 lenderBalance).
    + unfold w1. apply loanIn_insert. exact Hf0.
    + reflexivity.
    + unfold w1. rewrite balanceIn_insert_ne by exact Hll. exact Hbal.
    + apply leb_ltb_false; assumption.
  - unfold invoke. rewrite DisburseLoan_eq. cbn [state TxID TxTimestamp].
    rewrite Hl2.
    destruct (decide (Status (approvedLoan lenderID txid2 l0) <> "APPROVED"));
      [contradiction|].
    change (LenderID (approvedLoan lenderID txid2 l0)) with lenderID.
    change (BorrowerID (approvedLoan lenderID txid2 l0)) with borrowerID.
    change (Amount (approvedLoan lenderID txid2 l0)) with amount.
    rewrite Ht, !commit_put, commit_fresh. reflexivity.
  - split; [apply loanIn_insert; exact Hf0|].
    split; [reflexivity|]. split; [reflexivity|]. split.
    + rewrite balanceIn_insert_ne by exact Hll.
      rewrite balanceIn_insert_ne by exact Hbl.
      apply balanceIn_insert. exact Hdfin.
    + rewrite balanceIn_insert_ne by exact Hlb.
      apply balanceIn_insert. apply add_zero_finite. exact Hafin.
Qed.

Lemma loan_reaches_active_witness :
  exists w1 w2 w3,
    invoke (@RequestLoan utcRuntime "L1" "B1" 1000 10 12 "car") "tx1" 1700000060 genesis
    = (Ok tt, w1)
    /\ invoke (ApproveLoan "L1" "HDFC") "tx2" 1700000120 w1 = (Ok tt, w2)
    /\ invoke (DisburseLoan "L1") "tx3" 1700000180 w2 = (Ok tt, w3)
    /\ loanIn w3 "L1" = Ok loanL1_active
    /\ Status loanL1_active = "ACTIVE"
    /\ RemainingBalance loanL1_active = (1000 * (1 + 10 / 100))%float
    /\ balanceIn w3 "HDFC" = Ok (500000 - 1000)%float
    /\ balanceIn w3 "B1" = Ok (0 + 1000)%float.
Proof.
  exact (@loan_reaches_active utcRuntime "L1" "B1" "HDFC" 1000 10 12 "car"
           "tx1" 1700000060 "tx2" 1700000120 "tx3" 1700000180 genesis 500000
           ltac:(vm_compute; reflexivity) ltac:(vm_compute; reflexivity)
           ltac:(discriminate) ltac:(vm_compute; reflexivity)
           ltac:(reflexivity) ltac:(reflexivity) ltac:(reflexivity)).
Defined.

(** ** Full and partial repayment *)

Section SubtractionFacts.
Variables prec emax : Z.
Hypothesis prec_pos : 0 < prec.

(** The difference of two non-negative floats is zero only when they are
    equal: no positive difference is rounded away. *)
Lemma SFsub_zero_iff x y :
  SpecFloat.valid_binary prec emax x = true -> SpecFloat.valid_binary prec emax y = true ->
  SFfin x = true -> SFfin y = true ->
  0 <= SFnum prec emax y <= SFnum prec emax x ->
  SFfin (SFsub prec emax x y) = true ->
  SFnum prec emax (SFsub prec emax x y) = 0 <-> SFnum prec emax x = SFnum prec emax y.
Proof.
  destruct x as [sx|sx| |sx mx ex], y as [sy|sy| |sy my ey]; try discriminate;
    unfold SpecFloat.valid_binary, bounded; intros Hx Hy _ _ Hn.
  - destruct sx, sy; cbn; lia.
  - exfalso. apply andb_prop in Hy as [Hc _].
    apply (SFnum_finite_nonzero prec emax sy my ey (canonical_emin _ _ _ _ Hc)).
    cbn [SFnum] in Hn |- *. lia.
  - apply andb_prop in Hx as [Hc _].
    pose proof (SFnum_finite_nonzero prec emax sx mx ex (canonical_emin _ _ _ _ Hc)).
    cbn [SFsub]. cbn [SFnum] in *. lia.
  - apply andb_prop in Hx as [Hcx Hbx]. apply andb_prop in Hy as [Hcy Hby].
    pose proof (canonical_emin _ _ _ _ Hcx) as Hex.
    pose proof (canonical_emin _ _ _ _ Hcy) as Hey.
    pose proof (pow2_pos (ex - SpecFloat.emin prec emax) ltac:(lia)) as Hpx.
    pose proof (pow2_pos (ey - SpecFloat.emin prec emax) ltac:(lia)) as Hpy.
    assert (sy = false) by (destruct sy; [cbn [SFnum cond_Zopp] in Hn; nia|reflexivity]).
    assert (sx = false)
      by (destruct sx; [cbn [SFnum cond_Zopp] in Hn; subst; cbv [cond_Zopp] in Hn; nia
                       |reflexivity]).
    subst sx sy. cbn [SFnum cond_Zopp] in Hn |- *.
    cbn [SFsub cond_Zopp].
    set (ez := Z.min ex ey).
    rewrite (shl_align_fst mx ex ez) by (unfold ez; lia).
    rewrite (shl_align_fst my ey ez) by (unfold ez; lia).
    set (D := Z.pos mx * 2 ^ (ex - ez) - Z.pos my * 2 ^ (ey - ez)).
    assert (HD : D * 2 ^ (ez - SpecFloat.emin prec emax)
                 = Z.pos mx * 2 ^ (ex - SpecFloat.emin prec emax)
                   - Z.pos my * 2 ^ (ey - SpecFloat.emin prec emax)).
    { unfold D. rewrite Z.mul_sub_distr_r, <- !Z.mul_assoc, <- !pow2_add by (unfold ez; lia).
      f_equal; f_equal; f_equal; lia. }
    pose proof (pow2_pos (ez - SpecFloat.emin prec emax) ltac:(unfold ez; lia)) as Hpz.
    destruct D as [|pD|pD] eqn:HDeq.
    + cbn [binary_normalize SFnum]. lia.
    + cbn [binary_normalize].
      destruct (binary_round_shape prec emax prec_pos false pD ez ltac:(unfold ez; lia))
        as (m' & e' & Hcan & Hres & _).
      rewrite Hres.
      pose proof (canonical_emin _ _ _ _ Hcan) as He'.
      pose proof (pow2_pos (e' - SpecFloat.emin prec emax) ltac:(lia)).
      destruct (e' <=? emax - prec); cbn [SFnum SFfin cond_Zopp]; [nia|discriminate].
    + exfalso. nia.
Qed.
End SubtractionFacts.

Lemma sub_zero_iff x y :
  is_finite x = true -> is_finite y = true ->
  (0 <=? y)%float = true -> (y <=? x)%float = true ->
  (x - y <=? 0)%float = (x <=? y)%float.
Proof.
  intros Hx Hy H0 Hle.
  destruct (sub_nonneg_le x y Hx Hy H0 Hle) as (Hd & Hd0 & _).
  rewrite (leb_F2Z _ _ Hd is_finite_zero), (leb_F2Z _ _ Hx Hy), F2Z_zero.
  rewrite (leb_F2Z _ _ is_finite_zero Hd), F2Z_zero in Hd0.
  rewrite (leb_F2Z _ _ is_finite_zero Hy), F2Z_zero in H0.
  rewrite (leb_F2Z _ _ Hy Hx) in Hle.
  apply Z.leb_le in Hd0, H0, Hle.
  pose proof Hx as Hx'. pose proof Hy as Hy'. pose proof Hd as Hd'.
  rewrite is_finite_SF in Hx', Hy', Hd'.
  rewrite FloatAxioms.sub_spec in Hd'.
  pose proof (SFsub_zero_iff prec emax eq_refl _ _ (Prim2SF_valid x) (Prim2SF_valid y)
                Hx' Hy' (conj H0 Hle) Hd') as Hiff.
  fold (SF64sub (Prim2SF x) (Prim2SF y)) in Hiff.
  rewrite <- FloatAxioms.sub_spec in Hiff. fold (F2Z (x - y)) (F2Z x) (F2Z y) in Hiff.
  destruct (Z.leb_spec (F2Z (x - y)) 0), (Z.leb_spec (F2Z x) (F2Z y)); try reflexivity;
    exfalso; lia.
Qed.

(** X18: a repayment closes a loan exactly when it pays it in full.  After
    a successful [RepayLoan] of a non-negative amount, the amount was at
    most the remaining balance, and the loan is REPAID when the amount
    equalled the remaining balance and ACTIVE otherwise: rounding never
    turns a positive difference into 0. *)
Theorem repaid_exactly_when_paid_in_full {runtime : GoRuntime}
    loanID amount txid ts w w' loan :
  loanIn w loanID = Ok loan ->
  (0 <=? amount)%float = true ->
  invoke (RepayLoan loanID amount) txid ts w = (Ok tt, w') ->
  exists loan',
    loanIn w' loanID = Ok loan'
    /\ (amount <=? RemainingBalance loan)%float = true
    /\ (RemainingBalance loan' <=? 0)%float = (RemainingBalance loan <=? amount)%float
    /\ Status loan'
       = if (RemainingBalance loan <=? amount)%float then "REPAID" else "ACTIVE".
Proof.
  intros Hl H0. unfold invoke. rewrite RepayLoan_eq. cbn [state TxID]. rewrite Hl.
  destruct (decide (Status loan <> "ACTIVE")) as [|Hs]; [discriminate|].
  destruct (RemainingBalance loan <? amount)%float eqn:Hlt; [discriminate|].
  destruct (TransferTokens _ _ _ _) as [[[]|e] s1]; [|discriminate].
  destruct (is_finite (RemainingBalance loan - amount)) eqn:Hdf; [|discriminate].
  intros [= <-]. rewrite commit_put.
  pose proof (loanIn_finite _ _ _ Hl) as Hf.
  destruct (finiteLoan_fields _ Hf) as (_ & _ & _ & Hrem).
  destruct (ltb_false_leb _ _ Hrem H0 Hlt) as [Hafin Hle].
  pose proof (sub_zero_iff _ _ Hrem Hafin H0 Hle) as Hz.
  assert (Hst : Status loan = "ACTIVE")
    by (destruct (decide (Status loan = "ACTIVE")); tauto).
  eexists. split.
  { apply loanIn_insert. rewrite finite_repaidLoan by exact Hf. exact Hdf. }
  split; [exact Hle|].
  rewrite RemainingBalance_repaidLoan, Status_repaidLoan, Hz, Hst.
  split; reflexivity.
Qed.

Lemma repaid_exactly_when_paid_in_full_witness :
  exists loan',
    loanIn (snd (invoke (@RepayLoan utcRuntime "L1" 400) "tx4" 1700000240 active)) "L1"
    = Ok loan'
    /\ (400 <=? RemainingBalance loanL1_active)%float = true
    /\ (RemainingBalance loan' <=? 0)%float
       = (RemainingBalance loanL1_active <=? 400)%float
    /\ Status loan'
       = if (RemainingBalance loanL1_active <=? 400)%float then "REPAID" else "ACTIVE".
Proof.
  exact (@repaid_exactly_when_paid_in_full utcRuntime "L1" 400 "tx4" 1700000240 active
           (snd (invoke (@RepayLoan utcRuntime "L1" 400) "tx4" 1700000240 active))
           loanL1_active
           ltac:(vm_compute; reflexivity) ltac:(reflexivity)
           ltac:(vm_compute; reflexivity)).
Defined.

(** ** Sequences of transactions *)

Lemma invoke_Err f txid ts w e w' : invoke f txid ts w = (Err e, w') -> w' = w.
Proof.
  unfold invoke. destruct (f _) as [[[]|e0] s']; [discriminate|]. congruence.
Qed.

Lemma balances_nonneg_insert_loan w key loan :
  balances_nonneg w -> balances_nonneg (<[key := DocLoan loan]> w).
Proof.
  intros Hw account b. rewrite balanceIn_eq.
  destruct (decide (key = account)) as [->|Hne].
  - rewrite lookup_insert_eq. intros [= <-]. reflexivity.
  - rewrite lookup_insert_ne by exact Hne. intros Hb. apply (Hw account).
    rewrite balanceIn_eq. exact Hb.
Qed.

(** A successful transfer, as an invocation. *)
Lemma TransferTokens_commit from to amount txid ts w s1 :
  TransferTokens from to amount (mkStub w ∅ txid ts) = (Ok tt, s1) ->
  exists fromBalance toBalance,
    balanceIn w from = Ok fromBalance
    /\ (fromBalance <? amount)%float = false
    /\ (balanceIn w to = Ok toBalance \/ toBalance = 0%float)
    /\ is_finite (fromBalance - amount) = true
    /\ is_finite (toBalance + amount) = true
    /\ commit s1
       = <[to := DocBalance (mkTokenBalance to (toBalance + amount))]>
           (<[from := DocBalance (mkTokenBalance from (fromBalance - amount))]> w).
Proof.
  rewrite TransferTokens_eq. cbn [state].
  destruct (balanceIn w from) as [fb|e] eqn:Hfb; [|discriminate].
  destruct (fb <? amount)%float eqn:Hlt; [discriminate|].
  rewrite recipientBalance_eq. cbn [fst state].
  destruct (match balanceIn w to with Ok b => Ok b | Err e => _ end) as [tb|e] eqn:Htb;
    [|discriminate].
  destruct (is_finite (fb - amount)) eqn:Hdf; [|discriminate]. cbv zeta.
  destruct (is_finite (tb + amount)) eqn:Hsf; [|discriminate].
  intros [= <-]. rewrite !commit_put, commit_fresh.
  exists fb, tb. repeat split; auto.
  destruct (balanceIn w to) as [b|e].
  - left. exact Htb.
  - right. destruct (decide (e = ErrAccountMissing to)); congruence.
Qed.

Lemma TransferTokens_nonneg from to amount txid ts w s1 :
  TransferTokens from to amount (mkStub w ∅ txid ts) = (Ok tt, s1) ->
  (0 <=? amount)%float = true ->
  balances_nonneg w -> balances_nonneg (commit s1).
Proof.
  intros Ht H0 Hw.
  destruct (TransferTokens_commit _ _ _ _ _ _ _ Ht)
    as (fb & tb & Hfb & Hlt & Htb & Hdf & Hsf & ->).
  pose proof (balanceIn_finite _ _ _ Hfb) as Hfin.
  destruct (ltb_false_leb _ _ Hfin H0 Hlt) as [Hafin Hle].
  destruct (sub_nonneg_le fb amount Hfin Hafin H0 Hle) as (_ & Hd0 & _).
  apply balances_nonneg_insert; [apply balances_nonneg_insert; assumption|].
  apply add_nonneg; [|exact H0|exact Hsf].
  destruct Htb as [Htb| ->]; [exact (Hw _ _ Htb)|reflexivity].
Qed.

Lemma Amount_repaidLoan {runtime : GoRuntime} amount txid loan :
  Amount (repaidLoan amount txid loan) = Amount loan.
Proof.
  unfold repaidLoan. cbv zeta.
  destruct (RemainingBalance loan - amount <=? 0)%float; reflexivity.
Qed.

Lemma sound_zeroLoan :
  (0 <=? Amount zeroLoan)%float = true /\ balance_in_range zeroLoan.
Proof. repeat split. Qed.

(** A key that holds a balance record reads as the zero loan. *)
Lemma loanIn_balance w key b loan :
  w !! key = Some (DocBalance b) -> loanIn w key = Ok loan -> loan = zeroLoan.
Proof. intros Hk. rewrite loanIn_eq, Hk. cbn. congruence. Qed.

Lemma dispatch_keeps_balances_nonneg {runtime : GoRuntime} op txid ts w w' :
  nonnegativeAmounts op = true ->
  (forall loan, loanIn w (target op) = Ok loan -> (0 <=? Amount loan)%float = true) ->
  balances_nonneg w ->
  invoke (dispatch op) txid ts w = (Ok tt, w') ->
  balances_nonneg w'.
Proof.
  intros Hnn Hamount Hw. unfold invoke.
  destruct op as [loanID borrowerID amount rate duration collateral
                 |loanID lenderID|loanID|loanID amount|loanID|loanID collateral];
    cbn [dispatch target nonnegativeAmounts] in *.
  - rewrite RequestLoan_eq. cbn [state TxID TxTimestamp].
    destruct (w !! loanID); [discriminate|]. cbv zeta.
    destruct (finiteLoan _); [|discriminate].
    intros [= <-]. rewrite commit_put, commit_fresh.
    apply balances_nonneg_insert_loan. exact Hw.
  - rewrite ApproveLoan_eq. cbn [state TxID].
    destruct (loanIn w loanID) as [loan|e]; [|discriminate].
    destruct (decide (Status loan <> "PENDING")); [discriminate|].
    destruct (balanceIn w lenderID) as [b|e]; [|discriminate].
    destruct (b <? Amount loan)%float; [discriminate|].
    intros [= <-]. rewrite commit_put, commit_fresh.
    apply balances_nonneg_insert_loan. exact Hw.
  - rewrite DisburseLoan_eq. cbn [state TxID TxTimestamp].
    destruct (loanIn w loanID) as [loan|e]; [|discriminate].
    destruct (decide (Status loan <> "APPROVED")); [discriminate|].
    destruct (TransferTokens _ _ _ _) as [[[]|e] s1] eqn:Ht; [|discriminate].
    intros [= <-]. rewrite commit_put.
    apply balances_nonneg_insert_loan.
    exact (TransferTokens_nonneg _ _ _ _ _ _ _ Ht (Hamount _ eq_refl) Hw).
  - rewrite RepayLoan_eq. cbn [state TxID].
    destruct (loanIn w loanID) as [loan|e]; [|discriminate].
    destruct (decide (Status loan <> "ACTIVE")); [discriminate|].
    destruct (RemainingBalance loan <? amount)%float; [discriminate|].
    destruct (TransferTokens _ _ _ _) as [[[]|e] s1] eqn:Ht; [|discriminate].
    destruct (is_finite _); [|discriminate].
    intros [= <-]. rewrite commit_put.
    apply balances_nonneg_insert_loan.
    exact (TransferTokens_nonneg _ _ _ _ _ _ _ Ht Hnn Hw).
  - rewrite MarkAsDefaulted_eq. cbn [state TxID].
    destruct (loanIn w loanID) as [loan|e]; [|discriminate].
    destruct (decide (Status loan <> "ACTIVE")); [discriminate|].
    intros [= <-]. rewrite commit_put, commit_fresh.
    apply balances_nonneg_insert_loan. exact Hw.
  - rewrite AddCollateral_eq. cbn [state TxID].
    destruct (loanIn w loanID) as [loan|e]; [|discriminate].
    intros [= <-]. rewrite commit_put, commit_fresh.
    apply balances_nonneg_insert_loan. exact Hw.
Qed.

Lemma dispatch_keeps_amount {runtime : GoRuntime} op txid ts w w' loan' :
  nonnegativeAmounts op = true ->
  (forall loan, loanIn w (target op) = Ok loan -> (0 <=? Amount loan)%float = true) ->
  invoke (dispatch op) txid ts w = (Ok tt, w') ->
  loanIn w' (target op) = Ok loan' ->
  (0 <=? Amount loan')%float = true.
Proof.
  intros Hnn Hamount Hinv Hl'.
  destruct (dispatch_written _ _ _ _ _ Hinv) as (l' & Hw & _ & Hl'' & Hpre).
  rewrite Hl' in Hl''. injection Hl'' as <-.
  destruct op as [loanID borrowerID amount rate duration collateral
                 |loanID lenderID|loanID|loanID amount|loanID|loanID collateral];
    cbn [target written nonnegativeAmounts] in *.
  - injection Hw as <-. cbn. apply andb_prop in Hnn. tauto.
  - destruct Hpre as (loan & Hl & _). rewrite Hl in Hw. injection Hw as <-.
    exact (Hamount _ Hl).
  - destruct Hpre as (loan & Hl & _). rewrite Hl in Hw. injection Hw as <-.
    exact (Hamount _ Hl).
  - destruct Hpre as (loan & Hl & _). rewrite Hl in Hw. injection Hw as <-.
    rewrite Amount_repaidLoan. exact (Hamount _ Hl).
  - destruct Hpre as (loan & Hl & _). rewrite Hl in Hw. injection Hw as <-.
    exact (Hamount _ Hl).
  - destruct Hpre as (loan & Hl & _). rewrite Hl in Hw. injection Hw as <-.
    exact (Hamount _ Hl).
Qed.

Lemma sound_step {runtime : GoRuntime} c txid ts w :
  nonnegativeCall c = true -> sound w -> sound (snd (invoke (perform c) txid ts w)).
Proof.
  intros Hnn [Hbal Hloans].
  destruct (invoke (perform c) txid ts w) as [[[]|e] w'] eqn:Hinv; cbn [snd].
  2:{ rewrite (invoke_Err _ _ _ _ _ _ Hinv). split; assumption. }
  destruct c as [op|from to amount|]; cbn [perform nonnegativeCall] in *.
  - assert (Hamount : forall loan,
               loanIn w (target op) = Ok loan -> (0 <=? Amount loan)%float = true)
      by (intros loan Hl; apply (Hloans _ _ Hl)).
    split; [exact (dispatch_keeps_balances_nonneg _ _ _ _ _ Hnn Hamount Hbal Hinv)|].
    intros key loan' Hl'. destruct (decide (key = target op)) as [->|Hne].
    + split; [exact (dispatch_keeps_amount _ _ _ _ _ _ Hnn Hamount Hinv Hl')|].
      destruct (remainingBalance_step _ _ _ _ _ Hnn Hinv) as (l' & Hl'' & Hrange).
      rewrite Hl' in Hl''. injection Hl'' as <-.
      destruct (loanIn w (target op)) as [loan|e] eqn:Hl.
      * apply Hrange. apply (Hloans _ _ Hl).
      * apply Hrange.
    + destruct (dispatch_frame _ _ _ _ _ _ Hinv Hne) as [Heq|[b Hb]].
      * apply (Hloans key). rewrite loanIn_eq, <- Heq, <- loanIn_eq. exact Hl'.
      * rewrite (loanIn_balance _ _ _ _ Hb Hl'). exact sound_zeroLoan.
  - unfold invoke in Hinv.
    destruct (TransferTokens _ _ _ _) as [[[]|e] s1] eqn:Ht; [|discriminate].
    injection Hinv as <-.
    split; [exact (TransferTokens_nonneg _ _ _ _ _ _ _ Ht Hnn Hbal)|].
    destruct (TransferTokens_commit _ _ _ _ _ _ _ Ht) as (fb & tb & _ & _ & _ & _ & _ & ->).
    intros key loan'.
    destruct (decide (to = key)) as [->|Hto].
    { intros Hl'. rewrite (loanIn_balance _ _ _ _ (lookup_insert_eq _ _ _) Hl').
      exact sound_zeroLoan. }
    rewrite loanIn_insert_ne by exact Hto.
    destruct (decide (from = key)) as [->|Hfrom].
    { intros Hl'. rewrite (loanIn_balance _ _ _ _ (lookup_insert_eq _ _ _) Hl').
      exact sound_zeroLoan. }
    rewrite loanIn_insert_ne by exact Hfrom. apply Hloans.
  - rewrite InitLedger_invoke in Hinv. injection Hinv as <-. unfold initialBalances.
    split.
    + repeat apply balances_nonneg_insert; auto.
    + intros key loan'.
      destruct (decide ("SBI" = key)) as [<-|H3].
      { intros Hl'. rewrite (loanIn_balance _ _ _ _ (lookup_insert_eq _ _ _) Hl').
        exact sound_zeroLoan. }
      rewrite loanIn_insert_ne by exact H3.
      destruct (decide ("HDFC" = key)) as [<-|H2].
      { intros Hl'. rewrite (loanIn_balance _ _ _ _ (lookup_insert_eq _ _ _) Hl').
        exact sound_zeroLoan. }
      rewrite loanIn_insert_ne by exact H2.
      destruct (decide ("RBI" = key)) as [<-|H1].
      { intros Hl'. rewrite (loanIn_balance _ _ _ _ (lookup_insert_eq _ _ _) Hl').
        exact sound_zeroLoan. }
      rewrite loanIn_insert_ne by exact H1. apply Hloans.
Qed.

Lemma sound_empty : sound ∅.
Proof.
  split.
  - intros account b. rewrite balanceIn_eq, lookup_empty. discriminate.
  - intros loanID loan. rewrite loanIn_eq, lookup_empty. discriminate.
Qed.

(** X19: along every sequence of [InitLedger], [TransferTokens] and loan
    operations whose amounts are not negative, started on the empty ledger
    (or on any sound one), failed transactions included, no balance is ever
    negative and every loan keeps a non-negative amount and
    0 <= remainingBalance <= repaymentDue. *)
Theorem ledger_stays_sound {runtime : GoRuntime} txs :
  Forall (fun tx => nonnegativeCall tx.1.1 = true) txs ->
  (forall w, sound w -> sound (run txs w))
  /\ sound (run txs ∅)
  /\ forall account b, balanceIn (run txs ∅) account = Ok b -> (0 <=? b)%float = true.
Proof.
  intros Hall.
  assert (Hrun : forall w, sound w -> sound (run txs w)).
  { induction Hall as [|[[c txid] ts] rest Hc _ IH]; intros w Hw; cbn [run].
    - exact Hw.
    - apply IH. apply sound_step; assumption. }
  split; [exact Hrun|]. split; [exact (Hrun _ sound_empty)|].
  exact (proj1 (Hrun _ sound_empty)).
Qed.

Lemma ledger_stays_sound_witness :
  sound
    (@run utcRuntime
       [ (CallInitLedger, "tx0", 1700000000);
         (CallLoan (OpRequestLoan "L1" "B1" 1000 10 12 "car"), "tx1", 1700000060);
         (CallLoan (OpApproveLoan "L1" "HDFC"), "tx2", 1700000120);
         (CallLoan (OpDisburseLoan "L1"), "tx3", 1700000180);
         (CallLoan (OpRepayLoan "L1" 400), "tx4", 1700000240);
         (CallTransfer "SBI" "B1" 2500, "tx5", 1700000300) ] ∅).
Proof.
  apply (@ledger_stays_sound utcRuntime).
  repeat constructor.
Defined.
